(** * GOP Attendance Tracker

    A shallow embedding of the identity-resolution and attendance-aggregation
    scripts (MatchAssignUniqueCodes.js, CalculateAttndnc.1.js,
    ActivityLevel.js) and the properties of them stated in the design
    document.

    Conventions of the embedding.
    - A JavaScript string is a [string]; a character is one code unit in the
      range 0..255 (the Latin-1 part of UTF-16).
    - A finite JavaScript number is an exact rational [Q]; rounding to a
      double is not modelled, so identifiers are exact integers (this is what
      the scripts compute while every identifier stays below 2^53).
    - [Map] objects used only through [has]/[get]/[set] are [gmap]s, [Set]
      objects used only through [has]/[add]/[size] are [gset]s; the [Map]
      that is iterated ([grouped]) is an association list in insertion
      order.
    - Builtins whose result depends on the host (printing of numbers and
      dates, [Date.parse], the local time zone) are variables of the
      section. *)

From Stdlib Require Import ZArith QArith Qround Qabs String Ascii DecimalString List Lia Permutation.
From Stdlib Require Qcanon DecimalPos DecimalN.
From stdpp Require Import gmap strings list fin_maps.

Set Default Proof Using "Type".

Local Open Scope string_scope.
Local Open Scope Z_scope.

(** ** Values *)

Inductive number : Type :=
| Fin (q : Q)
| NaN
| PosInf
| NegInf.

(** A [Date] object holds a time value in milliseconds, or is invalid. *)
Inductive value : Type :=
| VUndefined
| VNull
| VBool (b : bool)
| VNum (n : number)
| VStr (s : string)
| VDate (t : option Z).

(** What [Range.getValues] yields for a cell: a string (empty for an empty
    cell), a finite number, a boolean or a valid date. *)
Definition sheetValue (v : value) : Prop :=
  match v with
  | VStr _ | VBool _ | VNum (Fin _) | VDate (Some _) => True
  | _ => False
  end.

Definition isNaN (n : number) : bool :=
  match n with NaN => true | _ => false end.

(** ** Strings *)

Definition code (c : ascii) : N := N_of_ascii c.

(** WhiteSpace and LineTerminator code units below 256: TAB, LF, VT, FF, CR,
    SP and NBSP. *)
Definition isWhiteSpace (c : ascii) : bool :=
  let n := code c in
  ((9 <=? n) && (n <=? 13) || (n =? 32) || (n =? 160))%N.

Definition isDigit (c : ascii) : bool :=
  let n := code c in ((48 <=? n) && (n <=? 57))%N.

Definition isUpper (c : ascii) : bool :=
  let n := code c in
  ((65 <=? n) && (n <=? 90) || (192 <=? n) && (n <=? 222) && negb (n =? 215))%N.

Definition lowerChar (c : ascii) : ascii :=
  if isUpper c then ascii_of_N (code c + 32) else c.

Fixpoint toLowerCase (s : string) : string :=
  match s with
  | EmptyString => EmptyString
  | String c r => String (lowerChar c) (toLowerCase r)
  end.

Fixpoint trimStart (s : string) : string :=
  match s with
  | EmptyString => EmptyString
  | String c r => if isWhiteSpace c then trimStart r else s
  end.

Fixpoint trimEnd (s : string) : string :=
  match s with
  | EmptyString => EmptyString
  | String c r =>
      match trimEnd r with
      | EmptyString => if isWhiteSpace c then EmptyString else String c EmptyString
      | r' => String c r'
      end
  end.

Definition trim (s : string) : string := trimEnd (trimStart s).

Fixpoint allChars (p : ascii -> bool) (s : string) : bool :=
  match s with
  | EmptyString => true
  | String c r => p c && allChars p r
  end.

(** [/^\d+$/.test(s)] *)
Definition matchesDigits (s : string) : bool :=
  match s with
  | EmptyString => false
  | _ => allChars isDigit s
  end.

Definition digitVal (c : ascii) : Z := Z.of_N (code c) - 48.

Fixpoint takeDigits (s : string) : string :=
  match s with
  | EmptyString => EmptyString
  | String c r => if isDigit c then String c (takeDigits r) else EmptyString
  end.

Fixpoint digitsValue (acc : Z) (s : string) : Z :=
  match s with
  | EmptyString => acc
  | String c r => digitsValue (10 * acc + digitVal c) r
  end.

(** [parseInt(s, 10)]: leading white space is skipped, an optional sign is
    read, then the longest prefix of decimal digits; [None] is NaN. *)
Definition parseInt10 (s : string) : option Z :=
  let S := trimStart s in
  let '(sign, rest) :=
    match S with
    | String "-" r => (-1, r)
    | String "+" r => (1, r)
    | _ => (1, S)
    end in
  match takeDigits rest with
  | EmptyString => None
  | ds => Some (sign * digitsValue 0 ds)
  end.

(** ** MatchAssignUniqueCodes.js: extractNumericBel *)

(** [Number.isInteger] on a finite number. *)
Definition isIntegerQ (q : Q) : bool := (Zpos (Qden (Qred q)) =? 1).

Definition extractNumericBel (codeValue : value) : option Z :=
  match codeValue with
  | VNum (Fin q) =>
      if isIntegerQ q && Qle_bool 0 q then Some (Qfloor q) else None
  | VNum _ => None
  | VStr s =>
      let numStr := trim s in
      if decide (numStr = "") then None
      else if negb (matchesDigits numStr) then None
      else match parseInt10 numStr with
           | Some num => if 0 <=? num then Some num else None
           | None => None
           end
  | _ => None
  end.

(** The value a numeral denotes, by position: the reading of the design
    document's "parsed integer", independent of [parseInt10]. *)
Fixpoint decimalValue (s : string) : Z :=
  match s with
  | EmptyString => 0
  | String c r => digitVal c * 10 ^ Z.of_nat (String.length r) + decimalValue r
  end.

Definition hasNonDigit (s : string) : bool := negb (allChars isDigit s).


(** ** Results of code that can throw *)

(** [OutOfFuel] is not an outcome of the scripts: it is what a loop
    unrolled a bounded number of times yields when the bound is too small. *)
Inductive Result (A : Type) : Type :=
| Ok (a : A)
| Thrown (msg : string)
| OutOfFuel.
Arguments Ok {A} a.
Arguments Thrown {A} msg.
Arguments OutOfFuel {A}.

Definition bindR {A B : Type} (r : Result A) (k : A -> Result B) : Result B :=
  match r with
  | Ok a => k a
  | Thrown msg => Thrown msg
  | OutOfFuel => OutOfFuel
  end.

(** ** Printing *)

Definition decimalString (z : Z) : string :=
  if z <? 0 then "-" ++ NilZero.string_of_uint (N.to_uint (Z.to_N (- z)))
  else NilZero.string_of_uint (N.to_uint (Z.to_N z)).

Definition isUndefined (v : value) : bool :=
  match v with VUndefined => true | _ => false end.

Definition isString (v : value) : bool :=
  match v with VStr _ => true | _ => false end.

(** [row[i]]: reading past the end of an array yields [undefined]. *)
Definition cell (row : list value) (i : nat) : value := nth i row VUndefined.

(** ** Calendar *)

Definition msPerDay : Z := 86400000.

(** Year, month (0..11) and day of month (1..31) of a day number counted
    from 1970-01-01, in the proleptic Gregorian calendar. *)
Definition civilFromDays (days : Z) : Z * Z * Z :=
  let z := days + 719468 in
  let era := z / 146097 in
  let doe := z - era * 146097 in
  let yoe := (doe - doe / 1460 + doe / 36524 - doe / 146096) / 365 in
  let doy := doe - (365 * yoe + yoe / 4 - yoe / 100) in
  let mp := (5 * doy + 2) / 153 in
  let d := doy - (153 * mp + 2) / 5 + 1 in
  let m := if mp <? 10 then mp + 3 else mp - 9 in
  let y := yoe + era * 400 + (if m <=? 2 then 1 else 0) in
  (y, m - 1, d).

Definition weekDay (days : Z) : Z := (days + 4) mod 7.

Definition dayName (w : Z) : string :=
  nth (Z.to_nat w) ["Sun"; "Mon"; "Tue"; "Wed"; "Thu"; "Fri"; "Sat"] "".

Definition monthName (m : Z) : string :=
  nth (Z.to_nat m)
    ["Jan"; "Feb"; "Mar"; "Apr"; "May"; "Jun"; "Jul"; "Aug"; "Sep"; "Oct"; "Nov"; "Dec"] "".

Fixpoint padStart (n : nat) (s : string) : string :=
  if (String.length s <? n)%nat then
    match n with
    | O => s
    | S n' => "0" ++ padStart n' s
    end
  else s.

(** The text of [toDateString] for a local day number, as in
    "Sun Jan 05 2025". *)
Definition dayString (days : Z) : string :=
  let '(y, m, d) := civilFromDays days in
  dayName (weekDay days) ++ " " ++ monthName m ++ " " ++ padStart 2 (decimalString d) ++ " "
  ++ (if y <? 0 then "-" else "") ++ padStart 4 (decimalString (Z.abs y)).

(** ** Substrings *)

Fixpoint startsWith (p s : string) : bool :=
  match p, s with
  | EmptyString, _ => true
  | String a p', String b s' => Ascii.eqb a b && startsWith p' s'
  | String _ _, EmptyString => false
  end.

(** [s.includes(p)] *)
Fixpoint includes (s p : string) : bool :=
  startsWith p s ||
  match s with
  | EmptyString => false
  | String _ r => includes r p
  end.

(** [s.split('-')[0]] *)
Fixpoint beforeHyphen (s : string) : string :=
  match s with
  | EmptyString => EmptyString
  | String c r => if Ascii.eqb c "-" then EmptyString else String c (beforeHyphen r)
  end.

(** Truncation of a rational toward zero. *)
Definition truncQ (q : Q) : Z := if Qle_bool 0 q then Qfloor q else Qceiling q.

(** [new Date(n)] for a number: the time value, or [None] for an invalid
    date (not finite, or beyond 8.64e15 ms from the epoch). *)
Definition timeClip (n : number) : option Z :=
  match n with
  | Fin q => if Qle_bool (Qabs q) (inject_Z 8640000000000000) then Some (truncQ q) else None
  | _ => None
  end.


(** ** Conversion to a number *)

Fixpoint dropDigits (s : string) : string :=
  match s with
  | EmptyString => EmptyString
  | String c r => if isDigit c then dropDigits r else s
  end.

Definition pow10 (e : Z) : Q :=
  if 0 <=? e then inject_Z (10 ^ e) else / inject_Z (10 ^ (- e)).

(** The digit a character stands for in a literal of the given radix. *)
Definition radixDigit (radix : Z) (c : ascii) : option Z :=
  let n := Z.of_N (code c) in
  let d :=
    if (48 <=? n) && (n <=? 57) then n - 48
    else if (97 <=? n) && (n <=? 102) then n - 87
    else if (65 <=? n) && (n <=? 70) then n - 55
    else 99 in
  if d <? radix then Some d else None.

Fixpoint radixValue (radix acc : Z) (s : string) : option Z :=
  match s with
  | EmptyString => Some acc
  | String c r =>
      match radixDigit radix c with
      | Some d => radixValue radix (radix * acc + d) r
      | None => None
      end
  end.

(** NonDecimalIntegerLiteral: [0x], [0o] or [0b] and at least one digit. *)
Definition nonDecimalLiteral (s : string) : option Z :=
  match s with
  | String "0" (String p (String c r)) =>
      let digits := String c r in
      if Ascii.eqb p "x" || Ascii.eqb p "X" then radixValue 16 0 digits
      else if Ascii.eqb p "o" || Ascii.eqb p "O" then radixValue 8 0 digits
      else if Ascii.eqb p "b" || Ascii.eqb p "B" then radixValue 2 0 digits
      else None
  | _ => None
  end.

(** ExponentPart, or nothing: the exponent, [None] when the text is neither. *)
Definition exponentPart (s : string) : option Z :=
  match s with
  | EmptyString => Some 0
  | String e r =>
      if Ascii.eqb e "e" || Ascii.eqb e "E" then
        let '(sign, ds) :=
          match r with
          | String "-" r' => (-1, r')
          | String "+" r' => (1, r')
          | _ => (1, r)
          end in
        if matchesDigits ds then Some (sign * digitsValue 0 ds) else None
      else None
  end.

(** StrUnsignedDecimalLiteral other than [Infinity]. *)
Definition unsignedDecimal (s : string) : option Q :=
  let intPart := takeDigits s in
  let rest := dropDigits s in
  let '(fracPart, rest) :=
    match rest with
    | String "." r => (takeDigits r, dropDigits r)
    | _ => (EmptyString, rest)
    end in
  if decide (intPart = "" /\ fracPart = "") then None
  else
    match exponentPart rest with
    | Some e =>
        Some ((inject_Z (digitsValue 0 intPart)
               + inject_Z (digitsValue 0 fracPart) * pow10 (- Z.of_nat (String.length fracPart)))
              * pow10 e)%Q
    | None => None
    end.

Definition strDecimalLiteral (s : string) : number :=
  let '(negative, body) :=
    match s with
    | String "-" r => (true, r)
    | String "+" r => (false, r)
    | _ => (false, s)
    end in
  if decide (body = "Infinity") then (if negative then NegInf else PosInf)
  else
    match unsignedDecimal body with
    | Some q => Fin (if negative then - q else q)%Q
    | None => NaN
    end.

(** StringToNumber: white space is trimmed, the empty text is 0, and text
    that is not a numeric literal is NaN. *)
Definition stringToNumber (s : string) : number :=
  let t := trim s in
  if decide (t = "") then Fin 0
  else
    match nonDecimalLiteral t with
    | Some z => Fin (inject_Z z)
    | None => strDecimalLiteral t
    end.

(** [Number(v)] *)
Definition toNumber (v : value) : number :=
  match v with
  | VUndefined => NaN
  | VNull => Fin 0
  | VBool true => Fin 1
  | VBool false => Fin 0
  | VNum n => n
  | VStr s => stringToNumber s
  | VDate (Some t) => Fin (inject_Z t)
  | VDate None => NaN
  end.

(** [a + b] on numbers *)
Definition addNumber (a b : number) : number :=
  match a, b with
  | NaN, _ | _, NaN => NaN
  | PosInf, NegInf | NegInf, PosInf => NaN
  | PosInf, _ | _, PosInf => PosInf
  | NegInf, _ | _, NegInf => NegInf
  | Fin x, Fin y => Fin (x + y)
  end.

(** [a >= k] for an integer constant [k] *)
Definition geNumber (a : number) (k : Z) : bool :=
  match a with
  | Fin x => Qle_bool (inject_Z k) x
  | PosInf => true
  | NegInf | NaN => false
  end.


(** ** Notions used in the statements *)

(** A text has a part that is [pattern] up to letter case ([pattern] is in
    lower case). *)
Definition containsIgnoringCase (s pattern : string) : Prop :=
  exists pre mid post, s = pre ++ mid ++ post /\ toLowerCase mid = pattern.

Definition startsWithSpace (s : string) : bool :=
  match s with
  | EmptyString => false
  | String c _ => isWhiteSpace c
  end.

Fixpoint endsWithSpace (s : string) : bool :=
  match s with
  | EmptyString => false
  | String c EmptyString => isWhiteSpace c
  | String _ r => endsWithSpace r
  end.

(** A cell that is blank or holds text that is not a numeral. *)
Definition blankOrNonNumericText (v : value) : bool :=
  match v with
  | VStr s => bool_decide (s = "") || isNaN (stringToNumber s)
  | _ => false
  end.

(** The count a cell stands for, 0 when it is not numeric. *)
Definition countOf (v : value) : number :=
  if isNaN (toNumber v) then Fin 0 else toNumber v.

(** A host for evaluating examples: fractions print as "?", dates print as
    their time value, only one date text is understood, local time is UTC. *)
Definition sampleFractionToString (q : Q) : string := "?".
Definition sampleDateToString (t : Z) : string := decimalString t.
Definition sampleDateParse (s : string) : option Z :=
  if decide (s = "2025-01-05") then Some 1736035200000 else None.
Definition sampleLocalTZA (t : Z) : Z := 0.

Section Host.

(** [Number.prototype.toString] on a finite number that is not an integer
    below 10^21, [Date.prototype.toString] on a valid date, [Date.parse]
    ([None] is NaN) and the offset of local time from UTC in milliseconds at
    a given time value. *)
Variable fractionToString : Q -> string.
Variable dateToString : Z -> string.
Variable dateParse : string -> option Z.
Variable localTZA : Z -> Z.

Definition numberToString (n : number) : string :=
  match n with
  | NaN => "NaN"
  | PosInf => "Infinity"
  | NegInf => "-Infinity"
  | Fin q =>
      if isIntegerQ q && Qle_bool (Qabs q) (inject_Z (10 ^ 21 - 1))
      then decimalString (Qfloor q)
      else fractionToString q
  end.

(** [String(v)] *)
Definition toString (v : value) : string :=
  match v with
  | VUndefined => "undefined"
  | VNull => "null"
  | VBool true => "true"
  | VBool false => "false"
  | VNum n => numberToString n
  | VStr s => s
  | VDate (Some t) => dateToString t
  | VDate None => "Invalid Date"
  end.

(** ** MatchAssignUniqueCodes.js: matchOrAssignBelCodes *)

(** [name => name?.toString().trim().toLowerCase()]; [None] is
    [undefined]. *)
Definition normalize (name : value) : option string :=
  match name with
  | VUndefined | VNull => None
  | _ => Some (toLowerCase (trim (toString name)))
  end.

(** The test [if (name)] on a result of [normalize]: [undefined] and the
    empty string are falsy; a truthy name is the key it is used as. *)
Definition truthy (name : option string) : option string :=
  match name with
  | Some k => if decide (k = "") then None else Some k
  | None => None
  end.

Record SheetsData : Type := {
  sData : list (list value);
  eData : list (list value);
  dData : list (list value)
}.

(** The local variables of a run: [belMap], [allUsedCodes], [codeCounter],
    [results], and the ids the generator handed out, oldest first, each with
    the name it was generated for and the used-id set it was checked
    against (the "Generated new NUMERIC ID" log lines). *)
Record Run : Type := {
  belMap : gmap string Z;
  allUsedCodes : gset Z;
  codeCounter : Z;
  results : list (list value);
  generated : list (string * Z * gset Z)
}.

Definition genName (e : string * Z * gset Z) : string := fst (fst e).
Definition genId (e : string * Z * gset Z) : Z := snd (fst e).
Definition genUsed (e : string * Z * gset Z) : gset Z := snd e.

Definition mapIfAbsent (name : string) (id : Z) (m : gmap string Z) : gmap string Z :=
  match m !! name with
  | Some _ => m
  | None => <[name := id]> m
  end.

(** Step 1, the body of [dData.slice(1).forEach]. *)
Definition directoryRow (st : gmap string Z * gset Z) (row : list value)
  : gmap string Z * gset Z :=
  let '(belMap, allUsedCodes) := st in
  if (2 <? length row)%nat then
    let originalBel := cell row 1 in
    let name := normalize (cell row 2) in
    let numericBel := extractNumericBel originalBel in
    match truthy name with
    | Some name =>
        match numericBel with
        | Some numericBel => (mapIfAbsent name numericBel belMap, {[numericBel]} ∪ allUsedCodes)
        | None => st
        end
    | None => st
    end
  else st.

(** Step 2, the body of [attendanceDataRaw.forEach]. *)
Definition attendanceIdRow (st : gmap string Z * gset Z) (row : list value)
  : gmap string Z * gset Z :=
  let '(belMap, allUsedCodes) := st in
  if (1 <? length row)%nat then
    let originalBelFromRow := cell row 0 in
    let name := normalize (cell row 1) in
    match extractNumericBel originalBelFromRow with
    | Some numericBelFromRow =>
        (match truthy name with
         | Some name => mapIfAbsent name numericBelFromRow belMap
         | None => belMap
         end,
         {[numericBelFromRow]} ∪ allUsedCodes)
    | None => st
    end
  else st.

(** [if (xData && xData.length > 1) ... xData.slice(1)] *)
Definition dataRows (sheet : list (list value)) : list (list value) :=
  if (1 <? length sheet)%nat then tail sheet else [].

Definition attendanceDataRaw (data : SheetsData) : list (list value) :=
  dataRows (eData data) ++ dataRows (sData data).

(** Steps 1 and 2. *)
Definition collectIds (data : SheetsData) : gmap string Z * gset Z :=
  fold_left attendanceIdRow (attendanceDataRaw data)
    (fold_left directoryRow (dataRows (dData data)) (∅, ∅)).

(** Step 3, [allUsedCodes.forEach(code => ...)] from [highestFoundNum = 0]. *)
Definition highestFoundNum (allUsedCodes : gset Z) : Z :=
  set_fold (fun code highest => if highest <? code then code else highest) 0 allUsedCodes.

(** Step 4, the [while (true)] loop of [generateBEL], unrolled [fuel] times;
    it returns the new id with the updated set and counter. *)
Fixpoint generateBEL_loop (fuel : nat) (highest : Z) (allUsedCodes : gset Z) (codeCounter : Z)
  : Result (Z * gset Z * Z) :=
  match fuel with
  | O => OutOfFuel
  | S fuel =>
      let currentNumericCode := codeCounter in
      if decide (currentNumericCode ∈ allUsedCodes) then
        let codeCounter := codeCounter + 1 in
        if highest + 20000 <? codeCounter
        then Thrown "ID code counter exceeded a safe threshold, potential infinite loop or too many users without pre-existing IDs."
        else generateBEL_loop fuel highest allUsedCodes codeCounter
      else Ok (currentNumericCode, {[currentNumericCode]} ∪ allUsedCodes, codeCounter + 1)
  end.

(** Each pass either returns, throws, or moves the counter one step closer
    to [highest + 20000], so this many passes always suffice. *)
Definition generateBEL_fuel (highest codeCounter : Z) : nat :=
  S (Z.to_nat (highest + 20000 - codeCounter)).

Definition generateBEL (highest : Z) (allUsedCodes : gset Z) (codeCounter : Z)
  : Result (Z * gset Z * Z) :=
  generateBEL_loop (generateBEL_fuel highest codeCounter) highest allUsedCodes codeCounter.

Definition idValue (id : Z) : value := VNum (Fin (inject_Z id)).

(** The reshaping of a source row into the 11 columns of "Event
    Attendance"; [None] when the row has neither shape. *)
Definition formatRow (numericBel : Z) (row : list value) : option (list value) :=
  if (11 <=? length row)%nat && negb (isUndefined (cell row 10)) then
    Some [idValue numericBel; cell row 1; cell row 2; cell row 3; cell row 4; cell row 5;
          cell row 6; cell row 7; cell row 8; cell row 9; cell row 10]
  else if (8 <=? length row)%nat && negb (isUndefined (cell row 4)) then
    Some [idValue numericBel; cell row 1; VStr "Sunday Service"; VStr "Service";
          cell row 2; cell row 3; cell row 6; VStr ""; VStr ""; VStr ""; cell row 4]
  else None.

Definition pushResult (st : Run) (numericBel : Z) (row : list value) : Run :=
  match formatRow numericBel row with
  | Some formattedRow =>
      {| belMap := belMap st; allUsedCodes := allUsedCodes st; codeCounter := codeCounter st;
         results := results st ++ [formattedRow]; generated := generated st |}
  | None => st
  end.

(** Step 5, the body of the second [attendanceDataRaw.forEach]. *)
Definition assignRow (highest : Z) (st : Run) (row : list value) : Result Run :=
  if (length row <? 2)%nat then Ok st
  else
    match truthy (normalize (cell row 1)) with
    | None => Ok st
    | Some name =>
        match belMap st !! name with
        | Some numericBel => Ok (pushResult st numericBel row)
        | None =>
            match generateBEL highest (allUsedCodes st) (codeCounter st) with
            | Ok (numericBel, used, counter) =>
                Ok (pushResult
                      {| belMap := <[name := numericBel]> (belMap st);
                         allUsedCodes := used;
                         codeCounter := counter;
                         results := results st;
                         generated := generated st ++ [(name, numericBel, allUsedCodes st)] |}
                      numericBel row)
            | Thrown msg => Thrown msg
            | OutOfFuel => OutOfFuel
            end
        end
    end.

Fixpoint assignRows (highest : Z) (st : Run) (rows : list (list value)) : Result Run :=
  match rows with
  | [] => Ok st
  | row :: rows => bindR (assignRow highest st row) (fun st => assignRows highest st rows)
  end.

Definition initialRun (data : SheetsData) : Run :=
  let '(belMap, allUsedCodes) := collectIds data in
  {| belMap := belMap; allUsedCodes := allUsedCodes;
     codeCounter := highestFoundNum allUsedCodes + 1;
     results := []; generated := [] |}.

(** The whole run on loaded sheets, with its final local state. *)
Definition runAssignment (data : SheetsData) : Result Run :=
  let st := initialRun data in
  assignRows (highestFoundNum (allUsedCodes st)) st (attendanceDataRaw data).

(** [matchOrAssignBelCodes], given what [getDataFromSheets] returned
    ([None] when it returned nothing). *)
Definition matchOrAssignBelCodes (data : option SheetsData) : Result (list (list value)) :=
  match data with
  | None => Ok []
  | Some data => bindR (runAssignment data) (fun st => Ok (results st))
  end.

(** ** CalculateAttndnc.1.js: calculateAttendanceStats *)

Definition localDay (t : Z) : Z := (t + localTZA t) / msPerDay.

(** [getFullYear], [getMonth] and [toDateString] of a valid date. *)
Definition getFullYear (t : Z) : Z := fst (fst (civilFromDays (localDay t))).
Definition getMonth (t : Z) : Z := snd (fst (civilFromDays (localDay t))).
Definition toDateString (t : Z) : string := dayString (localDay t).

(** The [date] parsed from column K; [None] is a date whose [getTime()] is
    NaN. *)
Definition parseTimestamp (dateStr : value) : option Z :=
  match dateStr with
  | VDate t => t
  | VNum (Fin q) => timeClip (Fin ((q - inject_Z (25567 + 2)) * inject_Z 86400 * inject_Z 1000))
  | VNum _ => None
  | _ => dateParse (toString dateStr)
  end.

(** [/sunday service/i.test(eventName)] on a string. *)
Definition testSundayService (eventName : string) : bool :=
  includes (toLowerCase eventName) "sunday service".

Record AttendanceRecord : Type := {
  rec_name : value;
  rec_date : Z;
  rec_eventKey : string;
  rec_month : Z;
  rec_quarter : Z;
  rec_year : Z;
  rec_isVolunteer : bool;
  rec_isSundayService : bool
}.

Definition eventKeyOf (eventName eventId : value) (date : Z) : string :=
  let isSundayService :=
    match eventName with VStr s => testSundayService s | _ => false end in
  let eventNameKey := match eventName with VStr s => s | _ => "UnknownEvent" end in
  let eventIdKey := match eventId with VStr s => s | _ => "UnknownID" end in
  if isSundayService then "sunday service-" ++ toDateString date
  else eventNameKey ++ "-" ++ eventIdKey.

(** The first part of the body of [rawData.forEach]: the group key and the
    record of a row, or [None] for a row that is skipped. *)
Definition recordOfRow (row : list value) : option (string * AttendanceRecord) :=
  if (length row <? 11)%nat then None
  else
    let bel := cell row 0 in
    let name := cell row 1 in
    let eventName := cell row 2 in
    let eventId := cell row 3 in
    let role := cell row 9 in
    let dateStr := cell row 10 in
    match parseTimestamp dateStr with
    | None => None
    | Some date =>
        let isSundayService :=
          match eventName with VStr s => testSundayService s | _ => false end in
        let isVolunteer :=
          match role with VStr s => includes (toLowerCase s) "volunteer" | _ => false end in
        Some (toString bel,
              {| rec_name := name;
                 rec_date := date;
                 rec_eventKey := eventKeyOf eventName eventId date;
                 rec_month := getMonth date;
                 rec_quarter := getMonth date / 3;
                 rec_year := getFullYear date;
                 rec_isVolunteer := isVolunteer;
                 rec_isSundayService := isSundayService |})
    end.

(** [grouped.get(belString).push(record)], after [grouped.set(belString, [])]
    when the key is new; the list keeps the insertion order of the keys. *)
Fixpoint pushRecord (belString : string) (record : AttendanceRecord)
    (grouped : list (string * list AttendanceRecord)) : list (string * list AttendanceRecord) :=
  match grouped with
  | [] => [(belString, [record])]
  | (k, records) :: rest =>
      if decide (k = belString) then (k, (records ++ [record])%list) :: rest
      else (k, records) :: pushRecord belString record rest
  end.

Definition groupRow (grouped : list (string * list AttendanceRecord)) (row : list value)
  : list (string * list AttendanceRecord) :=
  match recordOfRow row with
  | Some (belString, record) => pushRecord belString record grouped
  | None => grouped
  end.

Definition groupRows (rawData : list (list value)) : list (string * list AttendanceRecord) :=
  fold_left groupRow rawData [].

(** The sets and the counter filled by [records.forEach]. *)
Record Tally : Type := {
  uniqueEvents : gset string;
  monthEvents : gset string;
  quarterEvents : gset string;
  volunteerCount : Z
}.

Definition tallyRecord (currentYear currentMonth currentQuarter : Z) (acc : Tally)
    (r : AttendanceRecord) : Tally :=
  {| uniqueEvents := {[rec_eventKey r]} ∪ uniqueEvents acc;
     monthEvents :=
       if (rec_year r =? currentYear) && (rec_month r =? currentMonth)
       then {[rec_eventKey r]} ∪ monthEvents acc else monthEvents acc;
     quarterEvents :=
       if (rec_year r =? currentYear) && (rec_quarter r =? currentQuarter)
       then {[rec_eventKey r]} ∪ quarterEvents acc else quarterEvents acc;
     volunteerCount :=
       if rec_isVolunteer r && (rec_year r =? currentYear)
       then volunteerCount acc + 1 else volunteerCount acc |}.

Definition tally (currentYear currentMonth currentQuarter : Z) (records : list AttendanceRecord)
  : Tally :=
  fold_left (tallyRecord currentYear currentMonth currentQuarter) records
    {| uniqueEvents := ∅; monthEvents := ∅; quarterEvents := ∅; volunteerCount := 0 |}.

(** [records.sort((a, b) => b.date.getTime() - a.date.getTime())]: a stable
    sort, latest date first. *)
Fixpoint insertByDate (r : AttendanceRecord) (sorted : list AttendanceRecord)
  : list AttendanceRecord :=
  match sorted with
  | [] => [r]
  | x :: rest =>
      if rec_date x <=? rec_date r then r :: sorted else x :: insertByDate r rest
  end.

Definition sortByDateDesc (records : list AttendanceRecord) : list AttendanceRecord :=
  fold_right insertByDate [] records.

(** One row of [summary]; columns C and D are the two empty strings. *)
Record Summary : Type := {
  sum_bel : string;
  sum_fullName : value;
  sum_quarterEvents : nat;
  sum_monthEvents : nat;
  sum_volunteerCount : Z;
  sum_lastDate : value;
  sum_lastEventName : string;
  sum_totalUniqueEvents : nat
}.

Definition summaryArray (s : Summary) : list value :=
  [VStr (sum_bel s); sum_fullName s; VStr ""; VStr "";
   idValue (Z.of_nat (sum_quarterEvents s)); idValue (Z.of_nat (sum_monthEvents s));
   idValue (sum_volunteerCount s); sum_lastDate s; VStr (sum_lastEventName s);
   idValue (Z.of_nat (sum_totalUniqueEvents s))].

(** The body of [grouped.forEach]. *)
Definition summarize (currentYear currentMonth currentQuarter : Z)
    (group : string * list AttendanceRecord) : Summary :=
  let '(bel, records) := group in
  let t := tally currentYear currentMonth currentQuarter records in
  let records := sortByDateDesc records in
  let mostRecentRecord := head records in
  {| sum_bel := bel;
     sum_fullName := match mostRecentRecord with Some r => rec_name r | None => VStr "" end;
     sum_quarterEvents := size (quarterEvents t);
     sum_monthEvents := size (monthEvents t);
     sum_volunteerCount := volunteerCount t;
     sum_lastDate :=
       match mostRecentRecord with Some r => VDate (Some (rec_date r)) | None => VStr "" end;
     sum_lastEventName :=
       match mostRecentRecord with Some r => beforeHyphen (rec_eventKey r) | None => "" end;
     sum_totalUniqueEvents := size (uniqueEvents t) |}.

(** The aggregation of formatted rows at the time value [now]. *)
Definition aggregate (now : Z) (rawData : list (list value)) : list Summary :=
  let currentMonth := getMonth now in
  let currentQuarter := currentMonth / 3 in
  let currentYear := getFullYear now in
  map (summarize currentYear currentMonth currentQuarter) (groupRows rawData).

(** [calculateAttendanceStats], with the value of [new Date()] and what
    [getDataFromSheets] returned as inputs. *)
Definition calculateAttendanceStats (now : Z) (data : option SheetsData) : Result (list Summary) :=
  bindR (matchOrAssignBelCodes data) (fun rawData =>
    match rawData with
    | [] => Ok []
    | _ => Ok (aggregate now rawData)
    end).

(** ** ActivityLevel.js: updateActivityLevels *)

(** [raw === "" || (raw.toString().trim() !== "" && isNaN(num))]; reading
    [toString] of [undefined] or [null] throws. *)
Definition effectivelyBlankOrInvalid (raw : value) (num : number) : Result bool :=
  match raw with
  | VStr "" => Ok true
  | VUndefined | VNull => Thrown "TypeError"
  | _ => Ok (negb (bool_decide (trim (toString raw) = "")) && isNaN num)
  end.

(** The body of the loop over the rows: the label written to column L. *)
Definition activityLevel (rawValueE rawValueK : value) : Result string :=
  let numE := toNumber rawValueE in
  let numK := toNumber rawValueK in
  let valEForSum := if isNaN numE then Fin 0 else numE in
  let valKForSum := if isNaN numK then Fin 0 else numK in
  let combinedCount := addNumber valEForSum valKForSum in
  bindR (effectivelyBlankOrInvalid rawValueE numE) (fun eIsEffectivelyBlankOrInvalid =>
  bindR (effectivelyBlankOrInvalid rawValueK numK) (fun kIsEffectivelyBlankOrInvalid =>
    if eIsEffectivelyBlankOrInvalid && kIsEffectivelyBlankOrInvalid then Ok ""
    else if geNumber combinedCount 12 then Ok "Core"
    else if geNumber combinedCount 3 then Ok "Active"
    else Ok "Inactive")).

(** The loop over [valuesE], reading the same row of [valuesK]; the result
    is [activityLevelsOutput]. *)
Fixpoint activityLevels (valuesE valuesK : list (list value)) : Result (list (list value)) :=
  match valuesE with
  | [] => Ok []
  | rowE :: valuesE =>
      match valuesK with
      | [] => Thrown "TypeError"
      | rowK :: valuesK =>
          bindR (activityLevel (cell rowE 0) (cell rowK 0)) (fun currentActivityLevel =>
          bindR (activityLevels valuesE valuesK) (fun rest =>
            Ok ([VStr currentActivityLevel] :: rest)))
      end
  end.


(** ** Reading the aggregation

    The records of the rows that survive for a group key, in input order;
    the group and the summary found under a key. *)
Definition survives (row : list value) : bool :=
  match recordOfRow row with Some _ => true | None => false end.

Definition validTimestamp (row : list value) : bool :=
  match parseTimestamp (cell row 10) with Some _ => true | None => false end.

Fixpoint recordsFor (belString : string) (rawData : list (list value)) : list AttendanceRecord :=
  match rawData with
  | [] => []
  | row :: rawData =>
      match recordOfRow row with
      | Some (k, record) =>
          if decide (k = belString) then record :: recordsFor belString rawData
          else recordsFor belString rawData
      | None => recordsFor belString rawData
      end
  end.

Fixpoint lookupGroup (belString : string) (grouped : list (string * list AttendanceRecord))
  : option (list AttendanceRecord) :=
  match grouped with
  | [] => None
  | (k, records) :: rest =>
      if decide (k = belString) then Some records else lookupGroup belString rest
  end.

Fixpoint summaryFor (belString : string) (summary : list Summary) : option Summary :=
  match summary with
  | [] => None
  | s :: rest => if decide (sum_bel s = belString) then Some s else summaryFor belString rest
  end.

(** The latest date among records, [None] when there is none. *)
Fixpoint latestDate (records : list AttendanceRecord) : option Z :=
  match records with
  | [] => None
  | r :: rest =>
      match latestDate rest with
      | Some t => Some (Z.max (rec_date r) t)
      | None => Some (rec_date r)
      end
  end.

(** ** Observations

    The design document's reading of steps 1 and 2: each source supplies
    observations, pairs of a match key and a raw id, and the sources are read
    in precedence order.  A row supplies an observation when it has the name
    column and its normalised name is not empty. *)
Definition directoryObservation (row : list value) : option (string * value) :=
  if (2 <? length row)%nat then
    match truthy (normalize (cell row 2)) with
    | Some matchKey => Some (matchKey, cell row 1)
    | None => None
    end
  else None.

Definition attendanceObservation (row : list value) : option (string * value) :=
  if (1 <? length row)%nat then
    match truthy (normalize (cell row 1)) with
    | Some matchKey => Some (matchKey, cell row 0)
    | None => None
    end
  else None.

Definition directoryObservations (data : SheetsData) : list (string * value) :=
  omap directoryObservation (dataRows (dData data)).
Definition eventObservations (data : SheetsData) : list (string * value) :=
  omap attendanceObservation (dataRows (eData data)).
Definition serviceObservations (data : SheetsData) : list (string * value) :=
  omap attendanceObservation (dataRows (sData data)).

Definition observations (data : SheetsData) : list (string * value) :=
  (directoryObservations data ++ eventObservations data ++ serviceObservations data)%list.

(** The id of the earliest observation of a match key whose raw id is
    numeric. *)
Fixpoint firstId (matchKey : string) (obs : list (string * value)) : option Z :=
  match obs with
  | [] => None
  | (k, rawIdValue) :: obs =>
      if decide (k = matchKey) then
        match extractNumericBel rawIdValue with
        | Some id => Some id
        | None => firstId matchKey obs
        end
      else firstId matchKey obs
  end.

(** ** Invariant of the assignment loop

    [highest], [U0] and [M0] are [highestFoundNum], [allUsedCodes] and
    [belMap] as steps 1 to 3 leave them. *)
Record RunInv (highest : Z) (U0 : gset Z) (M0 : gmap string Z) (st : Run) : Prop := {
  inv_counter :
    codeCounter st = highest + 1 + Z.of_nat (length (generated st));
  inv_used :
    allUsedCodes st = list_to_set (seqZ (highest + 1) (Z.of_nat (length (generated st)))) ∪ U0;
  inv_generated : forall (i : nat) e,
    generated st !! i = Some e ->
    genId e = highest + 1 + Z.of_nat i
    /\ genUsed e = list_to_set (seqZ (highest + 1) (Z.of_nat i)) ∪ U0;
  inv_map : forall k g,
    belMap st !! k = Some g ->
    M0 !! k = Some g \/ (M0 !! k = None /\ exists U, (k, g, U) ∈ generated st);
  inv_map_generated : forall e,
    e ∈ generated st -> belMap st !! genName e = Some (genId e);
  inv_map_kept : forall k g, M0 !! k = Some g -> belMap st !! k = Some g;
  inv_generated_new : forall e, e ∈ generated st -> M0 !! genName e = None
}.

(** ** Readings used in the further properties *)

(** The value of a decimal numeral of the Standard Library, read after
    [acc]. *)
Fixpoint uintValue (acc : Z) (d : Decimal.uint) : Z :=
  match d with
  | Decimal.Nil => acc
  | Decimal.D0 d => uintValue (10 * acc) d
  | Decimal.D1 d => uintValue (10 * acc + 1) d
  | Decimal.D2 d => uintValue (10 * acc + 2) d
  | Decimal.D3 d => uintValue (10 * acc + 3) d
  | Decimal.D4 d => uintValue (10 * acc + 4) d
  | Decimal.D5 d => uintValue (10 * acc + 5) d
  | Decimal.D6 d => uintValue (10 * acc + 6) d
  | Decimal.D7 d => uintValue (10 * acc + 7) d
  | Decimal.D8 d => uintValue (10 * acc + 8) d
  | Decimal.D9 d => uintValue (10 * acc + 9) d
  end.

(** The formatted row of a source row under a map from names to ids: none
    for a row without a name, with an unmapped name or of unknown shape. *)
Definition formattedWith (m : gmap string Z) (row : list value) : option (list value) :=
  if (length row <? 2)%nat then None
  else
    match truthy (normalize (cell row 1)) with
    | Some name =>
        match m !! name with
        | Some numericBel => formatRow numericBel row
        | None => None
        end
    | None => None
    end.

(** The match key of an attendance row that step 5 processes. *)
Definition rowKey (row : list value) : option string :=
  if (length row <? 2)%nat then None else truthy (normalize (cell row 1)).

(** The records of the current month, of the current quarter, and those of
    the current year that volunteered. *)
Definition inMonth (currentYear currentMonth : Z) (r : AttendanceRecord) : bool :=
  (rec_year r =? currentYear) && (rec_month r =? currentMonth).
Definition inQuarter (currentYear currentQuarter : Z) (r : AttendanceRecord) : bool :=
  (rec_year r =? currentYear) && (rec_quarter r =? currentQuarter).
Definition volunteeredIn (currentYear : Z) (r : AttendanceRecord) : bool :=
  rec_isVolunteer r && (rec_year r =? currentYear).

(** The keys of a list in the order of their first occurrence. *)
Definition firstKeys (keys : list string) : list string :=
  fold_left (fun seen k => if decide (k ∈ seen) then seen else seen ++ [k])%list keys [].

(** The group key of a formatted row that survives. *)
Definition groupKey (row : list value) : option string := fst <$> recordOfRow row.

Definition noHyphen (s : string) : bool := allChars (fun c => negb (Ascii.eqb c "-")) s.

(** ** UpdateAttndce.js: updateAttendanceStatsSheet *)

(** The test [v ? _ : _] on a value. *)
Definition toBoolean (v : value) : bool :=
  match v with
  | VUndefined | VNull => false
  | VBool b => b
  | VNum (Fin q) => negb (Qeq_bool q 0)
  | VNum NaN => false
  | VNum _ => true
  | VStr s => negb (bool_decide (s = ""))
  | VDate _ => true
  end.

(** [s.split(/\s+/)]: the pieces between the maximal runs of white space,
    an empty piece before a leading and after a trailing run.  The result
    of [splitSpaces] is the piece that is being read and the pieces after
    it; [inRun] tells that the position is inside a run of white space. *)
Fixpoint splitSpaces (inRun : bool) (s : string) : string * list string :=
  match s with
  | EmptyString => ("", [])
  | String c s' =>
      if isWhiteSpace c then
        if inRun then splitSpaces true s'
        else ("", let '(piece, pieces) := splitSpaces true s' in piece :: pieces)
      else
        let '(piece, pieces) := splitSpaces false s' in (String c piece, pieces)
  end.

Definition split (s : string) : list string :=
  let '(piece, pieces) := splitSpaces false s in piece :: pieces.

(** [parts.join(sep)] *)
Fixpoint join (sep : string) (parts : list string) : string :=
  match parts with
  | [] => ""
  | part :: parts =>
      match parts with
      | [] => part
      | _ => part ++ sep ++ join sep parts
      end
  end.

Definition namePartsOf (fullName : value) : list string :=
  if toBoolean fullName then split (trim (toString fullName)) else [].

Definition firstNameOf (nameParts : list string) : string :=
  match nameParts with
  | part :: _ => part
  | [] => ""
  end.

Definition lastNameOf (nameParts : list string) : string :=
  if (1 <? length nameParts)%nat then join " " (drop 1 nameParts) else "".

Section StatsSheet.

(** [Utilities.formatDate(date, Session.getScriptTimeZone(), "MM/dd/yyyy")]
    of a valid date, given by its time value. *)
Variable formatDate : Z -> string.

Definition formattedDateOf (lastDate : value) : string :=
  match lastDate with
  | VDate (Some t) => formatDate t
  | _ => if toBoolean lastDate then toString lastDate else ""
  end.

(** The function mapped over [finalData]. *)
Definition outputRow (row : list value) : list value :=
  let bel := cell row 0 in
  let fullName := cell row 1 in
  let quarter := cell row 4 in
  let month := cell row 5 in
  let volunteer := cell row 6 in
  let lastDate := cell row 7 in
  let lastEvent := cell row 8 in
  let total := cell row 9 in
  let nameParts := namePartsOf fullName in
  [bel; fullName; VStr (firstNameOf nameParts); VStr (lastNameOf nameParts); quarter; month;
   volunteer; VStr (formattedDateOf lastDate); lastEvent; total].

(** [updateAttendanceStatsSheet], with the value of [new Date()], what
    [getDataFromSheets] returned and whether the "Attendance Stats" sheet
    exists as inputs; the result is the block of rows written from row 2,
    column 1 on, or [None] when nothing is written. *)
Definition updateAttendanceStatsSheet (now : Z) (data : option SheetsData) (sheet : bool)
    : Result (option (list (list value))) :=
  bindR (calculateAttendanceStats now data) (fun finalData =>
    match finalData with
    | [] => Ok None
    | _ =>
        if sheet then Ok (Some (map (fun s => outputRow (summaryArray s)) finalData))
        else Ok None
    end).

End StatsSheet.

(** A word is a non-empty text without white space, a gap a non-empty text
    of white space only; [spaced] puts a gap before each word. *)
Definition wordText (w : string) : Prop :=
  w <> "" /\ allChars (fun c => negb (isWhiteSpace c)) w = true.

Definition gapText (g : string) : Prop :=
  g <> "" /\ allChars isWhiteSpace g = true.

Fixpoint spaced (rest : list (string * string)) : string :=
  match rest with
  | [] => ""
  | (gap, word) :: rest => gap ++ word ++ spaced rest
  end.

(** ** The Config menu: extractSpreadsheetId, extractSpreadsheetIdFromUrl,
    showDirectoryDialog *)

(** The class [[a-zA-Z0-9-_]]. *)
Definition isIdChar (c : ascii) : bool :=
  let n := code c in
  ((97 <=? n) && (n <=? 122) || (65 <=? n) && (n <=? 90) || (48 <=? n) && (n <=? 57)
   || (n =? 45) || (n =? 95))%N.

(** The rest of [s] after the text [p] it starts with. *)
Fixpoint stripPrefix (p s : string) : option string :=
  match p, s with
  | EmptyString, _ => Some s
  | String a p', String b s' => if Ascii.eqb a b then stripPrefix p' s' else None
  | String _ _, EmptyString => None
  end.

Fixpoint takeIdChars (s : string) : string :=
  match s with
  | EmptyString => EmptyString
  | String c r => if isIdChar c then String c (takeIdChars r) else EmptyString
  end.

(** The group of [literal([a-zA-Z0-9-_]+)] matched at the start of [s]. *)
Definition captureAfter (literal s : string) : option string :=
  match stripPrefix literal s with
  | Some rest =>
      let id := takeIdChars rest in
      if decide (id = "") then None else Some id
  | None => None
  end.

(** [s.match(/literal([a-zA-Z0-9-_]+)/)]: the group of the leftmost match,
    [None] for [null]. *)
Fixpoint matchIdAfter (literal s : string) : option string :=
  match captureAfter literal s with
  | Some id => Some id
  | None =>
      match s with
      | EmptyString => None
      | String _ r => matchIdAfter literal r
      end
  end.

(** [/^[a-zA-Z0-9-_]+$/.test(s)] *)
Definition isBareId (s : string) : bool :=
  negb (bool_decide (s = "")) && allChars isIdChar s.

(** [extractSpreadsheetId] of the Config menu that accepts a URL or an id. *)
Definition extractSpreadsheetId (input : string) : option string :=
  match matchIdAfter "/d/" input with
  | Some id => Some id
  | None => if isBareId input then Some input else None
  end.

(** [extractSpreadsheetIdFromUrl] of the registration script. *)
Definition extractSpreadsheetIdFromUrl (url : string) : option string :=
  matchIdAfter "/spreadsheets/d/" url.

(** What a dialog tells the user. *)
Inductive Alert : Type :=
| AlertInvalid
| AlertSet (id : string)
| AlertNoChange
| AlertNotSet.

(** [showDirectoryDialog] beside [extractSpreadsheetId]: the button, the
    text entered and the script property DIRECTORY_SPREADSHEET_ID before the
    call give the property after the call and the alert shown. *)
Definition showDirectoryDialog (ok : bool) (responseText : string) (property : option string)
    : option string * option Alert :=
  if negb ok then (property, None)
  else
    let input := trim responseText in
    match extractSpreadsheetId input with
    | None => (property, Some AlertInvalid)
    | Some id =>
        if decide (id = "") then (property, Some AlertInvalid)
        else (Some id, Some (AlertSet id))
    end.

(** [showDirectoryDialog] of the registration script; a property that is
    the empty text reads as not set. *)
Definition showDirectoryDialogUrl (ok : bool) (responseText : string)
    (property : option string) : option string * option Alert :=
  if negb ok then (property, None)
  else
    let currentId := match property with Some p => negb (bool_decide (p = "")) | None => false end in
    let urlOrId := trim responseText in
    let stored (finalId : string) :=
      if negb (bool_decide (finalId = "")) then (Some finalId, Some (AlertSet finalId))
      else if bool_decide (urlOrId = "") then
        (property, Some (if currentId then AlertNoChange else AlertNotSet))
      else (property, None) in
    if includes urlOrId "docs.google.com/spreadsheets/d/" then
      match extractSpreadsheetIdFromUrl urlOrId with
      | None => (property, Some AlertInvalid)
      | Some id => if decide (id = "") then (property, Some AlertInvalid) else stored id
      end
    else if negb (bool_decide (urlOrId = "")) then stored urlOrId
    else stored "".

(** [s.indexOf(p)], [None] for -1. *)
Fixpoint indexOf (p s : string) : option nat :=
  if startsWith p s then Some 0%nat
  else
    match s with
    | EmptyString => None
    | String _ r => S <$> indexOf p r
    end.

(** The text does not go on with a character of an id. *)
Definition stopsId (rest : string) : bool :=
  match rest with
  | EmptyString => true
  | String c _ => negb (isIdChar c)
  end.

(** ** The Sunday registration script *)

(** [String(v || "")] *)
Definition textOf (v : value) : string :=
  if toBoolean v then toString v else "".

Definition isHexDigit (c : ascii) : bool :=
  match radixDigit 16 c with Some _ => true | None => false end.

Fixpoint takeHexDigits (s : string) : string :=
  match s with
  | EmptyString => EmptyString
  | String c r => if isHexDigit c then String c (takeHexDigits r) else EmptyString
  end.

Fixpoint hexValue (acc : Z) (s : string) : Z :=
  match s with
  | EmptyString => acc
  | String c r =>
      hexValue (16 * acc + match radixDigit 16 c with Some d => d | None => 0 end) r
  end.

(** [parseInt(s)] without a radix: as [parseInt10], but hexadecimal when
    the text goes on with 0x or 0X after the sign; [None] is NaN. *)
Definition parseInt (s : string) : option Z :=
  let S := trimStart s in
  let '(sign, rest) :=
    match S with
    | String "-" r => (-1, r)
    | String "+" r => (1, r)
    | _ => (1, S)
    end in
  match rest with
  | String "0" (String x r) =>
      if Ascii.eqb x "x" || Ascii.eqb x "X" then
        match takeHexDigits r with
        | EmptyString => None
        | ds => Some (sign * hexValue 0 ds)
        end
      else
        match takeDigits rest with
        | EmptyString => None
        | ds => Some (sign * digitsValue 0 ds)
        end
  | _ =>
      match takeDigits rest with
      | EmptyString => None
      | ds => Some (sign * digitsValue 0 ds)
      end
  end.

(** The body of [ids.forEach] in the functions that look for the highest
    id: [const id = parseInt(row[0]); if (!isNaN(id) && id > highestId)]. *)
Definition higherId (highestId : Z) (row : list value) : Z :=
  match parseInt (toString (cell row 0)) with
  | Some id => if highestId <? id then id else highestId
  | None => highestId
  end.

Definition highestIdFrom (highestId : Z) (ids : list (list value)) : Z :=
  fold_left higherId ids highestId.

(** A sheet of the active spreadsheet: its rows up to [getLastRow()], and
    what [getDisplayValue()] gives for A1 and B1. *)
Record LocalSheet : Type := {
  sheetRows : list (list value);
  displayA1 : string;
  displayB1 : string
}.

(** [ss.getSheetByName] *)
Definition Workbook : Type := string -> option LocalSheet.

Definition LOCAL_ID_SHEETS : list string :=
  ["Sunday Service"; "Sunday Registration"; "Event Attendance"; "Service Attendance"].

Definition startDataRow (sheetName : string) (sheet : LocalSheet) : nat :=
  let lastRow := length (sheetRows sheet) in
  if bool_decide (sheetName = "Sunday Registration") && (6 <=? lastRow)%nat then 6%nat
  else if (bool_decide (sheetName = "Event Attendance")
           || bool_decide (sheetName = "Sunday Service"))
          && (2 <=? lastRow)%nat then
    let headerValue := toLowerCase (trim (displayA1 sheet)) in
    let headerValueColB := toLowerCase (trim (displayB1 sheet)) in
    if (bool_decide (headerValue = "person id") || bool_decide (headerValue = "id"))
       && (includes headerValueColB "full name" || includes headerValueColB "name")
    then 2%nat
    else 1%nat
  else 1%nat.

(** The data rows of a local sheet that are searched for ids. *)
Definition searchedRows (sheetName : string) (sheet : LocalSheet) : list (list value) :=
  drop (startDataRow sheetName sheet - 1) (sheetRows sheet).

(** The body of [sheetNamesArray.forEach]. *)
Definition localSheetHighest (ss : Workbook) (highestId : Z) (sheetName : string) : Z :=
  match ss sheetName with
  | Some sheet =>
      let lastRow := length (sheetRows sheet) in
      if (1 <=? lastRow)%nat then
        let start := startDataRow sheetName sheet in
        if (start <=? lastRow)%nat then
          highestIdFrom highestId (drop (start - 1) (sheetRows sheet))
        else highestId
      else highestId
  | None => highestId
  end.

Definition findHighestIdInLocalSheets (ss : Workbook) (sheetNamesArray : list string) : Z :=
  fold_left (localSheetHighest ss) sheetNamesArray 0.

(** [findHighestIdInDirectory]; the argument is the rows of the "Directory"
    sheet of the external spreadsheet, [None] when the script property is
    not set, the spreadsheet cannot be opened or has no such sheet. *)
Definition findHighestIdInDirectory (directory : option (list (list value))) : Z :=
  match directory with
  | Some directoryValues =>
      if (2 <=? length directoryValues)%nat then highestIdFrom 0 (drop 1 directoryValues)
      else 0
  | None => 0
  end.

Record DirectoryEntry : Type := {
  entry_id : string;
  entry_email : string;
  entry_firstName : string;
  entry_lastName : string
}.

(** [headers.indexOf(h)], [None] for -1. *)
Fixpoint headerIndex (headers : list string) (h : string) : option nat :=
  match headers with
  | [] => None
  | x :: headers => if decide (x = h) then Some 0%nat else S <$> headerIndex headers h
  end.

Definition entryCell (col : option nat) (row : list value) : string :=
  match col with
  | Some i => trim (textOf (cell row i))
  | None => ""
  end.

Section Registration.

(** [String.prototype.toUpperCase], by which the maps are keyed. *)
Variable toUpperCase : string -> string.

(** [Utilities.formatDate(date, ss.getSpreadsheetTimeZone(), "MM/dd/yyyy")] *)
Variable formatServiceDate : Z -> string.

(** The body of the loop of [getDirectoryDataMap]. *)
Definition directoryDataRow (emailColIndex firstNameColIndex lastNameColIndex : option nat)
    (directoryDataMap : gmap string DirectoryEntry) (row : list value)
    : gmap string DirectoryEntry :=
  let personId := trim (textOf (cell row 0)) in
  let fullName := trim (textOf (cell row 1)) in
  if negb (bool_decide (personId = "")) && negb (bool_decide (fullName = "")) then
    <[toUpperCase fullName :=
        {| entry_id := personId;
           entry_email := entryCell emailColIndex row;
           entry_firstName := entryCell firstNameColIndex row;
           entry_lastName := entryCell lastNameColIndex row |}]> directoryDataMap
  else directoryDataMap.

Definition getDirectoryDataMap (directory : option (list (list value)))
    : gmap string DirectoryEntry :=
  match directory with
  | Some directoryValues =>
      if (1 <? length directoryValues)%nat then
        let headers :=
          map (fun h => toLowerCase (trim (textOf h))) (nth 0 directoryValues []) in
        let emailColIndex := headerIndex headers "email" in
        let firstNameColIndex :=
          match headerIndex headers "first name" with
          | Some i => Some i
          | None => headerIndex headers "firstname"
          end in
        let lastNameColIndex :=
          match headerIndex headers "last name" with
          | Some i => Some i
          | None => headerIndex headers "lastname"
          end in
        fold_left (directoryDataRow emailColIndex firstNameColIndex lastNameColIndex)
          (drop 1 directoryValues) ∅
      else ∅
  | None => ∅
  end.

(** The body of the loop of [getLocalSheetIdMap]. *)
Definition localIdRow (localIdMap : gmap string string) (row : list value)
    : gmap string string :=
  let personId := trim (textOf (cell row 0)) in
  let fullName := trim (textOf (cell row 1)) in
  if negb (bool_decide (personId = "")) && negb (bool_decide (fullName = "")) then
    <[toUpperCase fullName := personId]> localIdMap
  else localIdMap.

(** [getLocalSheetIdMap(sheetName, 1, 2)] *)
Definition getLocalSheetIdMap (ss : Workbook) (sheetName : string) : gmap string string :=
  match ss sheetName with
  | Some sheet =>
      let data := sheetRows sheet in
      if (1 <=? length data)%nat then
        let headerIdCell := toLowerCase (trim (textOf (cell (nth 0 data []) 0))) in
        let headerNameCell := toLowerCase (trim (textOf (cell (nth 0 data []) 1))) in
        let dataStartRowIndex :=
          if (1 <? length data)%nat
             && (bool_decide (headerIdCell = "id") || bool_decide (headerIdCell = "person id"))
             && includes headerNameCell "name"
          then 1%nat else 0%nat in
        fold_left localIdRow (drop dataStartRowIndex data) ∅
      else ∅
  | None => ∅
  end.

(** *** populateRegistrationList *)

(** [new Date(v)] for a truthy value that is not a date, and the date
    itself for one that is; [None] is [null] or an invalid date. *)
Definition lastDateOf (lastDateStr : value) : option Z :=
  if toBoolean lastDateStr then
    match lastDateStr with
    | VDate t => t
    | VStr s => dateParse s
    | v => timeClip (toNumber v)
    end
  else None.

(** [v > 0] *)
Definition gtZero (v : value) : bool :=
  match toNumber v with
  | Fin q => negb (Qle_bool q 0)
  | PosInf => true
  | _ => false
  end.

Definition isText (v : value) (s : string) : bool :=
  match v with
  | VStr t => bool_decide (t = s)
  | _ => false
  end.

Definition includeMember (today : Z) (statsRow : list value) : bool :=
  let month := cell statsRow 5 in
  let lastDateStr := cell statsRow 7 in
  let activityLevel := cell statsRow 10 in
  let threeMonthsAgo := today - 90 * 24 * 60 * 60 * 1000 in
  let lastDate := lastDateOf lastDateStr in
  if isText activityLevel "Core" || isText activityLevel "Active" then true
  else if isText activityLevel "Inactive"
          && match lastDate with Some t => threeMonthsAgo <? t | None => false end then true
  else gtZero month.

(** Where the id of a member came from. *)
Inductive IdSource : Type :=
| FromDirectory
| FromEventAttendance
| FromSundayService
| FromThisRun
| Generated.

Record Registration : Type := {
  directoryMap : gmap string DirectoryEntry;
  processedNewPersonsInThisRun : gmap string DirectoryEntry;
  nextGeneratedId : Z;
  activeMembersData : list (list value);
  idSources : list (string * IdSource)
}.

(** [a || b] on texts *)
Definition orText (a b : string) : string :=
  if bool_decide (a = "") then b else a.

Definition pushMember (st : Registration) (source : IdSource) (normalizedFullName : string)
    (personId fullName firstName lastName : string) : Registration :=
  {| directoryMap := directoryMap st;
     processedNewPersonsInThisRun := processedNewPersonsInThisRun st;
     nextGeneratedId := nextGeneratedId st;
     activeMembersData :=
       activeMembersData st
       ++ [[VStr personId; VStr fullName; VStr firstName; VStr lastName; VBool false]];
     idSources := idSources st ++ [(normalizedFullName, source)] |}.

(** The body of the loop over the rows of "Attendance Stats"; [idSources]
    records, for each member pushed, the branch that gave the id. *)
Definition registrationRow (today : Z) (eventAttendanceIdMap sundayServiceIdMap : gmap string string)
    (st : Registration) (statsRow : list value) : Registration :=
  let fullNameFromStats := trim (textOf (cell statsRow 1)) in
  let firstNameFromStats := trim (textOf (cell statsRow 2)) in
  let lastNameFromStats := trim (textOf (cell statsRow 3)) in
  if bool_decide (fullNameFromStats = "") then st
  else if negb (includeMember today statsRow) then st
  else
    let normalizedFullName := toUpperCase fullNameFromStats in
    let directoryEntry :=
      match directoryMap st !! normalizedFullName with
      | Some e => if bool_decide (entry_id e = "") then None else Some e
      | None => None
      end in
    let nonEmpty (id : option string) :=
      match id with
      | Some i => if bool_decide (i = "") then None else Some i
      | None => None
      end in
    match directoryEntry with
    | Some e =>
        pushMember st FromDirectory normalizedFullName (entry_id e) fullNameFromStats
          (orText (entry_firstName e) firstNameFromStats)
          (orText (entry_lastName e) lastNameFromStats)
    | None =>
        match nonEmpty (eventAttendanceIdMap !! normalizedFullName) with
        | Some eventEntryId =>
            pushMember st FromEventAttendance normalizedFullName eventEntryId
              fullNameFromStats firstNameFromStats lastNameFromStats
        | None =>
            match nonEmpty (sundayServiceIdMap !! normalizedFullName) with
            | Some serviceEntryId =>
                pushMember st FromSundayService normalizedFullName serviceEntryId
                  fullNameFromStats firstNameFromStats lastNameFromStats
            | None =>
                match processedNewPersonsInThisRun st !! normalizedFullName with
                | Some alreadyProcessedNew =>
                    pushMember st FromThisRun normalizedFullName
                      (entry_id alreadyProcessedNew) fullNameFromStats
                      (entry_firstName alreadyProcessedNew)
                      (entry_lastName alreadyProcessedNew)
                | None =>
                    let next := nextGeneratedId st + 1 in
                    let personId := toString (idValue next) in
                    let entry :=
                      {| entry_id := personId; entry_email := "";
                         entry_firstName := firstNameFromStats;
                         entry_lastName := lastNameFromStats |} in
                    pushMember
                      {| directoryMap := <[normalizedFullName := entry]> (directoryMap st);
                         processedNewPersonsInThisRun :=
                           <[normalizedFullName := entry]> (processedNewPersonsInThisRun st);
                         nextGeneratedId := next;
                         activeMembersData := activeMembersData st;
                         idSources := idSources st |}
                      Generated normalizedFullName personId fullNameFromStats
                      firstNameFromStats lastNameFromStats
                end
            end
        end
    end.

(** The state of [populateRegistrationList] before its loop. *)
Definition initialRegistration (ss : Workbook) (directory : option (list (list value)))
    : Registration :=
  let fromDirectory := findHighestIdInDirectory directory in
  {| directoryMap := getDirectoryDataMap directory;
     processedNewPersonsInThisRun := ∅;
     nextGeneratedId :=
       if fromDirectory =? 0 then findHighestIdInLocalSheets ss LOCAL_ID_SHEETS
       else fromDirectory;
     activeMembersData := [];
     idSources := [] |}.

(** [populateRegistrationList] up to the sort of [activeMembersData]:
    the state after the loop over the rows of "Attendance Stats" below its
    header.  Nothing is done when that sheet has fewer than two rows. *)
Definition populateRegistrationList (today : Z) (ss : Workbook)
    (directory : option (list (list value))) (statsData : list (list value))
    : option Registration :=
  if (length statsData <? 2)%nat then None
  else
    Some (fold_left
            (registrationRow today (getLocalSheetIdMap ss "Event Attendance")
               (getLocalSheetIdMap ss "Sunday Service"))
            (drop 1 statsData) (initialRegistration ss directory)).

(** *** addCheckboxesToRegistration *)

(** The loop over [nameValues], from index [i] on. *)
Fixpoint lastNamedRow (i rowsWithActualNames : nat) (nameValues : list (list value)) : nat :=
  match nameValues with
  | [] => rowsWithActualNames
  | row :: nameValues =>
      lastNamedRow (S i)
        (if negb (bool_decide (trim (textOf (cell row 0)) = "")) then S i
         else rowsWithActualNames)
        nameValues
  end.

Definition rowsWithActualNames (nameValues : list (list value)) : nat :=
  lastNamedRow 0 0 nameValues.

(** *** submitRegistrationAttendance *)

(** [v || ""] *)
Definition orEmpty (v : value) : value :=
  if toBoolean v then v else VStr "".

(** The body of the loop over [regData]: the entry pushed for a row, if
    any; [now] is the value of [new Date()] in it. *)
Definition attendanceEntry (serviceDate : Z) (directoryMap : gmap string DirectoryEntry)
    (now : Z) (row : list value) : option (list value) :=
  let personId := cell row 0 in
  let fullName := cell row 1 in
  let firstName := cell row 2 in
  let lastName := cell row 3 in
  let isChecked := cell row 4 in
  if match isChecked with VBool true => true | _ => false end
     && toBoolean fullName && negb (bool_decide (trim (toString fullName) = "")) then
    let normalizedFullName := toUpperCase (trim (toString fullName)) in
    let email :=
      match directoryMap !! normalizedFullName with
      | Some directoryEntry => entry_email directoryEntry
      | None => ""
      end in
    Some [personId; fullName; orEmpty firstName; orEmpty lastName;
          VStr (formatServiceDate serviceDate); VStr "No"; VStr email; VStr "";
          VDate (Some now)]
  else None.

(** The loop over [regData] from row index [i] on; [clock i] is the time
    at which row [i] is read. *)
Fixpoint attendanceEntriesFrom (clock : nat -> Z) (serviceDate : Z)
    (directoryMap : gmap string DirectoryEntry) (i : nat) (regData : list (list value))
    : list (list value) :=
  match regData with
  | [] => []
  | row :: regData =>
      match attendanceEntry serviceDate directoryMap (clock i) row with
      | Some entry =>
          entry :: attendanceEntriesFrom clock serviceDate directoryMap (S i) regData
      | None => attendanceEntriesFrom clock serviceDate directoryMap (S i) regData
      end
  end.

(** What [submitRegistrationAttendance] does. *)
Inductive Submission : Type :=
| InvalidServiceDate
| NoServiceSheet
| NoMembers
| NoChecks
| Submitted (attendanceEntries : list (list value)).

(** [submitRegistrationAttendance]: the value of B2, whether the "Service
    Attendance" sheet exists, the Directory and the rows of the
    registration sheet give the rows appended to "Service Attendance". *)
Definition submitRegistrationAttendance (clock : nat -> Z) (serviceDateValue : value)
    (serviceSheet : bool) (directory : option (list (list value)))
    (regRows : list (list value)) : Submission :=
  match serviceDateValue with
  | VDate (Some serviceDate) =>
      if negb serviceSheet then NoServiceSheet
      else if (length regRows <? 6)%nat then NoMembers
      else
        let regData := drop 5 regRows in
        let attendanceEntries :=
          attendanceEntriesFrom clock serviceDate (getDirectoryDataMap directory) 0 regData in
        match attendanceEntries with
        | [] => NoChecks
        | _ => Submitted attendanceEntries
        end
  | _ => InvalidServiceDate
  end.

(** *** addPersonToRegistration *)

Inductive Addition : Type :=
| AddNoSheet
| AddCancelled
| AddNoName
| AddDuplicate
| Added (nextSheetRow : nat) (newRowData : list value) (source : IdSource).

(** [existingNames.some(row => row[0] && ... === fullNameEntered.toLowerCase())] *)
Definition nameListed (fullNameEntered : string) (existingNames : list (list value)) : bool :=
  existsb
    (fun row =>
       toBoolean (cell row 0)
       && bool_decide (toLowerCase (trim (toString (cell row 0))) = toLowerCase fullNameEntered))
    existingNames.

(** The highest id of the Directory, the local sheets and the registration
    list, the base of the id of a person added by hand. *)
Definition currentHighestOverallId (ss : Workbook) (directory : option (list (list value)))
    (regRows : list (list value)) : Z :=
  let highest :=
    Z.max (findHighestIdInDirectory directory) (findHighestIdInLocalSheets ss LOCAL_ID_SHEETS) in
  if (6 <=? length regRows)%nat then highestIdFrom highest (drop 5 regRows) else highest.

(** [addPersonToRegistration]: the button and the text of the prompt, the
    active spreadsheet and the Directory give the row that is written. *)
Definition addPersonToRegistration (ok : bool) (responseText : string) (ss : Workbook)
    (directory : option (list (list value))) : Addition :=
  match ss "Sunday Registration" with
  | None => AddNoSheet
  | Some regSheet =>
      if negb ok then AddCancelled
      else
        let regRows := sheetRows regSheet in
        let fullNameEntered := trim responseText in
        if bool_decide (fullNameEntered = "") then AddNoName
        else
          let lastDataRow := length regRows in
          if (6 <=? lastDataRow)%nat
             && nameListed fullNameEntered (map (fun row => [cell row 1]) (drop 5 regRows))
          then AddDuplicate
          else
            let normalizedFullName := toUpperCase fullNameEntered in
            let nonEmpty (id : option string) :=
              match id with
              | Some i => if bool_decide (i = "") then None else Some i
              | None => None
              end in
            let directoryEntry :=
              match getDirectoryDataMap directory !! normalizedFullName with
              | Some e => if bool_decide (entry_id e = "") then None else Some e
              | None => None
              end in
            let '(source, personIdToAdd, firstNameToAdd, lastNameToAdd) :=
              match directoryEntry with
              | Some e => (FromDirectory, entry_id e, entry_firstName e, entry_lastName e)
              | None =>
                  match nonEmpty (getLocalSheetIdMap ss "Event Attendance" !! normalizedFullName)
                  with
                  | Some eventEntryId => (FromEventAttendance, eventEntryId, "", "")
                  | None =>
                      match nonEmpty
                              (getLocalSheetIdMap ss "Sunday Service" !! normalizedFullName)
                      with
                      | Some serviceEntryId => (FromSundayService, serviceEntryId, "", "")
                      | None =>
                          (Generated,
                           toString (idValue (currentHighestOverallId ss directory regRows + 1)),
                           "", "")
                      end
                  end
              end in
            let nameParts := split fullNameEntered in
            let '(firstNameToAdd, lastNameToAdd) :=
              if bool_decide (firstNameToAdd = "") then
                (firstNameOf nameParts, lastNameOf nameParts)
              else (firstNameToAdd, lastNameToAdd) in
            let nextSheetRow := if (lastDataRow <? 5)%nat then 6%nat else S lastDataRow in
            Added nextSheetRow
              [VStr personIdToAdd; VStr fullNameEntered; VStr firstNameToAdd;
               VStr lastNameToAdd; VBool false]
              source
  end.

End Registration.

(** *** Reading a registration run *)

Definition nonEmptyId (id : option string) : option string :=
  match id with
  | Some i => if bool_decide (i = "") then None else Some i
  | None => None
  end.

(** The id under which the Directory map and the maps of the two
    attendance sheets know a name, in the order in which the script asks
    them. *)
Definition knownId (directoryMap : gmap string DirectoryEntry)
    (eventAttendanceIdMap sundayServiceIdMap : gmap string string) (name : string)
    : option string :=
  match nonEmptyId (entry_id <$> directoryMap !! name) with
  | Some id => Some id
  | None =>
      match nonEmptyId (eventAttendanceIdMap !! name) with
      | Some id => Some id
      | None => nonEmptyId (sundayServiceIdMap !! name)
      end
  end.

Definition isGenerated (e : string * IdSource) : bool :=
  match e.2 with
  | Generated => true
  | _ => false
  end.

Fixpoint countGenerated (sources : list (string * IdSource)) : nat :=
  match sources with
  | [] => 0
  | e :: sources => (if isGenerated e then 1 else 0) + countGenerated sources
  end.

Fixpoint generatedNames (sources : list (string * IdSource)) : list string :=
  match sources with
  | [] => []
  | e :: sources =>
      if isGenerated e then e.1 :: generatedNames sources else generatedNames sources
  end.

(** What holds of the state of [populateRegistrationList] between two rows
    of its loop; [base] is the value of [nextGeneratedId] before the
    loop. *)
Record RegInv (toUpperCase : string -> string)
    (eventAttendanceIdMap sundayServiceIdMap : gmap string string) (base : Z)
    (st : Registration) : Prop := {
  ri_len : length (activeMembersData st) = length (idSources st);
  ri_processed :
    forall k e,
      processedNewPersonsInThisRun st !! k = Some e ->
      directoryMap st !! k = Some e /\ entry_id e <> "";
  ri_known :
    forall (i : nat) k source row,
      idSources st !! i = Some (k, source) -> activeMembersData st !! i = Some row ->
      exists id name firstName lastName,
        knownId (directoryMap st) eventAttendanceIdMap sundayServiceIdMap k = Some id
        /\ row = [VStr id; VStr name; VStr firstName; VStr lastName; VBool false]
        /\ name <> "" /\ trim name = name /\ k = toUpperCase name;
  ri_dead : forall k, (k, FromThisRun) ∉ idSources st;
  ri_next : nextGeneratedId st = base + Z.of_nat (countGenerated (idSources st));
  ri_generated :
    forall (i : nat) k row,
      idSources st !! i = Some (k, Generated) -> activeMembersData st !! i = Some row ->
      cell row 0
      = VStr (toString (idValue (base + Z.of_nat (countGenerated (take (S i) (idSources st))))));
  ri_names :
    forall k,
      k ∈ generatedNames (idSources st) ->
      knownId (directoryMap st) eventAttendanceIdMap sundayServiceIdMap k <> None;
  ri_nodup : NoDup (generatedNames (idSources st))
}.

(** A row of the Directory that the registration script files under the
    key [k]: it has an id and a full name, and [k] is the name in upper
    case. *)
Definition filedUnder (toUpperCase : string -> string) (k : string) (row : list value) : Prop :=
  trim (textOf (cell row 0)) <> "" /\ trim (textOf (cell row 1)) <> ""
  /\ toUpperCase (trim (textOf (cell row 1))) = k.

(** * Properties *)

(** Propositional steps, with the host left out of the context. *)
Ltac propositional :=
  try clear localTZA; try clear dateParse; try clear dateToString;
  try clear fractionToString; tauto.

(** ** Characters and strings *)

Ltac each_char c := destruct c as [[] [] [] [] [] [] [] []].

Lemma isDigit_not_space c : isDigit c = true -> isWhiteSpace c = false.
Proof. each_char c; vm_compute; congruence. Qed.

Lemma isDigit_not_sign c : isDigit c = true -> c <> "-"%char /\ c <> "+"%char.
Proof.
  intros H; split; intros ->; vm_compute in H; discriminate.
Qed.

Lemma digitVal_nonneg c : isDigit c = true -> 0 <= digitVal c <= 9.
Proof.
  each_char c; intros H; vm_compute in H; try discriminate H; vm_compute;
    split; discriminate.
Qed.

Lemma takeDigits_all s : allChars isDigit s = true -> takeDigits s = s.
Proof.
  induction s as [|c r IH]; simpl; [done|].
  intros [Hc Hr]%andb_prop. rewrite Hc, IH; done.
Qed.

Lemma digitsValue_decimal s acc :
  digitsValue acc s = acc * 10 ^ Z.of_nat (String.length s) + decimalValue s.
Proof.
  revert acc; induction s as [|c r IH]; intros acc; simpl String.length; simpl digitsValue;
    simpl decimalValue.
  - change (10 ^ Z.of_nat 0) with 1. lia.
  - rewrite IH, Nat2Z.inj_succ, Z.pow_succ_r by lia. ring.
Qed.

Lemma decimalValue_nonneg s : allChars isDigit s = true -> 0 <= decimalValue s.
Proof.
  induction s as [|c r IH]; simpl; [lia|].
  intros [Hc Hr]%andb_prop. specialize (IH Hr).
  pose proof (digitVal_nonneg c Hc).
  assert (0 <= 10 ^ Z.of_nat (String.length r)) by (apply Z.pow_nonneg; lia).
  nia.
Qed.

Lemma parseInt10_digits s :
  matchesDigits s = true -> parseInt10 s = Some (decimalValue s).
Proof.
  destruct s as [|c r]; [discriminate|].
  unfold matchesDigits. intros H.
  pose proof H as [Hc Hr]%andb_prop.
  unfold parseInt10.
  assert (Hs : trimStart (String c r) = String c r).
  { simpl. by rewrite (isDigit_not_space c Hc). }
  rewrite Hs.
  destruct (isDigit_not_sign c Hc) as [Hm Hp].
  assert (Hsign :
    match String c r with
    | String "-" r0 => (-1, r0)
    | String "+" r0 => (1, r0)
    | _ => (1, String c r)
    end = (1, String c r)).
  { destruct c as [[] [] [] [] [] [] [] []]; try reflexivity; congruence. }
  rewrite Hsign, (takeDigits_all _ H), digitsValue_decimal. f_equal. lia.
Qed.

Lemma isIntegerQ_spec q : isIntegerQ q = true <-> exists z, (q == inject_Z z)%Q.
Proof.
  unfold isIntegerQ. split.
  - intros H. apply Z.eqb_eq in H. exists (Qnum (Qred q)).
    rewrite <- (Qred_correct q) at 1.
    destruct (Qred q) as [n d]. simpl in *. injection H as ->. reflexivity.
  - intros [z Hz]. apply Qred_complete in Hz. rewrite Hz.
    unfold inject_Z. rewrite Qcanon.Qred_identity; [reflexivity|]. apply Z.gcd_1_r.
Qed.

Lemma extractNumericBel_integer q z :
  (q == inject_Z z)%Q -> 0 <= z -> extractNumericBel (VNum (Fin q)) = Some z.
Proof.
  intros Hq Hz. simpl.
  assert (H1 : isIntegerQ q = true) by (apply isIntegerQ_spec; eauto).
  assert (H2 : Qle_bool 0 q = true).
  { apply Qle_bool_iff. rewrite Hq. change 0%Q with (inject_Z 0). by rewrite <- Zle_Qle. }
  rewrite H1, H2. simpl. f_equal. rewrite (Qfloor_comp _ _ Hq). apply Qfloor_Z.
Qed.

Lemma extractNumericBel_not_natural q :
  (forall z, 0 <= z -> ~ (q == inject_Z z)%Q) -> extractNumericBel (VNum (Fin q)) = None.
Proof.
  intros H. simpl.
  destruct (isIntegerQ q) eqn:H1; [|done].
  destruct (Qle_bool 0 q) eqn:H2; [|done].
  exfalso. apply isIntegerQ_spec in H1 as [z Hz].
  apply (H z); [|done].
  apply Qle_bool_iff in H2. rewrite Hz in H2. change 0%Q with (inject_Z 0) in H2.
  by rewrite <- Zle_Qle in H2.
Qed.

Lemma matchesDigits_hasNonDigit s :
  matchesDigits s = false -> s = "" \/ hasNonDigit s = true.
Proof.
  destruct s as [|c r]; [by left|]. unfold matchesDigits, hasNonDigit.
  intros ->. by right.
Qed.



(** ** The identifier generator *)

Lemma extractNumericBel_nonneg v z : extractNumericBel v = Some z -> 0 <= z.
Proof.
  destruct v as [| | |[q| | |]|s|]; simpl; try discriminate.
  - destruct (isIntegerQ q) eqn:Hi; [|discriminate].
    destruct (Qle_bool 0 q) eqn:Hq; [|discriminate].
    simpl. intros [= <-]. apply Qle_bool_iff in Hq.
    apply Qfloor_resp_le in Hq. exact Hq.
  - destruct (decide (trim s = "")); [discriminate|].
    destruct (matchesDigits (trim s)); [|discriminate]. simpl.
    destruct (parseInt10 (trim s)) as [num|]; [|discriminate].
    destruct (0 <=? num) eqn:E; [|discriminate]. intros [= <-]. lia.
Qed.

Lemma highestFoundNum_spec (U : gset Z) :
  0 <= highestFoundNum U
  /\ (forall u, u ∈ U -> u <= highestFoundNum U)
  /\ (highestFoundNum U = 0 \/ highestFoundNum U ∈ U).
Proof.
  unfold highestFoundNum.
  apply (set_fold_ind_L
           (fun r (X : gset Z) => 0 <= r /\ (forall u, u ∈ X -> u <= r) /\ (r = 0 \/ r ∈ X))).
  - split; [lia|]. split; [|by left]. intros u Hu. by apply not_elem_of_empty in Hu.
  - intros x X r Hx (H0 & Hle & Hin).
    destruct (r <? x) eqn:E.
    + apply Z.ltb_lt in E. split; [lia|].
      split; [|right; apply elem_of_union_l, elem_of_singleton; reflexivity].
      intros u [->%elem_of_singleton|Hu]%elem_of_union; [lia|]. specialize (Hle u Hu). lia.
    + apply Z.ltb_ge in E. split; [done|]. split.
      * intros u [->%elem_of_singleton|Hu]%elem_of_union; [lia|]. by apply Hle.
      * destruct Hin as [->|Hin]; [by left|right; by apply elem_of_union_r].
Qed.

Lemma highestFoundNum_empty : highestFoundNum ∅ = 0.
Proof. unfold highestFoundNum. apply set_fold_empty. Qed.

Lemma highestFoundNum_max (U : gset Z) m :
  (forall u, u ∈ U -> 0 <= u) -> m ∈ U -> (forall u, u ∈ U -> u <= m) ->
  highestFoundNum U = m.
Proof.
  intros Hpos Hm Hmax. destruct (highestFoundNum_spec U) as (H0 & Hle & [Hz|Hin]).
  - specialize (Hle m Hm). specialize (Hpos m Hm). lia.
  - specialize (Hle m Hm). specialize (Hmax _ Hin). lia.
Qed.

(** A pass of the loop at a counter that is not in the set returns it. *)
Lemma generateBEL_loop_fresh fuel highest (U : gset Z) c :
  c ∉ U ->
  generateBEL_loop (S fuel) highest U c = Ok (c, {[c]} ∪ U, c + 1).
Proof. intros H. simpl. destruct (decide (c ∈ U)); [done|reflexivity]. Qed.

Lemma generateBEL_fresh highest (U : gset Z) c :
  c ∉ U -> generateBEL highest U c = Ok (c, {[c]} ∪ U, c + 1).
Proof. apply generateBEL_loop_fresh. Qed.

(** The loop never runs out of the passes [generateBEL] gives it. *)
Lemma generateBEL_loop_finishes fuel highest (U : gset Z) c :
  (generateBEL_fuel highest c <= fuel)%nat ->
  generateBEL_loop fuel highest U c <> OutOfFuel.
Proof.
  revert c; induction fuel as [|fuel IH]; intros c Hf.
  - unfold generateBEL_fuel in Hf. lia.
  - simpl. destruct (decide (c ∈ U)); [|done].
    destruct (highest + 20000 <? c + 1) eqn:E; [done|].
    apply Z.ltb_ge in E. apply IH. unfold generateBEL_fuel in *. lia.
Qed.

Lemma pushResult_fields st id row :
  belMap (pushResult st id row) = belMap st
  /\ allUsedCodes (pushResult st id row) = allUsedCodes st
  /\ codeCounter (pushResult st id row) = codeCounter st
  /\ generated (pushResult st id row) = generated st.
Proof. unfold pushResult. destruct (formatRow id row); done. Qed.

Lemma RunInv_pushResult highest U0 M0 st id row :
  RunInv highest U0 M0 st -> RunInv highest U0 M0 (pushResult st id row).
Proof.
  destruct (pushResult_fields st id row) as (Hm & Hu & Hc & Hg).
  intros [I1 I2 I3 I4 I5 I6 I7]. split; rewrite ?Hm, ?Hu, ?Hc, ?Hg; done.
Qed.

Lemma seqZ_snoc m (n : nat) :
  seqZ m (Z.of_nat (S n)) = (seqZ m (Z.of_nat n) ++ [m + Z.of_nat n])%list.
Proof.
  rewrite Nat2Z.inj_succ, <- Z.add_1_r, seqZ_app by lia. reflexivity.
Qed.

Lemma RunInv_counter_fresh highest U0 M0 st :
  (forall u, u ∈ U0 -> u <= highest) ->
  RunInv highest U0 M0 st -> forall u, u ∈ allUsedCodes st -> u < codeCounter st.
Proof.
  intros HU0 [I1 I2 _ _ _ _ _] u. rewrite I1, I2.
  intros [Hu%elem_of_list_to_set|Hu]%elem_of_union.
  - apply elem_of_seqZ in Hu. lia.
  - specialize (HU0 u Hu). lia.
Qed.

(** One row of step 5 keeps the invariant, and the row is processed without
    an exception: when an id is needed the generator returns at once. *)
Lemma assignRow_inv highest U0 M0 st row :
  (forall u, u ∈ U0 -> u <= highest) ->
  RunInv highest U0 M0 st ->
  exists st', assignRow highest st row = Ok st' /\ RunInv highest U0 M0 st'.
Proof.
  intros HU0 Hinv. unfold assignRow.
  destruct (length row <? 2)%nat; [eauto|].
  destruct (truthy (normalize (cell row 1))) as [name|]; [|eauto].
  destruct (belMap st !! name) as [numericBel|] eqn:Hname.
  { eexists; split; [reflexivity|]. by apply RunInv_pushResult. }
  assert (Hfresh : codeCounter st ∉ allUsedCodes st).
  { intros Hin. pose proof (RunInv_counter_fresh _ _ _ _ HU0 Hinv _ Hin). lia. }
  rewrite (generateBEL_fresh _ _ _ Hfresh).
  eexists; split; [reflexivity|]. apply RunInv_pushResult.
  destruct Hinv as [I1 I2 I3 I4 I5 I6 I7].
  split; simpl.
  - rewrite length_app, Nat2Z.inj_add. simpl. lia.
  - rewrite length_app, Nat.add_1_r, seqZ_snoc, list_to_set_snoc_L, I2, I1.
    apply set_eq. intros x. rewrite !elem_of_union. propositional.
  - intros i e Hi. apply lookup_app_Some in Hi as [Hi|[Hlen Hi]]; [by apply I3|].
    apply list_lookup_singleton_Some in Hi as [Hi <-].
    assert (i = length (generated st)) as -> by lia.
    unfold genId, genUsed; simpl. split; [exact I1|exact I2].
  - intros k g Hk. destruct (decide (name = k)) as [<-|Hne].
    + rewrite lookup_insert_eq in Hk. injection Hk as <-. right. split.
      * destruct (M0 !! name) as [g'|] eqn:E; [|done].
        apply I6 in E. congruence.
      * exists (allUsedCodes st). apply elem_of_app. right. by apply list_elem_of_singleton.
    + rewrite lookup_insert_ne in Hk by done.
      destruct (I4 _ _ Hk) as [?|[? [U HU]]]; [by left|right].
      split; [done|]. exists U. apply elem_of_app. by left.
  - intros e [He|He%list_elem_of_singleton]%elem_of_app.
    + specialize (I5 e He). rewrite lookup_insert_ne; [done|]. congruence.
    + subst e. unfold genName, genId; simpl. apply lookup_insert_eq.
  - intros k g Hk. specialize (I6 k g Hk). rewrite lookup_insert_ne; [done|]. congruence.
  - intros e [He|He%list_elem_of_singleton]%elem_of_app; [by apply I7|].
    subst e. unfold genName; simpl.
    destruct (M0 !! name) as [g|] eqn:E; [|done]. apply I6 in E. congruence.
Qed.

Lemma assignRows_inv highest U0 M0 rows : forall st,
  (forall u, u ∈ U0 -> u <= highest) ->
  RunInv highest U0 M0 st ->
  exists st', assignRows highest st rows = Ok st' /\ RunInv highest U0 M0 st'.
Proof.
  induction rows as [|row rows IH]; intros st HU0 Hinv; simpl; [eauto|].
  destruct (assignRow_inv highest U0 M0 st row HU0 Hinv) as (st1 & -> & Hinv1).
  simpl. by apply IH.
Qed.

Lemma assignRows_app highest rows1 rows2 st :
  assignRows highest st (rows1 ++ rows2)
  = bindR (assignRows highest st rows1) (fun st => assignRows highest st rows2).
Proof.
  revert st; induction rows1 as [|row rows1 IH]; intros st; simpl; [done|].
  destruct (assignRow highest st row); simpl; auto.
Qed.

Lemma initialRun_fields data :
  belMap (initialRun data) = fst (collectIds data)
  /\ allUsedCodes (initialRun data) = snd (collectIds data)
  /\ codeCounter (initialRun data) = highestFoundNum (snd (collectIds data)) + 1
  /\ generated (initialRun data) = []
  /\ results (initialRun data) = [].
Proof. unfold initialRun. destruct (collectIds data); done. Qed.

Lemma initialRun_inv data :
  RunInv (highestFoundNum (allUsedCodes (initialRun data)))
    (allUsedCodes (initialRun data)) (belMap (initialRun data)) (initialRun data).
Proof.
  destruct (initialRun_fields data) as (Hm & Hu & Hc & Hg & _).
  split; rewrite ?Hg; simpl.
  - rewrite Hc, Hu. lia.
  - change (seqZ _ (Z.of_nat 0)) with (@nil Z). simpl.
    by rewrite (left_id_L ∅ (∪)).
  - intros i e Hi. done.
  - intros k g Hk. by left.
  - intros e He. by apply elem_of_nil in He.
  - done.
  - intros e He. by apply elem_of_nil in He.
Qed.

Lemma RunInv_ids highest U0 M0 st :
  RunInv highest U0 M0 st ->
  map genId (generated st) = seqZ (highest + 1) (Z.of_nat (length (generated st))).
Proof.
  intros [_ _ I3 _ _ _ _]. apply list_eq. intros i.
  change (map genId (generated st)) with (genId <$> generated st).
  rewrite list_lookup_fmap.
  destruct (generated st !! i) as [e|] eqn:E; simpl.
  - symmetry. apply lookup_seqZ. destruct (I3 i e E) as [-> _].
    split; [done|]. apply lookup_lt_Some in E. lia.
  - symmetry. apply lookup_seqZ_ge. apply lookup_ge_None in E. lia.
Qed.

Lemma RunInv_fresh highest U0 M0 st e :
  (forall u, u ∈ U0 -> u <= highest) ->
  RunInv highest U0 M0 st -> e ∈ generated st ->
  forall u, u ∈ genUsed e -> u < genId e.
Proof.
  intros HU0 [_ _ I3 _ _ _ _] He u Hu.
  apply list_elem_of_lookup in He as [i Hi].
  destruct (I3 i e Hi) as [-> HU]. rewrite HU in Hu.
  apply elem_of_union in Hu as [Hu%elem_of_list_to_set|Hu].
  - apply elem_of_seqZ in Hu. lia.
  - specialize (HU0 u Hu). lia.
Qed.


(** ** Collecting the existing ids *)

Lemma mapIfAbsent_lookup name id (m : gmap string Z) k :
  mapIfAbsent name id m !! k
  = match m !! k with
    | Some g => Some g
    | None => if decide (name = k) then Some id else None
    end.
Proof.
  unfold mapIfAbsent. destruct (m !! name) as [g|] eqn:E.
  - destruct (m !! k) eqn:Ek; [done|]. destruct (decide (name = k)); [congruence|done].
  - destruct (decide (name = k)) as [<-|Hne].
    + by rewrite lookup_insert_eq, E.
    + rewrite lookup_insert_ne by done. by destruct (m !! k).
Qed.

Lemma firstId_app k obs1 obs2 :
  firstId k (obs1 ++ obs2)
  = match firstId k obs1 with Some id => Some id | None => firstId k obs2 end.
Proof.
  induction obs1 as [|[k' raw] obs1 IH]; simpl; [done|].
  destruct (decide (k' = k)); [|done]. by destruct (extractNumericBel raw).
Qed.

(** The map after a pass over rows: the entries it had, then the earliest
    numeric id observed for each remaining key. *)
Lemma directoryRows_map rows : forall (m : gmap string Z) (U : gset Z) k,
  fst (fold_left directoryRow rows (m, U)) !! k
  = match m !! k with
    | Some g => Some g
    | None => firstId k (omap directoryObservation rows)
    end.
Proof.
  induction rows as [|row rows IH]; intros m U k; simpl; [by destruct (m !! k)|].
  unfold directoryObservation at 1.
  destruct (2 <? length row)%nat; [|by rewrite IH].
  destruct (truthy (normalize (cell row 2))) as [name|]; [|by rewrite IH].
  simpl. destruct (extractNumericBel (cell row 1)) as [id|].
  - rewrite IH, mapIfAbsent_lookup. destruct (m !! k); [done|].
    destruct (decide (name = k)); done.
  - rewrite IH. destruct (m !! k); [done|]. by destruct (decide (name = k)).
Qed.

Lemma attendanceRows_map rows : forall (m : gmap string Z) (U : gset Z) k,
  fst (fold_left attendanceIdRow rows (m, U)) !! k
  = match m !! k with
    | Some g => Some g
    | None => firstId k (omap attendanceObservation rows)
    end.
Proof.
  induction rows as [|row rows IH]; intros m U k; simpl; [by destruct (m !! k)|].
  unfold attendanceObservation at 1.
  destruct (1 <? length row)%nat; [|by rewrite IH].
  destruct (extractNumericBel (cell row 0)) as [id|] eqn:Hid.
  - rewrite IH. destruct (truthy (normalize (cell row 1))) as [name|]; [|done].
    simpl. rewrite mapIfAbsent_lookup, Hid. destruct (m !! k); [done|].
    destruct (decide (name = k)); done.
  - rewrite IH. destruct (truthy (normalize (cell row 1))) as [name|]; [|done].
    simpl. rewrite Hid. destruct (m !! k); [done|]. by destruct (decide (name = k)).
Qed.

(** The used-id set only grows, and holds the numeric id of every
    observation of the pass. *)
Lemma directoryRows_used rows : forall (m : gmap string Z) (U : gset Z),
  U ⊆ snd (fold_left directoryRow rows (m, U))
  /\ forall k raw id,
       (k, raw) ∈ omap directoryObservation rows -> extractNumericBel raw = Some id ->
       id ∈ snd (fold_left directoryRow rows (m, U)).
Proof.
  induction rows as [|row rows IH]; intros m U; simpl.
  { split; [done|]. intros k raw id H. by apply elem_of_nil in H. }
  unfold directoryObservation at 1.
  destruct (2 <? length row)%nat; [|apply IH].
  destruct (truthy (normalize (cell row 2))) as [name|]; [|apply IH].
  destruct (extractNumericBel (cell row 1)) as [id|] eqn:Hid.
  - destruct (IH (mapIfAbsent name id m) ({[id]} ∪ U)) as [Hsub Hobs]. split.
    + etrans; [|exact Hsub]. apply union_subseteq_r.
    + intros k raw id' [[= -> ->]|Hin]%elem_of_cons Hraw; [|by eapply Hobs].
      rewrite Hid in Hraw. injection Hraw as <-.
      apply Hsub, elem_of_union_l, elem_of_singleton. reflexivity.
  - destruct (IH m U) as [Hsub Hobs]. split; [done|].
    intros k raw id' [[= -> ->]|Hin]%elem_of_cons Hraw; [congruence|by eapply Hobs].
Qed.

Lemma attendanceRows_used rows : forall (m : gmap string Z) (U : gset Z),
  U ⊆ snd (fold_left attendanceIdRow rows (m, U))
  /\ forall k raw id,
       (k, raw) ∈ omap attendanceObservation rows -> extractNumericBel raw = Some id ->
       id ∈ snd (fold_left attendanceIdRow rows (m, U)).
Proof.
  induction rows as [|row rows IH]; intros m U; simpl.
  { split; [done|]. intros k raw id H. by apply elem_of_nil in H. }
  unfold attendanceObservation at 1.
  destruct (1 <? length row)%nat; [|apply IH].
  destruct (extractNumericBel (cell row 0)) as [id|] eqn:Hid.
  - match goal with |- context [fold_left _ _ (?m1, _)] =>
      destruct (IH m1 ({[id]} ∪ U)) as [Hsub Hobs] end.
    split.
    + etrans; [|exact Hsub]. apply union_subseteq_r.
    + destruct (truthy (normalize (cell row 1))) as [name|]; [|by eauto].
      intros k raw id' [[= -> ->]|Hin]%elem_of_cons Hraw; [|by eapply Hobs].
      rewrite Hid in Hraw. injection Hraw as <-.
      apply Hsub, elem_of_union_l, elem_of_singleton. reflexivity.
  - destruct (IH m U) as [Hsub Hobs]. split; [done|].
    destruct (truthy (normalize (cell row 1))) as [name|]; [|by eauto].
    intros k raw id' [[= -> ->]|Hin]%elem_of_cons Hraw; [congruence|by eapply Hobs].
Qed.

(** Every id in the used-id set came out of [extractNumericBel]. *)
Lemma directoryRows_nonneg rows : forall (m : gmap string Z) (U : gset Z),
  (forall u, u ∈ U -> 0 <= u) ->
  forall u, u ∈ snd (fold_left directoryRow rows (m, U)) -> 0 <= u.
Proof.
  induction rows as [|row rows IH]; intros m U HU; simpl; [done|].
  destruct (2 <? length row)%nat; [|by apply IH].
  destruct (truthy (normalize (cell row 2))) as [name|]; [|by apply IH].
  destruct (extractNumericBel (cell row 1)) as [id|] eqn:Hid; [|by apply IH].
  apply IH. intros u [->%elem_of_singleton|Hu]%elem_of_union; [|by apply HU].
  by eapply extractNumericBel_nonneg.
Qed.

Lemma attendanceRows_nonneg rows : forall (m : gmap string Z) (U : gset Z),
  (forall u, u ∈ U -> 0 <= u) ->
  forall u, u ∈ snd (fold_left attendanceIdRow rows (m, U)) -> 0 <= u.
Proof.
  induction rows as [|row rows IH]; intros m U HU; simpl; [done|].
  destruct (1 <? length row)%nat; [|by apply IH].
  destruct (extractNumericBel (cell row 0)) as [id|] eqn:Hid; [|by apply IH].
  apply IH. intros u [->%elem_of_singleton|Hu]%elem_of_union; [|by apply HU].
  by eapply extractNumericBel_nonneg.
Qed.

Lemma collectIds_nonneg data u : u ∈ snd (collectIds data) -> 0 <= u.
Proof.
  unfold collectIds.
  destruct (fold_left directoryRow (dataRows (dData data)) (∅, ∅)) as [m U] eqn:E.
  apply attendanceRows_nonneg. intros u' Hu'.
  apply (directoryRows_nonneg (dataRows (dData data)) ∅ ∅); [|by rewrite E].
  intros ? H. by apply not_elem_of_empty in H.
Qed.

Lemma collectIds_map data k :
  fst (collectIds data) !! k = firstId k (observations data).
Proof.
  unfold collectIds, observations, attendanceDataRaw.
  destruct (fold_left directoryRow (dataRows (dData data)) (∅, ∅)) as [m U] eqn:E.
  rewrite attendanceRows_map.
  pose proof (directoryRows_map (dataRows (dData data)) ∅ ∅ k) as Hd.
  rewrite E, lookup_empty in Hd. simpl in Hd. rewrite Hd.
  unfold directoryObservations, eventObservations, serviceObservations.
  rewrite firstId_app, <- omap_app.
  by destruct (firstId k (omap directoryObservation (dataRows (dData data)))).
Qed.

Lemma collectIds_used data k raw id :
  (k, raw) ∈ observations data -> extractNumericBel raw = Some id ->
  id ∈ snd (collectIds data).
Proof.
  unfold collectIds, observations, attendanceDataRaw.
  unfold directoryObservations, eventObservations, serviceObservations.
  rewrite <- omap_app.
  destruct (fold_left directoryRow (dataRows (dData data)) (∅, ∅)) as [m U] eqn:E.
  destruct (attendanceRows_used (dataRows (eData data) ++ dataRows (sData data)) m U)
    as [Hsub Hobs].
  intros [Hin|Hin]%elem_of_app Hraw.
  - apply Hsub.
    destruct (directoryRows_used (dataRows (dData data)) ∅ ∅) as [_ Hd].
    rewrite E in Hd. by eapply Hd.
  - by eapply Hobs.
Qed.


(** The used-id set holds nothing else: an id in it is the numeric id of a
    Directory observation or of an attendance row, named or not. *)
Lemma directoryRows_used_iff rows : forall (m : gmap string Z) (U : gset Z) u,
  u ∈ snd (fold_left directoryRow rows (m, U)) <->
  u ∈ U \/ exists k raw,
             (k, raw) ∈ omap directoryObservation rows /\ extractNumericBel raw = Some u.
Proof.
  induction rows as [|row rows IH]; intros m U u; simpl.
  { split; [by left|]. intros [?|(k & raw & H & _)]; [done|]. by apply elem_of_nil in H. }
  unfold directoryObservation at 1.
  destruct (2 <? length row)%nat; [|apply IH].
  destruct (truthy (normalize (cell row 2))) as [name|]; [|apply IH].
  destruct (extractNumericBel (cell row 1)) as [id|] eqn:Hid; rewrite IH.
  - rewrite elem_of_union, elem_of_singleton. split.
    + intros [[->|Hu]|(k & raw & Hin & Hraw)].
      * right. exists name, (cell row 1). split; [apply elem_of_cons; by left|done].
      * by left.
      * right. exists k, raw. split; [apply elem_of_cons; by right|done].
    + intros [Hu|(k & raw & [[= -> ->]|Hin]%elem_of_cons & Hraw)].
      * left. by right.
      * left. left. congruence.
      * right. eauto.
  - split.
    + intros [Hu|(k & raw & Hin & Hraw)]; [by left|].
      right. exists k, raw. split; [apply elem_of_cons; by right|done].
    + intros [Hu|(k & raw & [[= -> ->]|Hin]%elem_of_cons & Hraw)]; [by left|congruence|].
      right. eauto.
Qed.

Lemma attendanceRows_used_iff rows : forall (m : gmap string Z) (U : gset Z) u,
  u ∈ snd (fold_left attendanceIdRow rows (m, U)) <->
  u ∈ U \/ exists row,
             row ∈ rows /\ (1 < length row)%nat /\ extractNumericBel (cell row 0) = Some u.
Proof.
  induction rows as [|row rows IH]; intros m U u; simpl.
  { split; [by left|]. intros [?|(row & H & _)]; [done|]. by apply elem_of_nil in H. }
  destruct (1 <? length row)%nat eqn:Hlen.
  - apply Nat.ltb_lt in Hlen.
    destruct (extractNumericBel (cell row 0)) as [id|] eqn:Hid; rewrite IH.
    + rewrite elem_of_union, elem_of_singleton. split.
      * intros [[->|Hu]|(row' & Hin & Hl & Hraw)].
        -- right. exists row. split; [apply elem_of_cons; by left|done].
        -- by left.
        -- right. exists row'. split; [apply elem_of_cons; by right|done].
      * intros [Hu|(row' & [->|Hin]%elem_of_cons & Hl & Hraw)].
        -- left. by right.
        -- left. left. congruence.
        -- right. eauto.
    + split.
      * intros [Hu|(row' & Hin & Hl & Hraw)]; [by left|].
        right. exists row'. split; [apply elem_of_cons; by right|done].
      * intros [Hu|(row' & [->|Hin]%elem_of_cons & Hl & Hraw)]; [by left|congruence|].
        right. eauto.
  - apply Nat.ltb_ge in Hlen. rewrite IH. split.
    + intros [Hu|(row' & Hin & Hl & Hraw)]; [by left|].
      right. exists row'. split; [apply elem_of_cons; by right|done].
    + intros [Hu|(row' & [->|Hin]%elem_of_cons & Hl & Hraw)]; [by left|lia|].
      right. eauto.
Qed.

Lemma collectIds_used_iff data u :
  u ∈ snd (collectIds data) <->
  (exists k raw, (k, raw) ∈ directoryObservations data /\ extractNumericBel raw = Some u)
  \/ (exists row,
        row ∈ attendanceDataRaw data /\ (1 < length row)%nat
        /\ extractNumericBel (cell row 0) = Some u).
Proof.
  unfold collectIds, directoryObservations.
  destruct (fold_left directoryRow (dataRows (dData data)) (∅, ∅)) as [m U] eqn:E.
  rewrite attendanceRows_used_iff.
  pose proof (directoryRows_used_iff (dataRows (dData data)) ∅ ∅ u) as Hd.
  rewrite E in Hd. simpl in Hd. rewrite Hd.
  split.
  - intros [[Hu|Hu]|Hu]; [by apply not_elem_of_empty in Hu|by left|by right].
  - intros [Hu|Hu]; [left; by right|by right].
Qed.

(** C3. Steps 1 and 2 read the Directory first, then Event Attendance, then
    Service Attendance.  The numeric id of every observation is added to the
    used-id set, and a match key is mapped only while it has no mapping: the
    map sends each key to the numeric id of its earliest observation in that
    order, so an id the Directory gives wins over one from Event Attendance,
    which wins over one from Service Attendance, while the ids that lose
    still are in the used-id set.  The set holds the numeric ids of the
    Directory's observations and those of the attendance rows, with or
    without a name, and nothing else. *)
Theorem collectIds_first_seen_wins data :
  collectIds data
  = fold_left attendanceIdRow (dataRows (sData data))
      (fold_left attendanceIdRow (dataRows (eData data))
         (fold_left directoryRow (dataRows (dData data)) (∅, ∅)))
  /\ (forall k raw id,
        (k, raw) ∈ observations data -> extractNumericBel raw = Some id ->
        id ∈ snd (collectIds data))
  /\ (forall k, fst (collectIds data) !! k = firstId k (observations data))
  /\ (forall k,
        fst (collectIds data) !! k
        = match firstId k (directoryObservations data) with
          | Some id => Some id
          | None =>
              match firstId k (eventObservations data) with
              | Some id => Some id
              | None => firstId k (serviceObservations data)
              end
          end)
  /\ (forall u,
        u ∈ snd (collectIds data) <->
        (exists k raw,
           (k, raw) ∈ directoryObservations data /\ extractNumericBel raw = Some u)
        \/ (exists row,
              row ∈ attendanceDataRaw data /\ (1 < length row)%nat
              /\ extractNumericBel (cell row 0) = Some u)).
Proof.
  split; [|split; [|split; [|split]]].
  - unfold collectIds, attendanceDataRaw. by rewrite fold_left_app.
  - apply collectIds_used.
  - apply collectIds_map.
  - intros k. rewrite collectIds_map. unfold observations. by rewrite !firstId_app.
  - apply collectIds_used_iff.
Qed.

(** ** The assignment loop *)

Lemma runAssignment_inv data :
  exists st,
    runAssignment data = Ok st
    /\ RunInv (highestFoundNum (allUsedCodes (initialRun data)))
         (allUsedCodes (initialRun data)) (belMap (initialRun data)) st.
Proof.
  unfold runAssignment. apply assignRows_inv; [|apply initialRun_inv].
  apply highestFoundNum_spec.
Qed.

Lemma reached_inv data pre st :
  assignRows (highestFoundNum (allUsedCodes (initialRun data))) (initialRun data) pre = Ok st ->
  RunInv (highestFoundNum (allUsedCodes (initialRun data)))
    (allUsedCodes (initialRun data)) (belMap (initialRun data)) st.
Proof.
  intros Hrun.
  destruct (assignRows_inv (highestFoundNum (allUsedCodes (initialRun data)))
              (allUsedCodes (initialRun data)) (belMap (initialRun data)) pre (initialRun data))
    as (st' & Hst' & Hinv); [apply highestFoundNum_spec|apply initialRun_inv|].
  congruence.
Qed.

(** ** What the formatted rows carry *)

Lemma pushResult_results st id row fr :
  fr ∈ results (pushResult st id row) <-> fr ∈ results st \/ formatRow id row = Some fr.
Proof.
  unfold pushResult. destruct (formatRow id row) as [fr'|]; simpl.
  - rewrite elem_of_app, list_elem_of_singleton. split.
    + intros [H| ->]; [by left|by right].
    + intros [H|[= ->]]; [by left|by right].
  - split; [auto|]. by intros [?|?].
Qed.

(** Processing a row keeps the mappings and the formatted rows there are,
    and leaves the name of the row mapped to the id its formatted row
    carries. *)
Lemma assignRow_keeps highest st row st' :
  assignRow highest st row = Ok st' ->
  (forall k id, belMap st !! k = Some id -> belMap st' !! k = Some id)
  /\ (forall fr, fr ∈ results st -> fr ∈ results st')
  /\ forall k,
       (2 <= length row)%nat -> truthy (normalize (cell row 1)) = Some k ->
       exists id, belMap st' !! k = Some id
                  /\ forall fr, formatRow id row = Some fr -> fr ∈ results st'.
Proof.
  unfold assignRow. destruct (length row <? 2)%nat eqn:Hlen.
  { intros [= <-]. split; [done|]. split; [done|]. apply Nat.ltb_lt in Hlen. lia. }
  destruct (truthy (normalize (cell row 1))) as [name|].
  2:{ intros [= <-]. split; [done|]. split; [done|]. done. }
  destruct (belMap st !! name) as [numericBel|] eqn:Hname.
  - intros [= <-]. destruct (pushResult_fields st numericBel row) as (Hm & _).
    split; [by rewrite Hm|]. split.
    + intros fr Hfr. apply pushResult_results. by left.
    + intros k _ [= <-]. exists numericBel. split; [by rewrite Hm|].
      intros fr Hfr. apply pushResult_results. by right.
  - destruct (generateBEL highest (allUsedCodes st) (codeCounter st))
      as [[[numericBel used] counter]| |]; try discriminate.
    intros [= <-].
    match goal with |- context [pushResult ?s _ _] => set (st1 := s) end.
    destruct (pushResult_fields st1 numericBel row) as (Hm & _).
    split; [|split].
    + intros k id Hk. rewrite Hm. simpl. rewrite lookup_insert_ne; [done|congruence].
    + intros fr Hfr. apply pushResult_results. by left.
    + intros k _ [= <-]. exists numericBel. split.
      * rewrite Hm. simpl. apply lookup_insert_eq.
      * intros fr Hfr. apply pushResult_results. by right.
Qed.

Lemma assignRows_keeps highest rows : forall st st',
  assignRows highest st rows = Ok st' ->
  (forall k id, belMap st !! k = Some id -> belMap st' !! k = Some id)
  /\ (forall fr, fr ∈ results st -> fr ∈ results st')
  /\ forall row k,
       row ∈ rows -> (2 <= length row)%nat -> truthy (normalize (cell row 1)) = Some k ->
       exists id, belMap st' !! k = Some id
                  /\ forall fr, formatRow id row = Some fr -> fr ∈ results st'.
Proof.
  induction rows as [|row rows IH]; intros st st'; simpl.
  { intros [= <-]. split; [done|]. split; [done|]. intros row k Hrow. by apply elem_of_nil in Hrow. }
  destruct (assignRow highest st row) as [st1| |] eqn:Hrow; simpl; try discriminate.
  intros Hrows. destruct (assignRow_keeps _ _ _ _ Hrow) as (Hm1 & Hr1 & Hid1).
  destruct (IH _ _ Hrows) as (Hm & Hr & Hid).
  split; [by auto|]. split; [by auto|].
  intros row' k [->|Hin]%elem_of_cons Hlen Hk; [|by eauto].
  destruct (Hid1 k Hlen Hk) as (id & Hmap & Hfr). exists id. split; [by auto|].
  intros fr Hfmt. by auto.
Qed.




(** ** Aggregation: the tallies *)

Lemma tally_subsets currentYear currentMonth currentQuarter records : forall acc,
  monthEvents acc ⊆ uniqueEvents acc -> quarterEvents acc ⊆ uniqueEvents acc ->
  let t := fold_left (tallyRecord currentYear currentMonth currentQuarter) records acc in
  monthEvents t ⊆ uniqueEvents t /\ quarterEvents t ⊆ uniqueEvents t.
Proof.
  induction records as [|r records IH]; intros acc Hm Hq; simpl; [done|].
  apply IH; simpl.
  - destruct ((rec_year r =? currentYear) && (rec_month r =? currentMonth)).
    + by apply union_mono_l.
    + etrans; [exact Hm|]. apply union_subseteq_r.
  - destruct ((rec_year r =? currentYear) && (rec_quarter r =? currentQuarter)).
    + by apply union_mono_l.
    + etrans; [exact Hq|]. apply union_subseteq_r.
Qed.

Lemma summarize_bounds currentYear currentMonth currentQuarter group :
  let s := summarize currentYear currentMonth currentQuarter group in
  (sum_quarterEvents s <= sum_totalUniqueEvents s)%nat
  /\ (sum_monthEvents s <= sum_totalUniqueEvents s)%nat.
Proof.
  destruct group as [bel records]. simpl.
  destruct (tally_subsets currentYear currentMonth currentQuarter records
              {| uniqueEvents := ∅; monthEvents := ∅; quarterEvents := ∅; volunteerCount := 0 |})
    as [Hm Hq]; [done|done|].
  split; by apply subseteq_size.
Qed.

(** C4. In every summary row the total of unique events is at least the
    quarter count and at least the month count. *)
Theorem totalUniqueEvents_bounds now :
  (forall rawData s,
     s ∈ aggregate now rawData ->
     (sum_quarterEvents s <= sum_totalUniqueEvents s)%nat
     /\ (sum_monthEvents s <= sum_totalUniqueEvents s)%nat)
  /\ (forall data summary s,
        calculateAttendanceStats now data = Ok summary -> s ∈ summary ->
        (sum_quarterEvents s <= sum_totalUniqueEvents s)%nat
        /\ (sum_monthEvents s <= sum_totalUniqueEvents s)%nat).
Proof.
  assert (Hagg : forall rawData s,
            s ∈ aggregate now rawData ->
            (sum_quarterEvents s <= sum_totalUniqueEvents s)%nat
            /\ (sum_monthEvents s <= sum_totalUniqueEvents s)%nat).
  { intros rawData s Hs. unfold aggregate in Hs.
    apply list_elem_of_In, in_map_iff in Hs as (group & <- & _).
    apply summarize_bounds. }
  split; [exact Hagg|].
  intros data summary s Hrun Hs. unfold calculateAttendanceStats in Hrun.
  destruct (matchOrAssignBelCodes data) as [rawData| |]; simpl in Hrun; try discriminate.
  destruct rawData as [|row rawData].
  - injection Hrun as <-. by apply elem_of_nil in Hs.
  - injection Hrun as <-. by eapply Hagg.
Qed.

(** ** Aggregation: the groups *)

Lemma recordOfRow_timestamp row :
  parseTimestamp (cell row 10) = None -> recordOfRow row = None.
Proof.
  intros H. unfold recordOfRow. destruct (length row <? 11)%nat; [done|]. by rewrite H.
Qed.

Lemma groupRow_skipped grouped row : survives row = false -> groupRow grouped row = grouped.
Proof. unfold survives, groupRow. by destruct (recordOfRow row) as [[]|]. Qed.

Lemma groupRows_filter (keep : list value -> bool) rawData :
  (forall row, keep row = false -> survives row = false) ->
  forall grouped,
    fold_left groupRow (List.filter keep rawData) grouped = fold_left groupRow rawData grouped.
Proof.
  intros Hkeep. induction rawData as [|row rawData IH]; intros grouped; simpl; [done|].
  destruct (keep row) eqn:E; simpl; [apply IH|].
  rewrite (groupRow_skipped _ _ (Hkeep _ E)). apply IH.
Qed.

Lemma pushRecord_lookup key record grouped k :
  lookupGroup k (pushRecord key record grouped)
  = if decide (key = k)
    then Some (default [] (lookupGroup k grouped) ++ [record])%list
    else lookupGroup k grouped.
Proof.
  induction grouped as [|[k' records] rest IH]; simpl.
  - destruct (decide (key = k)); done.
  - destruct (decide (k' = key)) as [->|Hne]; simpl.
    + destruct (decide (key = k)); done.
    + destruct (decide (k' = k)) as [->|Hne']; [|exact IH].
      destruct (decide (key = k)); [congruence|done].
Qed.

(** The group found under a key holds the records of the surviving rows of
    that key, in input order; there is no group without such a row. *)
Lemma fold_groupRow_lookup rawData k : forall grouped,
  lookupGroup k (fold_left groupRow rawData grouped)
  = match lookupGroup k grouped, recordsFor k rawData with
    | None, [] => None
    | o, records => Some (default [] o ++ records)%list
    end.
Proof.
  induction rawData as [|row rawData IH]; intros grouped; simpl.
  - destruct (lookupGroup k grouped); simpl; [by rewrite app_nil_r|done].
  - rewrite IH. unfold groupRow.
    destruct (recordOfRow row) as [[key record]|]; [|done].
    rewrite pushRecord_lookup.
    destruct (decide (key = k)) as [->|Hne]; [|done].
    destruct (lookupGroup k grouped) as [rs|]; simpl.
    + rewrite <- app_assoc. simpl. by destruct (recordsFor k rawData).
    + done.
Qed.

Lemma groupRows_lookup rawData k :
  lookupGroup k (groupRows rawData)
  = match recordsFor k rawData with [] => None | records => Some records end.
Proof. unfold groupRows. rewrite fold_groupRow_lookup. simpl. by destruct (recordsFor k rawData). Qed.

Lemma pushRecord_keys key record grouped :
  NoDup (map fst grouped) -> NoDup (map fst (pushRecord key record grouped))
  /\ forall k, k ∈ map fst (pushRecord key record grouped) <-> k = key \/ k ∈ map fst grouped.
Proof.
  induction grouped as [|[k' records] rest IH]; simpl; intros Hnd.
  - split; [apply NoDup_singleton|]. intros k. rewrite list_elem_of_singleton, elem_of_nil. propositional.
  - apply NoDup_cons in Hnd as [Hk' Hnd].
    destruct (decide (k' = key)) as [->|Hne]; simpl.
    + split; [by apply NoDup_cons|]. intros k. rewrite elem_of_cons. propositional.
    + destruct (IH Hnd) as [IH1 IH2]. split.
      * apply NoDup_cons. split; [|done]. rewrite IH2. propositional.
      * intros k. rewrite !elem_of_cons, IH2. propositional.
Qed.

Lemma fold_groupRow_NoDup rawData : forall grouped,
  NoDup (map fst grouped) -> NoDup (map fst (fold_left groupRow rawData grouped)).
Proof.
  induction rawData as [|row rawData IH]; intros grouped Hnd; simpl; [done|].
  apply IH. unfold groupRow. destruct (recordOfRow row) as [[key record]|]; [|done].
  by apply pushRecord_keys.
Qed.

Lemma lookupGroup_NoDup grouped k records :
  NoDup (map fst grouped) -> (k, records) ∈ grouped -> lookupGroup k grouped = Some records.
Proof.
  induction grouped as [|[k' rs] rest IH]; simpl; intros Hnd Hin.
  - by apply elem_of_nil in Hin.
  - apply NoDup_cons in Hnd as [Hk' Hnd].
    apply elem_of_cons in Hin as [[= <- <-]|Hin].
    + by destruct (decide (k = k)).
    + destruct (decide (k' = k)) as [->|Hne]; [|by apply IH].
      exfalso. apply Hk'. apply list_elem_of_In, in_map_iff. exists (k, records).
      split; [done|]. by apply list_elem_of_In.
Qed.

Lemma groupRows_elem rawData k records :
  (k, records) ∈ groupRows rawData -> records = recordsFor k rawData /\ records <> [].
Proof.
  intros Hin. apply lookupGroup_NoDup in Hin.
  - rewrite groupRows_lookup in Hin. destruct (recordsFor k rawData); [done|].
    injection Hin as <-. done.
  - apply fold_groupRow_NoDup. apply NoDup_nil. done.
Qed.

Lemma recordsFor_elem k rawData r :
  r ∈ recordsFor k rawData <-> exists row, row ∈ rawData /\ recordOfRow row = Some (k, r).
Proof.
  induction rawData as [|row rawData IH]; simpl.
  - rewrite elem_of_nil. split; [done|]. intros (row & Hin & _). by apply elem_of_nil in Hin.
  - destruct (recordOfRow row) as [[key record]|] eqn:E.
    + destruct (decide (key = k)) as [->|Hne].
      * rewrite elem_of_cons, IH. split.
        -- intros [->|(row' & Hin & Hrow')].
           ++ exists row. split; [apply elem_of_cons; by left|done].
           ++ exists row'. split; [apply elem_of_cons; by right|done].
        -- intros (row' & [->|Hin]%elem_of_cons & Hrow').
           ++ left. congruence.
           ++ right. eauto.
      * rewrite IH. split.
        -- intros (row' & Hin & Hrow'). exists row'. split; [apply elem_of_cons; by right|done].
        -- intros (row' & [->|Hin]%elem_of_cons & Hrow'); [congruence|eauto].
    + rewrite IH. split.
      * intros (row' & Hin & Hrow'). exists row'. split; [apply elem_of_cons; by right|done].
      * intros (row' & [->|Hin]%elem_of_cons & Hrow'); [congruence|eauto].
Qed.

Lemma sum_bel_summarize currentYear currentMonth currentQuarter k records :
  sum_bel (summarize currentYear currentMonth currentQuarter (k, records)) = k.
Proof. reflexivity. Qed.


Lemma summaryFor_map currentYear currentMonth currentQuarter grouped k :
  summaryFor k (map (summarize currentYear currentMonth currentQuarter) grouped)
  = (fun records => summarize currentYear currentMonth currentQuarter (k, records))
      <$> lookupGroup k grouped.
Proof.
  induction grouped as [|[k' records] rest IH]; simpl; [done|].
  destruct (decide (k' = k)) as [->|Hne]; [done|exact IH].
Qed.

Lemma survives_validTimestamp row : validTimestamp row = false -> survives row = false.
Proof.
  unfold validTimestamp, survives. intros H.
  rewrite recordOfRow_timestamp; [done|]. by destruct (parseTimestamp (cell row 10)).
Qed.

Lemma recordOfRow_validTimestamp row k r :
  recordOfRow row = Some (k, r) -> validTimestamp row = true.
Proof.
  unfold recordOfRow, validTimestamp. destruct (length row <? 11)%nat; [done|].
  by destruct (parseTimestamp (cell row 10)).
Qed.

(** C7. A formatted row whose timestamp is not a valid date is left out
    before anything is computed: it changes no group, so the summaries are
    those of the rows with a valid timestamp alone.  Every summary row
    belongs to a key under which at least one row survived, and a key
    without a surviving row has no summary row. *)
Theorem invalid_timestamp_rows_excluded now rawData :
  aggregate now rawData = aggregate now (List.filter validTimestamp rawData)
  /\ (forall row grouped, validTimestamp row = false -> groupRow grouped row = grouped)
  /\ (forall s,
        s ∈ aggregate now rawData ->
        exists row r,
          row ∈ rawData /\ validTimestamp row = true /\ recordOfRow row = Some (sum_bel s, r))
  /\ (forall k,
        (forall row r, row ∈ rawData -> recordOfRow row <> Some (k, r)) ->
        summaryFor k (aggregate now rawData) = None).
Proof.
  split; [|split; [|split]].
  - unfold aggregate, groupRows. f_equal. symmetry.
    apply groupRows_filter, survives_validTimestamp.
  - intros row grouped H. by apply groupRow_skipped, survives_validTimestamp.
  - intros s Hs. unfold aggregate in Hs.
    apply list_elem_of_In, in_map_iff in Hs as ([k records] & <- & Hin).
    apply list_elem_of_In, groupRows_elem in Hin as [-> Hne].
    rewrite sum_bel_summarize.
    destruct (recordsFor k rawData) as [|r rest] eqn:E; [done|].
    assert (Hr : r ∈ recordsFor k rawData) by (rewrite E; apply elem_of_cons; by left).
    apply recordsFor_elem in Hr as (row & Hrow & Hrec).
    exists row, r. split; [done|]. split; [|done]. by eapply recordOfRow_validTimestamp.
  - intros k Hk. unfold aggregate. rewrite summaryFor_map, groupRows_lookup.
    destruct (recordsFor k rawData) as [|r rest] eqn:E; [done|].
    assert (Hr : r ∈ recordsFor k rawData) by (rewrite E; apply elem_of_cons; by left).
    apply recordsFor_elem in Hr as (row & Hrow & Hrec). by apply Hk in Hrec.
Qed.

(** ** Aggregation: independence of the input order *)

Lemma recordsFor_perm k rawData rawData' :
  Permutation rawData rawData' -> Permutation (recordsFor k rawData) (recordsFor k rawData').
Proof.
  induction 1 as [|row l l' _ IH|row1 row2 l|l l' l'' _ IH1 _ IH2]; simpl.
  - done.
  - destruct (recordOfRow row) as [[key r]|]; [|done].
    destruct (decide (key = k)); [by constructor|done].
  - destruct (recordOfRow row1) as [[k1 r1]|], (recordOfRow row2) as [[k2 r2]|];
      repeat case_decide; try done. apply perm_swap.
  - by etrans.
Qed.

Lemma tallyRecord_comm currentYear currentMonth currentQuarter acc x y :
  tallyRecord currentYear currentMonth currentQuarter
    (tallyRecord currentYear currentMonth currentQuarter acc x) y
  = tallyRecord currentYear currentMonth currentQuarter
      (tallyRecord currentYear currentMonth currentQuarter acc y) x.
Proof.
  unfold tallyRecord; simpl. f_equal.
  - apply set_eq. intros e. rewrite !elem_of_union. propositional.
  - destruct ((rec_year x =? currentYear) && (rec_month x =? currentMonth)),
      ((rec_year y =? currentYear) && (rec_month y =? currentMonth)); try done.
    apply set_eq. intros e. rewrite !elem_of_union. propositional.
  - destruct ((rec_year x =? currentYear) && (rec_quarter x =? currentQuarter)),
      ((rec_year y =? currentYear) && (rec_quarter y =? currentQuarter)); try done.
    apply set_eq. intros e. rewrite !elem_of_union. propositional.
  - destruct (rec_isVolunteer x && (rec_year x =? currentYear)),
      (rec_isVolunteer y && (rec_year y =? currentYear)); lia.
Qed.

Lemma tally_perm currentYear currentMonth currentQuarter records records' :
  Permutation records records' ->
  tally currentYear currentMonth currentQuarter records
  = tally currentYear currentMonth currentQuarter records'.
Proof.
  unfold tally. generalize
    {| uniqueEvents := ∅; monthEvents := ∅; quarterEvents := ∅; volunteerCount := 0 |}.
  intros acc Hperm. revert acc.
  induction Hperm as [|r l l' _ IH|x y l|l l' l'' _ IH1 _ IH2]; intros acc; simpl.
  - done.
  - apply IH.
  - by rewrite tallyRecord_comm.
  - by rewrite IH1.
Qed.

Lemma head_insertByDate r sorted :
  head (insertByDate r sorted)
  = match head sorted with
    | Some x => if rec_date x <=? rec_date r then Some r else Some x
    | None => Some r
    end.
Proof. destruct sorted as [|x rest]; simpl; [done|]. by destruct (rec_date x <=? rec_date r). Qed.

(** The record the sort puts first is one of the latest date. *)
Lemma head_sort_latest records m :
  head (sortByDateDesc records) = Some m ->
  m ∈ records /\ latestDate records = Some (rec_date m)
  /\ forall r, r ∈ records -> rec_date r <= rec_date m.
Proof.
  revert m; induction records as [|r records IH]; intros m; simpl; [done|].
  rewrite head_insertByDate.
  destruct (head (sortByDateDesc records)) as [x|] eqn:E.
  - destruct (IH x eq_refl) as (Hx & Hlatest & Hmax). rewrite Hlatest.
    destruct (rec_date x <=? rec_date r) eqn:Hle; intros [= <-].
    + apply Z.leb_le in Hle. split; [apply elem_of_cons; by left|].
      split; [f_equal; lia|].
      intros r' [->|Hr']%elem_of_cons; [lia|]. specialize (Hmax r' Hr'). lia.
    + apply Z.leb_gt in Hle. split; [apply elem_of_cons; by right|].
      split; [f_equal; lia|].
      intros r' [->|Hr']%elem_of_cons; [lia|]. by apply Hmax.
  - intros [= <-].
    assert (records = []) as ->.
    { destruct records as [|r' records]; [done|]. simpl in E.
      rewrite head_insertByDate in E. by destruct (head (sortByDateDesc records)) as [x|];
        [destruct (rec_date x <=? rec_date r')|]. }
    simpl. split; [apply elem_of_cons; by left|]. split; [done|].
    intros r' [->|Hr']%elem_of_cons; [lia|]. by apply elem_of_nil in Hr'.
Qed.

Lemma head_sort_nonempty r records : is_Some (head (sortByDateDesc (r :: records))).
Proof.
  simpl. rewrite head_insertByDate. destruct (head (sortByDateDesc records)) as [x|]; [|eauto].
  destruct (rec_date x <=? rec_date r); eauto.
Qed.

Lemma latestDate_spec records t :
  latestDate records = Some t <->
  (exists r, r ∈ records /\ rec_date r = t) /\ forall r, r ∈ records -> rec_date r <= t.
Proof.
  revert t; induction records as [|r records IH]; intros t; simpl.
  - split; [done|]. intros [(r & Hr & _) _]. by apply elem_of_nil in Hr.
  - destruct (latestDate records) as [t'|] eqn:E.
    + destruct (proj1 (IH t') eq_refl) as [(m & Hm & Hdate) Hmax]. split.
      * intros [= <-]. split.
        -- destruct (Z.max_spec (rec_date r) t') as [[_ ->]|[_ ->]].
           ++ exists m. split; [apply elem_of_cons; by right|done].
           ++ exists r. split; [apply elem_of_cons; by left|done].
        -- intros r' [->|Hr']%elem_of_cons; [lia|]. specialize (Hmax r' Hr'). lia.
      * intros [(m' & [->|Hm']%elem_of_cons & <-) Hmax'].
        -- f_equal. specialize (Hmax' m (ltac:(apply elem_of_cons; by right))).
           apply Z.max_l. lia.
        -- f_equal. pose proof (Hmax' r (ltac:(apply elem_of_cons; by left))).
           pose proof (Hmax' m (ltac:(apply elem_of_cons; by right))).
           specialize (Hmax m' Hm'). rewrite Z.max_r by lia. lia.
    + assert (records = []) as ->.
      { destruct records as [|r' records]; [done|]. simpl in E.
        by destruct (latestDate records). }
      split.
      * intros [= <-]. split; [exists r; split; [apply elem_of_cons; by left|done]|].
        intros r' [->|Hr']%elem_of_cons; [lia|]. by apply elem_of_nil in Hr'.
      * intros [(m & [->|Hm]%elem_of_cons & <-) _]; [done|]. by apply elem_of_nil in Hm.
Qed.

Lemma latestDate_perm records records' :
  Permutation records records' -> latestDate records = latestDate records'.
Proof.
  intros Hperm. destruct (latestDate records) as [t|] eqn:E.
  - symmetry. apply latestDate_spec. apply latestDate_spec in E as [(r & Hr & Hdate) Hmax].
    split.
    + exists r. split; [by rewrite <- Hperm|done].
    + intros r' Hr'. apply Hmax. by rewrite Hperm.
  - assert (records = []) as ->.
    { destruct records as [|r' records]; [done|]. simpl in E. by destruct (latestDate records). }
    apply Permutation_nil in Hperm. by subst.
Qed.


Lemma aggregate_lookup now rawData k :
  summaryFor k (aggregate now rawData)
  = match recordsFor k rawData with
    | [] => None
    | records =>
        Some (summarize (getFullYear now) (getMonth now) (getMonth now / 3) (k, records))
    end.
Proof.
  unfold aggregate. rewrite summaryFor_map, groupRows_lookup.
  by destruct (recordsFor k rawData).
Qed.

Lemma summarize_latest currentYear currentMonth currentQuarter k r records :
  let s := summarize currentYear currentMonth currentQuarter (k, r :: records) in
  exists m,
    head (sortByDateDesc (r :: records)) = Some m
    /\ m ∈ r :: records
    /\ latestDate (r :: records) = Some (rec_date m)
    /\ (forall r', r' ∈ r :: records -> rec_date r' <= rec_date m)
    /\ sum_fullName s = rec_name m
    /\ sum_lastDate s = VDate (Some (rec_date m))
    /\ sum_lastEventName s = beforeHyphen (rec_eventKey m).
Proof.
  intros s. destruct (head_sort_nonempty r records) as [m Hm].
  exists m. destruct (head_sort_latest _ _ Hm) as (Hin & Hlatest & Hmax).
  split; [done|]. split; [done|]. split; [done|]. split; [done|].
  subst s. unfold summarize. rewrite Hm. done.
Qed.



(** ** Event keys *)

Lemma toLowerCase_app a b : toLowerCase (a ++ b) = toLowerCase a ++ toLowerCase b.
Proof. induction a as [|c a IH]; simpl; [done|]. by rewrite IH. Qed.

Lemma toLowerCase_split s a b :
  toLowerCase s = a ++ b ->
  exists a' b', s = a' ++ b' /\ toLowerCase a' = a /\ toLowerCase b' = b.
Proof.
  revert s; induction a as [|c a IH]; intros s; simpl.
  - intros H. exists "", s. done.
  - destruct s as [|c' s]; simpl; [done|]. intros [= Hc Hs].
    destruct (IH s Hs) as (a' & b' & -> & Ha & Hb).
    exists (String c' a'), b'. simpl. by rewrite Hc, Ha.
Qed.

Lemma startsWith_spec p s : startsWith p s = true <-> exists post, s = p ++ post.
Proof.
  revert s; induction p as [|a p IH]; intros s; simpl.
  - split; [eauto|done].
  - destruct s as [|b s].
    + split; [done|]. by intros [post ?].
    + rewrite andb_true_iff, IH, Ascii.eqb_eq. split.
      * intros [-> [post ->]]. eauto.
      * intros [post [= -> ->]]. eauto.
Qed.

Lemma includes_spec s p : includes s p = true <-> exists pre post, s = pre ++ p ++ post.
Proof.
  induction s as [|c s IH].
  - simpl. rewrite orb_false_r, startsWith_spec. split.
    + intros [post ->]. by exists "", post.
    + intros (pre & post & H). destruct pre; simpl in H; [eauto|done].
  - cbn [includes]. rewrite orb_true_iff, startsWith_spec, IH. split.
    + intros [[post ->]|(pre & post & ->)].
      * by exists "", post.
      * by exists (String c pre), post.
    + intros (pre & post & H). destruct pre as [|c' pre]; simpl in H.
      * left. eauto.
      * right. injection H as -> ->. eauto.
Qed.

Lemma testSundayService_spec s :
  testSundayService s = true <-> containsIgnoringCase s "sunday service".
Proof.
  unfold testSundayService, containsIgnoringCase. rewrite includes_spec. split.
  - intros (pre & post & H).
    apply toLowerCase_split in H as (pre' & rest & -> & _ & H).
    apply toLowerCase_split in H as (mid & post' & -> & Hmid & _). eauto.
  - intros (pre & mid & post & -> & <-).
    exists (toLowerCase pre), (toLowerCase post). by rewrite !toLowerCase_app.
Qed.

(** C6, as the code has it. The key of an event is "sunday service-"
    followed by the local calendar day of its date exactly when the event
    name is a string that contains "sunday service" in any letter case, as
    the literal "Sunday Service" does; it then depends on the date through
    the day only.  For every other event the key is the event name, a
    hyphen and the event id, with "UnknownEvent" for a name and "UnknownID"
    for an id that is not a string. *)
Theorem eventKey_cases eventName eventId date :
  (forall s,
     eventName = VStr s -> containsIgnoringCase s "sunday service" ->
     eventKeyOf eventName eventId date = "sunday service-" ++ dayString (localDay date))
  /\ ((forall s, eventName = VStr s -> ~ containsIgnoringCase s "sunday service") ->
      eventKeyOf eventName eventId date
      = match eventName with VStr s => s | _ => "UnknownEvent" end
        ++ "-" ++ match eventId with VStr s => s | _ => "UnknownID" end)
  /\ eventKeyOf (VStr "Sunday Service") eventId date
     = "sunday service-" ++ dayString (localDay date)
  /\ (forall s date',
        eventName = VStr s -> containsIgnoringCase s "sunday service" ->
        localDay date' = localDay date ->
        eventKeyOf eventName eventId date' = eventKeyOf eventName eventId date).
Proof.
  assert (Hyes : forall s d,
            containsIgnoringCase s "sunday service" ->
            eventKeyOf (VStr s) eventId d = "sunday service-" ++ dayString (localDay d)).
  { intros s d Hs. apply testSundayService_spec in Hs. unfold eventKeyOf. by rewrite Hs. }
  split; [|split; [|split]].
  - intros s -> Hs. by apply Hyes.
  - intros Hno. unfold eventKeyOf. destruct eventName as [| | | |s|]; try done.
    destruct (testSundayService s) eqn:E; [|done].
    apply testSundayService_spec in E. by apply Hno in E.
  - reflexivity.
  - intros s date' -> Hs Hday. by rewrite !Hyes, Hday.
Qed.


(** ** Activity levels *)

Lemma stringToNumber_blank s : trim s = "" -> stringToNumber s = Fin 0.
Proof. intros H. unfold stringToNumber. by rewrite H. Qed.

Lemma trim_empty : trim "" = "".
Proof. reflexivity. Qed.

(** On a cell of a sheet the test of the script holds exactly for a blank
    cell and for text that is not a numeral. *)
Lemma effectivelyBlankOrInvalid_sheet v :
  sheetValue v ->
  effectivelyBlankOrInvalid v (toNumber v) = Ok (blankOrNonNumericText v).
Proof.
  destruct v as [| |b|[q| | |]|s|[t|]]; try done; intros _.
  - destruct b; simpl; by rewrite ?andb_false_r.
  - simpl. by rewrite ?andb_false_r.
  - destruct s as [|c s]; [done|].
    unfold effectivelyBlankOrInvalid, blankOrNonNumericText.
    change (toString (VStr (String c s))) with (String c s).
    change (toNumber (VStr (String c s))) with (stringToNumber (String c s)).
    rewrite (bool_decide_eq_false_2 (String c s = "")) by done. simpl orb.
    destruct (decide (trim (String c s) = "")) as [E|E].
    + rewrite (stringToNumber_blank _ E), bool_decide_eq_true_2 by done. done.
    + rewrite bool_decide_eq_false_2 by done. done.
  - simpl. by rewrite ?andb_false_r.
Qed.

Lemma geNumber_Fin q k : geNumber (Fin q) k = true <-> (inject_Z k <= q)%Q.
Proof. apply Qle_bool_iff. Qed.



(** On cells of a sheet the row function does not throw, and the loop writes
    for each row the label of its two cells. *)
Lemma activityLevel_total rawValueE rawValueK :
  sheetValue rawValueE -> sheetValue rawValueK ->
  exists label, activityLevel rawValueE rawValueK = Ok label.
Proof.
  intros HE HK. unfold activityLevel.
  rewrite (effectivelyBlankOrInvalid_sheet _ HE), (effectivelyBlankOrInvalid_sheet _ HK).
  simpl bindR.
  destruct (blankOrNonNumericText rawValueE && blankOrNonNumericText rawValueK); [eauto|].
  destruct (geNumber _ 12); [eauto|]. destruct (geNumber _ 3); eauto.
Qed.

Lemma activityLevels_rows valuesE : forall valuesK,
  length valuesE = length valuesK ->
  Forall (fun row => sheetValue (cell row 0)) valuesE ->
  Forall (fun row => sheetValue (cell row 0)) valuesK ->
  exists labels,
    activityLevels valuesE valuesK = Ok (map (fun label => [VStr label]) labels)
    /\ length labels = length valuesE
    /\ forall (i : nat) rowE rowK label,
         valuesE !! i = Some rowE -> valuesK !! i = Some rowK -> labels !! i = Some label ->
         activityLevel (cell rowE 0) (cell rowK 0) = Ok label.
Proof.
  induction valuesE as [|rowE valuesE IH]; intros valuesK Hlen HE HK.
  { exists []. split; [done|]. split; [done|]. intros i ? ? ? Hi. done. }
  destruct valuesK as [|rowK valuesK]; [done|].
  apply Forall_cons in HE as [HE HEs]. apply Forall_cons in HK as [HK HKs].
  destruct (activityLevel_total _ _ HE HK) as [label Hlabel].
  destruct (IH valuesK) as (labels & Hrun & Hlabels & Hrows); [by injection Hlen|done|done|].
  exists (label :: labels). simpl. rewrite Hlabel, Hrun. simpl.
  split; [done|]. split; [by rewrite Hlabels|].
  intros [|i] rowE' rowK' label'; simpl.
  - by intros [= <-] [= <-] [= <-].
  - apply Hrows.
Qed.

(** ** Name normalisation *)

Lemma lowerChar_not_upper c : isUpper (lowerChar c) = false.
Proof. each_char c; vm_compute; reflexivity. Qed.

Lemma lowerChar_space c : isWhiteSpace (lowerChar c) = isWhiteSpace c.
Proof. each_char c; vm_compute; reflexivity. Qed.

Lemma lowerChar_fixed c : isUpper c = false -> lowerChar c = c.
Proof. unfold lowerChar. by intros ->. Qed.

Lemma toLowerCase_no_upper s : allChars (fun c => negb (isUpper c)) (toLowerCase s) = true.
Proof. induction s as [|c s IH]; simpl; [done|]. by rewrite lowerChar_not_upper, IH. Qed.

Lemma toLowerCase_idemp s : toLowerCase (toLowerCase s) = toLowerCase s.
Proof.
  induction s as [|c s IH]; simpl; [done|].
  by rewrite IH, (lowerChar_fixed _ (lowerChar_not_upper c)).
Qed.

Lemma toLowerCase_startsWithSpace s : startsWithSpace (toLowerCase s) = startsWithSpace s.
Proof. destruct s as [|c s]; simpl; [done|apply lowerChar_space]. Qed.

Lemma toLowerCase_endsWithSpace s : endsWithSpace (toLowerCase s) = endsWithSpace s.
Proof.
  induction s as [|c s IH]; [done|].
  destruct s as [|c' s]; [apply lowerChar_space|]. exact IH.
Qed.

Lemma trimStart_spec s :
  exists pre, s = pre ++ trimStart s /\ allChars isWhiteSpace pre = true
              /\ startsWithSpace (trimStart s) = false.
Proof.
  induction s as [|c s (pre & IH & Hpre & Hstart)]; simpl.
  - by exists "".
  - destruct (isWhiteSpace c) eqn:E.
    + exists (String c pre). simpl. rewrite E, Hpre.
      split; [exact (f_equal (String c) IH)|done].
    + exists "". simpl. by rewrite E.
Qed.

Lemma trimEnd_spec s :
  exists post, s = trimEnd s ++ post /\ allChars isWhiteSpace post = true
               /\ endsWithSpace (trimEnd s) = false.
Proof.
  induction s as [|c s (post & IH & Hpost & Hend)]; simpl.
  - by exists "".
  - destruct (trimEnd s) as [|c' r] eqn:E.
    + destruct (isWhiteSpace c) eqn:Ec.
      * exists (String c post). simpl. rewrite Ec, Hpost.
        split; [exact (f_equal (String c) IH)|done].
      * exists post. simpl. rewrite Ec.
        split; [exact (f_equal (String c) IH)|done].
    + exists post. split; [exact (f_equal (String c) IH)|]. split; [done|]. exact Hend.
Qed.

Lemma trimEnd_startsWithSpace s :
  startsWithSpace s = false -> startsWithSpace (trimEnd s) = false.
Proof.
  destruct s as [|c s]; simpl; [done|]. intros E.
  destruct (trimEnd s); [by rewrite E|done].
Qed.

(** [trim] takes white space off both ends and nothing else. *)
Lemma trim_spec s :
  exists pre post,
    s = pre ++ trim s ++ post
    /\ allChars isWhiteSpace pre = true /\ allChars isWhiteSpace post = true
    /\ startsWithSpace (trim s) = false /\ endsWithSpace (trim s) = false.
Proof.
  destruct (trimStart_spec s) as (pre & Hs & Hpre & Hstart).
  destruct (trimEnd_spec (trimStart s)) as (post & Ht & Hpost & Hend).
  exists pre, post. unfold trim. split; [by rewrite <- Ht|].
  split; [done|]. split; [done|]. split; [by apply trimEnd_startsWithSpace|done].
Qed.

Lemma trim_spaces s : allChars isWhiteSpace s = true -> trim s = "".
Proof.
  unfold trim. induction s as [|c s IH]; simpl; [done|].
  intros [Hc Hs]%andb_prop. rewrite Hc. by apply IH.
Qed.

(** C9. [normalize] is a function of its argument alone, defined on every
    value.  It takes the white space off both ends of the text of the value
    and puts the letters in lower case: the key has no white space at
    either end and no upper-case letter, and normalising a key again gives
    the same key.  For [null] and [undefined] the result is [undefined],
    for the empty text and for text of white space only it is the empty
    string; all of these are falsy, they are no key, and the callers leave
    such a row alone. *)
Theorem normalize_spec :
  (forall s, normalize (VStr s) = Some (toLowerCase (trim s)))
  /\ (forall s, exists pre post,
        s = pre ++ trim s ++ post
        /\ allChars isWhiteSpace pre = true /\ allChars isWhiteSpace post = true)
  /\ (forall v k,
        normalize v = Some k ->
        startsWithSpace k = false /\ endsWithSpace k = false
        /\ allChars (fun c => negb (isUpper c)) k = true
        /\ normalize (VStr k) = Some k)
  /\ (forall v, normalize v = None <-> v = VNull \/ v = VUndefined)
  /\ (forall s, allChars isWhiteSpace s = true -> normalize (VStr s) = Some "")
  /\ (forall v,
        v = VNull \/ v = VUndefined \/ v = VStr "" -> truthy (normalize v) = None)
  /\ (forall v,
        truthy (normalize v) = None <->
        normalize v = None \/ normalize v = Some "")
  /\ (forall st row highest,
        truthy (normalize (cell row 1)) = None ->
        assignRow highest st row = Ok st
        /\ fst (attendanceIdRow (belMap st, allUsedCodes st) row) = belMap st)
  /\ (forall st row,
        truthy (normalize (cell row 2)) = None -> directoryRow st row = st).
Proof.
  split; [done|].
  split; [intros s; destruct (trim_spec s) as (pre & post & ? & ? & ? & _); eauto|].
  split.
  { intros v k Hk.
    assert (Hform : exists s, k = toLowerCase (trim s)).
    { destruct v; simpl in Hk; try discriminate; injection Hk as <-; eauto. }
    destruct Hform as [s ->].
    destruct (trim_spec s) as (_ & _ & _ & _ & _ & Hstart & Hend).
    split; [by rewrite toLowerCase_startsWithSpace|].
    split; [by rewrite toLowerCase_endsWithSpace|].
    split; [apply toLowerCase_no_upper|].
    simpl. f_equal.
    assert (trim (toLowerCase (trim s)) = toLowerCase (trim s)) as ->;
      [|apply toLowerCase_idemp].
    set (t := toLowerCase (trim s)).
    assert (Hs : startsWithSpace t = false) by (subst t; by rewrite toLowerCase_startsWithSpace).
    assert (He : endsWithSpace t = false) by (subst t; by rewrite toLowerCase_endsWithSpace).
    clearbody t. unfold trim.
    assert (trimStart t = t) as ->.
    { destruct t as [|c t]; simpl in *; [done|]. by rewrite Hs. }
    clear Hs. induction t as [|c t IH]; simpl; [done|].
    destruct t as [|c' t].
    - simpl in *. by rewrite He.
    - rewrite IH by exact He. done. }
  split.
  { intros v. split.
    - destruct v; simpl; try discriminate; auto.
    - by intros [->| ->]. }
  split; [intros s Hs; simpl; by rewrite (trim_spaces s Hs)|].
  split; [by intros v [->|[->| ->]]|].
  split.
  { intros v. unfold truthy. destruct (normalize v) as [k|].
    - destruct (decide (k = "")) as [->|Hne].
      + split; [by right|done].
      + split; [done|]. intros [?|[= ?]]; done.
    - split; [by left|done]. }
  split.
  - intros st row highest Hname. split.
    + unfold assignRow. rewrite Hname. by destruct (length row <? 2)%nat.
    + unfold attendanceIdRow. rewrite Hname.
      destruct (1 <? length row)%nat; [|done].
      by destruct (extractNumericBel (cell row 0)).
  - intros [m U] row Hname. unfold directoryRow. rewrite Hname.
    by destruct (2 <? length row)%nat.
Qed.



(** * Further properties *)

(** ** Printing and reading ids *)

Lemma uintValue_string d acc :
  digitsValue acc (NilEmpty.string_of_uint d) = uintValue acc d
  /\ allChars isDigit (NilEmpty.string_of_uint d) = true.
Proof.
  revert acc; induction d; intros acc; [done|..];
    cbn [NilEmpty.string_of_uint digitsValue uintValue allChars];
    match goal with
    | |- digitsValue (10 * acc + digitVal ?c) _ = uintValue ?a _ /\ _ =>
        replace (10 * acc + digitVal c) with a by (unfold digitVal; simpl; lia);
        change (isDigit c) with true; apply IHd
    end.
Qed.

Lemma uintValue_of_uint_acc d p : uintValue (Zpos p) d = Zpos (Pos.of_uint_acc d p).
Proof.
  revert p; induction d; intros p; simpl; try done;
    match goal with
    | |- uintValue ?z _ = Zpos (Pos.of_uint_acc _ ?q) =>
        replace z with (Zpos q) by lia; apply IHd
    end.
Qed.

Lemma uintValue_of_uint d : uintValue 0 d = Z.of_N (Pos.of_uint d).
Proof.
  induction d; simpl; try done;
    match goal with
    | |- uintValue ?z _ = Zpos (Pos.of_uint_acc _ ?q) =>
        replace z with (Zpos q) by lia; apply uintValue_of_uint_acc
    end.
Qed.

Lemma to_uint_nonnil n : N.to_uint n <> Decimal.Nil.
Proof. destruct n; simpl; [done|apply DecimalPos.Unsigned.to_uint_nonnil]. Qed.

(** The decimal text of a non-negative integer is made of digits and reads
    back as the integer. *)
Lemma decimalString_digits z :
  0 <= z ->
  matchesDigits (decimalString z) = true /\ decimalValue (decimalString z) = z.
Proof.
  intros Hz. unfold decimalString.
  destruct (z <? 0) eqn:E; [apply Z.ltb_lt in E; lia|].
  unfold NilZero.string_of_uint.
  pose proof (to_uint_nonnil (Z.to_N z)) as Hnil.
  destruct (N.to_uint (Z.to_N z)) as [|d|d|d|d|d|d|d|d|d|d] eqn:Hd; try done;
    rewrite <- Hd;
    (assert (Hs : NilEmpty.string_of_uint (N.to_uint (Z.to_N z)) <> "")
       by (rewrite Hd; discriminate));
    destruct (uintValue_string (N.to_uint (Z.to_N z)) 0) as [Hval Hdig];
    (split;
     [ unfold matchesDigits; destruct (NilEmpty.string_of_uint _); [done|exact Hdig]
     | pose proof (digitsValue_decimal (NilEmpty.string_of_uint (N.to_uint (Z.to_N z))) 0) as H;
       rewrite Hval, uintValue_of_uint in H;
       change (Pos.of_uint (N.to_uint (Z.to_N z))) with (N.of_uint (N.to_uint (Z.to_N z))) in H;
       rewrite DecimalN.Unsigned.of_to in H; lia ]).
Qed.

(** ** White space and letter case *)

Lemma trimStart_fixed s : startsWithSpace s = false -> trimStart s = s.
Proof. destruct s as [|c s]; simpl; [done|]. by intros ->. Qed.

Lemma trimEnd_fixed s : endsWithSpace s = false -> trimEnd s = s.
Proof.
  induction s as [|c s IH]; simpl; [done|].
  destruct s as [|c' s]; [simpl; by intros ->|].
  intros H. by rewrite IH.
Qed.

Lemma trim_fixed s : startsWithSpace s = false -> endsWithSpace s = false -> trim s = s.
Proof. intros Hs He. unfold trim. by rewrite (trimStart_fixed s Hs), trimEnd_fixed. Qed.

Lemma trim_idemp s : trim (trim s) = trim s.
Proof.
  destruct (trim_spec s) as (_ & _ & _ & _ & _ & Hs & He). by apply trim_fixed.
Qed.

Lemma trimStart_spaces_app pre s :
  allChars isWhiteSpace pre = true -> trimStart (pre ++ s) = trimStart s.
Proof.
  induction pre as [|c pre IH]; [done|].
  change (String c pre ++ s) with (String c (pre ++ s)). simpl.
  intros [Hc Hpre]%andb_prop. rewrite Hc. by apply IH.
Qed.

Lemma trimEnd_spaces post : allChars isWhiteSpace post = true -> trimEnd post = "".
Proof.
  induction post as [|c post IH]; simpl; [done|].
  intros [Hc Hpost]%andb_prop. by rewrite (IH Hpost), Hc.
Qed.

Lemma trimEnd_app_spaces s post :
  allChars isWhiteSpace post = true -> trimEnd (s ++ post) = trimEnd s.
Proof.
  intros Hpost. induction s as [|c s IH].
  - change ("" ++ post) with post. by apply trimEnd_spaces.
  - change (String c s ++ post) with (String c (s ++ post)). simpl. by rewrite IH.
Qed.

Lemma trimStart_spaces post : allChars isWhiteSpace post = true -> trimStart post = "".
Proof.
  induction post as [|c post IH]; simpl; [done|].
  intros [Hc Hpost]%andb_prop. rewrite Hc. by apply IH.
Qed.

Lemma trim_app_spaces s post :
  allChars isWhiteSpace post = true -> trim (s ++ post) = trim s.
Proof.
  intros Hpost. unfold trim. induction s as [|c s IH].
  - change ("" ++ post) with post. by rewrite (trimStart_spaces post Hpost).
  - change (String c s ++ post) with (String c (s ++ post)). simpl.
    destruct (isWhiteSpace c); [exact IH|].
    exact (trimEnd_app_spaces (String c s) post Hpost).
Qed.

(** Surrounding white space does not count. *)
Lemma trim_padded pre s post :
  allChars isWhiteSpace pre = true -> allChars isWhiteSpace post = true ->
  trim (pre ++ s ++ post) = trim s.
Proof.
  intros Hpre Hpost. rewrite <- (trim_app_spaces s post Hpost).
  unfold trim. by rewrite trimStart_spaces_app.
Qed.

Lemma trimStart_toLowerCase s : trimStart (toLowerCase s) = toLowerCase (trimStart s).
Proof.
  induction s as [|c s IH]; simpl; [done|].
  rewrite lowerChar_space. by destruct (isWhiteSpace c).
Qed.

Lemma trimEnd_toLowerCase s : trimEnd (toLowerCase s) = toLowerCase (trimEnd s).
Proof.
  induction s as [|c s IH]; simpl; [done|].
  rewrite IH, lowerChar_space. destruct (trimEnd s); simpl; [|done].
  by destruct (isWhiteSpace c).
Qed.

Lemma trim_toLowerCase s : trim (toLowerCase s) = toLowerCase (trim s).
Proof. unfold trim. by rewrite trimStart_toLowerCase, trimEnd_toLowerCase. Qed.

Lemma digits_no_space s :
  matchesDigits s = true -> startsWithSpace s = false /\ endsWithSpace s = false.
Proof.
  destruct s as [|c s]; [done|]. unfold matchesDigits. intros H.
  split.
  - simpl in *. apply andb_prop in H as [Hc _]. by apply isDigit_not_space.
  - revert c H. induction s as [|c' s IH]; intros c H; simpl in *.
    + apply andb_prop in H as [Hc _]. by apply isDigit_not_space.
    + apply andb_prop in H as [_ H]. by apply IH.
Qed.

Lemma trim_digits s : matchesDigits s = true -> trim s = s.
Proof. intros [Hs He]%digits_no_space. by apply trim_fixed. Qed.


(** X2. The id read from a text does not depend on white space around it
    nor on leading zeros. *)
Theorem extractNumericBel_padding :
  (forall s, extractNumericBel (VStr (trim s)) = extractNumericBel (VStr s))
  /\ (forall pre s post,
        allChars isWhiteSpace pre = true -> allChars isWhiteSpace post = true ->
        extractNumericBel (VStr (pre ++ s ++ post)) = extractNumericBel (VStr s))
  /\ (forall s,
        matchesDigits s = true ->
        extractNumericBel (VStr ("0" ++ s)) = extractNumericBel (VStr s)).
Proof.
  split; [|split].
  - intros s. simpl. by rewrite trim_idemp.
  - intros pre s post Hpre Hpost. simpl. by rewrite trim_padded.
  - intros s Hs.
    assert (Hs0 : matchesDigits ("0" ++ s) = true).
    { destruct s; [done|]. exact Hs. }
    simpl extractNumericBel. rewrite (trim_digits _ Hs), (trim_digits _ Hs0).
    destruct (decide ("0" ++ s = "")) as [E|_]; [done|].
    destruct (decide (s = "")) as [E|_]; [by rewrite E in Hs|].
    rewrite Hs, Hs0. simpl negb. cbv iota.
    rewrite (parseInt10_digits _ Hs), (parseInt10_digits _ Hs0).
    assert (decimalValue ("0" ++ s) = decimalValue s) as ->; [|done].
    change ("0" ++ s) with (String "0" s). cbn [decimalValue].
    change (digitVal "0") with 0. by rewrite Z.mul_0_l.
Qed.


(** ** The formatted rows of a run *)

Lemma formatRow_length id row fr : formatRow id row = Some fr -> length fr = 11%nat.
Proof.
  unfold formatRow.
  destruct ((11 <=? length row)%nat && negb (isUndefined (cell row 10))); [by intros [= <-]|].
  destruct ((8 <=? length row)%nat && negb (isUndefined (cell row 4))); [by intros [= <-]|done].
Qed.

Lemma formatRow_cells id row fr :
  formatRow id row = Some fr ->
  cell fr 0 = idValue id /\ cell fr 1 = cell row 1 /\ cell fr 10 <> VUndefined.
Proof.
  unfold formatRow.
  destruct ((11 <=? length row)%nat && negb (isUndefined (cell row 10))) eqn:E1.
  { intros [= <-]. apply andb_prop in E1 as [_ E1]. split; [done|]. split; [done|].
    unfold cell at 1; simpl. by destruct (cell row 10). }
  destruct ((8 <=? length row)%nat && negb (isUndefined (cell row 4))) eqn:E2; [|done].
  intros [= <-]. apply andb_prop in E2 as [_ E2]. split; [done|]. split; [done|].
  unfold cell at 1; simpl. by destruct (cell row 4).
Qed.

Lemma formattedWith_mono (m m' : gmap string Z) row :
  (forall k id, m !! k = Some id -> m' !! k = Some id) ->
  (forall k, rowKey row = Some k -> is_Some (m !! k)) ->
  formattedWith m' row = formattedWith m row.
Proof.
  intros Hmono Hkey. unfold formattedWith, rowKey in *.
  destruct (length row <? 2)%nat; [done|].
  destruct (truthy (normalize (cell row 1))) as [k|]; [|done].
  destruct (Hkey k eq_refl) as [id Hid]. by rewrite Hid, (Hmono _ _ Hid).
Qed.

(** A row adds to [results] its formatted row under the map as the row
    leaves it, and leaves its name mapped. *)
Lemma assignRow_result highest st row st' :
  assignRow highest st row = Ok st' ->
  results st' = (results st ++ option_list (formattedWith (belMap st') row))%list
  /\ (forall k, rowKey row = Some k -> is_Some (belMap st' !! k))
  /\ (forall e, e ∈ generated st' -> e ∈ generated st \/ rowKey row = Some (genName e)).
Proof.
  unfold assignRow, formattedWith, rowKey. destruct (length row <? 2)%nat.
  { intros [= <-]. rewrite app_nil_r. split; [done|]. split; [done|]. by left. }
  destruct (truthy (normalize (cell row 1))) as [name|].
  2:{ intros [= <-]. rewrite app_nil_r. split; [done|]. split; [done|]. by left. }
  destruct (belMap st !! name) as [numericBel|] eqn:Hname.
  - intros [= <-]. destruct (pushResult_fields st numericBel row) as (Hm & _ & _ & Hg).
    rewrite Hm, Hname, Hg. split; [|split; [|by left]].
    + unfold pushResult. destruct (formatRow numericBel row); simpl; [done|by rewrite app_nil_r].
    + intros k [= <-]. eauto.
  - destruct (generateBEL highest (allUsedCodes st) (codeCounter st))
      as [[[numericBel used] counter]| |]; try discriminate.
    intros [= <-].
    match goal with |- context [pushResult ?s _ _] => set (st1 := s) end.
    destruct (pushResult_fields st1 numericBel row) as (Hm & _ & _ & Hg).
    rewrite Hm, Hg. simpl. rewrite lookup_insert_eq. split; [|split].
    + unfold pushResult. destruct (formatRow numericBel row); simpl; [done|by rewrite app_nil_r].
    + intros k [= <-]. rewrite lookup_insert_eq. eauto.
    + intros e [He|He%list_elem_of_singleton]%elem_of_app; [by left|]. subst e. by right.
Qed.

Lemma assignRows_results highest rows : forall st st',
  assignRows highest st rows = Ok st' ->
  results st' = (results st ++ omap (formattedWith (belMap st')) rows)%list
  /\ forall e,
       e ∈ generated st' ->
       e ∈ generated st \/ exists row, row ∈ rows /\ rowKey row = Some (genName e).
Proof.
  induction rows as [|row rows IH]; intros st st'; simpl.
  { intros [= <-]. rewrite app_nil_r. split; [done|]. by left. }
  destruct (assignRow highest st row) as [st1| |] eqn:Hrow; simpl; try discriminate.
  intros Hrows. destruct (assignRow_result _ _ _ _ Hrow) as (Hres1 & Hkey1 & Hgen1).
  destruct (IH _ _ Hrows) as (Hres & Hgen).
  destruct (assignRows_keeps _ _ _ _ Hrows) as (Hmono & _).
  split.
  - rewrite Hres, Hres1, <- app_assoc. f_equal.
    rewrite (formattedWith_mono _ _ row Hmono Hkey1).
    by destruct (formattedWith (belMap st1) row).
  - intros e He. destruct (Hgen e He) as [He1|(row' & Hin & Hk)].
    + destruct (Hgen1 e He1) as [?|Hk]; [by left|].
      right. exists row. split; [apply elem_of_cons; by left|done].
    + right. exists row'. split; [apply elem_of_cons; by right|done].
Qed.

Lemma firstId_nonneg k obs id : firstId k obs = Some id -> 0 <= id.
Proof.
  induction obs as [|[k' raw] obs IH]; simpl; [done|].
  destruct (decide (k' = k)); [|exact IH].
  destruct (extractNumericBel raw) eqn:E; [|exact IH].
  intros [= <-]. by eapply extractNumericBel_nonneg.
Qed.

Lemma run_belMap_nonneg data st k id :
  runAssignment data = Ok st -> belMap st !! k = Some id -> 0 <= id.
Proof.
  intros Hrun Hk. destruct (runAssignment_inv data) as (st' & Hst' & Hinv).
  assert (st' = st) as -> by congruence.
  destruct (initialRun_fields data) as (Hm & _).
  pose proof (highestFoundNum_spec (allUsedCodes (initialRun data))) as (H0 & _).
  destruct Hinv as [_ _ I3 I4 _ _ _].
  destruct (I4 _ _ Hk) as [Hinit|[_ [U HU]]].
  - rewrite Hm, collectIds_map in Hinit. by eapply firstId_nonneg.
  - apply list_elem_of_lookup in HU as [i Hi]. destruct (I3 _ _ Hi) as [Hid _].
    unfold genId in Hid; simpl in Hid. lia.
Qed.

Lemma NoDup_genName (l : list (string * Z * gset Z)) (m : gmap string Z) :
  NoDup (map genId l) ->
  (forall e, e ∈ l -> m !! genName e = Some (genId e)) ->
  NoDup (map genName l).
Proof.
  induction l as [|e l IH]; intros Hnd Hm; [constructor|].
  simpl in *. apply NoDup_cons in Hnd as [Hne Hnd]. apply NoDup_cons. split.
  - intros (e' & Hname & He')%list_elem_of_In%in_map_iff. apply Hne.
    apply list_elem_of_In, in_map_iff. exists e'. split; [|done].
    apply list_elem_of_In in He'.
    pose proof (Hm e (ltac:(apply elem_of_cons; by left))) as H1.
    pose proof (Hm e' (ltac:(apply elem_of_cons; by right))) as H2.
    rewrite Hname in H2. congruence.
  - apply IH; [done|]. intros e' He'. apply Hm. apply elem_of_cons. by right.
Qed.





(** X6. Names that differ only in white space around them or in letter
    case have the same match key, and so the same id. *)
Theorem normalize_insensitive :
  (forall pre s post,
     allChars isWhiteSpace pre = true -> allChars isWhiteSpace post = true ->
     normalize (VStr (pre ++ s ++ post)) = normalize (VStr s))
  /\ (forall s s', toLowerCase s = toLowerCase s' -> normalize (VStr s) = normalize (VStr s'))
  /\ (forall (m : gmap string Z) row row',
        (2 <= length row)%nat -> (2 <= length row')%nat ->
        normalize (cell row 1) = normalize (cell row' 1) ->
        forall fr fr',
          formattedWith m row = Some fr -> formattedWith m row' = Some fr' ->
          cell fr 0 = cell fr' 0).
Proof.
  split; [|split].
  - intros pre s post Hpre Hpost. simpl. by rewrite trim_padded.
  - intros s s' Hcase. simpl. by rewrite <- !trim_toLowerCase, Hcase.
  - intros m row row' Hlen Hlen' Hname fr fr'. unfold formattedWith.
    apply Nat.ltb_ge in Hlen, Hlen'. rewrite Hlen, Hlen', Hname.
    destruct (truthy (normalize (cell row' 1))) as [k|]; [|done].
    destruct (m !! k) as [id|]; [|done].
    intros (-> & _)%formatRow_cells (-> & _)%formatRow_cells. done.
Qed.



(** ** Aggregation: what a summary row holds *)

Lemma recordOfRow_fields row k r :
  recordOfRow row = Some (k, r) ->
  (11 <= length row)%nat
  /\ k = toString (cell row 0)
  /\ parseTimestamp (cell row 10) = Some (rec_date r)
  /\ rec_name r = cell row 1
  /\ rec_eventKey r = eventKeyOf (cell row 2) (cell row 3) (rec_date r)
  /\ rec_month r = getMonth (rec_date r)
  /\ rec_quarter r = rec_month r / 3
  /\ rec_year r = getFullYear (rec_date r)
  /\ rec_isVolunteer r
     = match cell row 9 with VStr s => includes (toLowerCase s) "volunteer" | _ => false end
  /\ rec_isSundayService r
     = match cell row 2 with VStr s => testSundayService s | _ => false end.
Proof.
  unfold recordOfRow. destruct (length row <? 11)%nat eqn:Hlen; [done|].
  apply Nat.ltb_ge in Hlen.
  destruct (parseTimestamp (cell row 10)) as [date|]; [|done].
  intros [= <- <-]. simpl. done.
Qed.

Lemma records_quarter rawData k :
  Forall (fun r => rec_quarter r = rec_month r / 3) (recordsFor k rawData).
Proof.
  apply Forall_forall. intros r (row & _ & Hrow)%recordsFor_elem.
  by apply recordOfRow_fields in Hrow as (_ & _ & _ & _ & _ & _ & ? & _).
Qed.

(** The tallies in closed form. *)
Lemma fold_tally currentYear currentMonth currentQuarter records : forall acc,
  let t := fold_left (tallyRecord currentYear currentMonth currentQuarter) records acc in
  uniqueEvents t = list_to_set (map rec_eventKey records) ∪ uniqueEvents acc
  /\ monthEvents t
     = list_to_set (map rec_eventKey (List.filter (inMonth currentYear currentMonth) records))
       ∪ monthEvents acc
  /\ quarterEvents t
     = list_to_set
         (map rec_eventKey (List.filter (inQuarter currentYear currentQuarter) records))
       ∪ quarterEvents acc
  /\ volunteerCount t
     = volunteerCount acc
       + Z.of_nat (length (List.filter (volunteeredIn currentYear) records)).
Proof.
  induction records as [|r records IH]; intros acc; simpl.
  { rewrite !(left_id_L ∅ (∪)). split; [done|]. split; [done|]. split; [done|]. lia. }
  destruct (IH (tallyRecord currentYear currentMonth currentQuarter acc r))
    as (Hu & Hm & Hq & Hv).
  rewrite Hu, Hm, Hq, Hv. unfold inMonth, inQuarter, volunteeredIn. simpl.
  split; [|split; [|split]].
  - apply set_eq. intros e. rewrite !elem_of_union. propositional.
  - destruct ((rec_year r =? currentYear) && (rec_month r =? currentMonth)); simpl; [|done].
    apply set_eq. intros e. rewrite !elem_of_union. propositional.
  - destruct ((rec_year r =? currentYear) && (rec_quarter r =? currentQuarter)); simpl; [|done].
    apply set_eq. intros e. rewrite !elem_of_union. propositional.
  - destruct (rec_isVolunteer r && (rec_year r =? currentYear)); simpl; lia.
Qed.

Lemma size_list_to_set_le (l : list string) : (size (list_to_set l : gset string) <= length l)%nat.
Proof.
  induction l as [|x l IH].
  { rewrite list_to_set_nil, size_empty. done. }
  rewrite list_to_set_cons, size_union_alt, size_singleton. simpl.
  assert (size (list_to_set l ∖ {[x]} : gset string) <= size (list_to_set l : gset string))%nat.
  { apply subseteq_size. intros e He. apply elem_of_difference in He. by destruct He. }
  lia.
Qed.

Lemma filter_length_le {A} (f : A -> bool) (l : list A) :
  (length (List.filter f l) <= length l)%nat.
Proof. induction l as [|x l IH]; simpl; [done|]. destruct (f x); simpl; lia. Qed.

(** X8. The tallies of a group in closed form: the total is the number of
    distinct event keys of its records, the month and quarter counts are
    the numbers of distinct keys among the records of the current month
    and quarter of the current year, and the volunteer count is the number
    of records, not of distinct events, that volunteered in the current
    year. *)
Theorem tally_closed_form currentYear currentMonth currentQuarter records :
  let t := tally currentYear currentMonth currentQuarter records in
  uniqueEvents t = list_to_set (map rec_eventKey records)
  /\ monthEvents t
     = list_to_set (map rec_eventKey (List.filter (inMonth currentYear currentMonth) records))
  /\ quarterEvents t
     = list_to_set
         (map rec_eventKey (List.filter (inQuarter currentYear currentQuarter) records))
  /\ volunteerCount t
     = Z.of_nat (length (List.filter (volunteeredIn currentYear) records)).
Proof.
  unfold tally.
  destruct (fold_tally currentYear currentMonth currentQuarter records
              {| uniqueEvents := ∅; monthEvents := ∅; quarterEvents := ∅; volunteerCount := 0 |})
    as (Hu & Hm & Hq & Hv).
  simpl in *. rewrite Hu, Hm, Hq, Hv, !(right_id_L ∅ (∪)). done.
Qed.

Lemma tally_month_quarter currentYear currentMonth records :
  Forall (fun r => rec_quarter r = rec_month r / 3) records ->
  monthEvents (tally currentYear currentMonth (currentMonth / 3) records)
  ⊆ quarterEvents (tally currentYear currentMonth (currentMonth / 3) records).
Proof.
  intros Hq.
  destruct (fold_tally currentYear currentMonth (currentMonth / 3) records
              {| uniqueEvents := ∅; monthEvents := ∅; quarterEvents := ∅; volunteerCount := 0 |})
    as (_ & Hm & Hq' & _).
  unfold tally. rewrite Hm, Hq'. simpl. rewrite !(right_id_L ∅ (∪)).
  intros e He. apply elem_of_list_to_set in He. apply elem_of_list_to_set.
  apply list_elem_of_In, in_map_iff in He as (r & <- & Hr).
  apply filter_In in Hr as [Hr Hin].
  apply list_elem_of_In, in_map_iff. exists r. split; [done|]. apply filter_In.
  split; [done|]. rewrite Forall_forall in Hq. apply list_elem_of_In in Hr.
  specialize (Hq r Hr). unfold inMonth, inQuarter in *.
  apply andb_prop in Hin as [Hy Hmo]. apply Z.eqb_eq in Hmo.
  rewrite Hy, Hq, Hmo, Z.eqb_refl. done.
Qed.

Lemma aggregate_elem now rawData s :
  s ∈ aggregate now rawData ->
  recordsFor (sum_bel s) rawData <> []
  /\ s = summarize (getFullYear now) (getMonth now) (getMonth now / 3)
           (sum_bel s, recordsFor (sum_bel s) rawData).
Proof.
  intros Hs. unfold aggregate in Hs.
  apply list_elem_of_In, in_map_iff in Hs as ([k records] & <- & Hin).
  apply list_elem_of_In, groupRows_elem in Hin as [-> Hne].
  by rewrite sum_bel_summarize.
Qed.

(** X9. In every summary row the month count is at most the quarter count:
    an event of the current month is an event of the current quarter. *)
Theorem monthEvents_le_quarterEvents now rawData s :
  s ∈ aggregate now rawData -> (sum_monthEvents s <= sum_quarterEvents s)%nat.
Proof.
  intros Hs. apply aggregate_elem in Hs as [_ ->]. unfold summarize. simpl.
  apply subseteq_size, tally_month_quarter, records_quarter.
Qed.

(** X10. A summary row is never built from an empty group: its name, last
    date and last event are those of a surviving row of its key, the last
    date is a valid date, the total is at least 1 and at most the number
    of surviving rows of the key, and the volunteer count lies between 0
    and that number. *)
Theorem summary_of_surviving_rows now rawData s :
  s ∈ aggregate now rawData ->
  exists r,
    r ∈ recordsFor (sum_bel s) rawData
    /\ sum_fullName s = rec_name r
    /\ sum_lastDate s = VDate (Some (rec_date r))
    /\ sum_lastEventName s = beforeHyphen (rec_eventKey r)
    /\ latestDate (recordsFor (sum_bel s) rawData) = Some (rec_date r)
    /\ (1 <= sum_totalUniqueEvents s <= length (recordsFor (sum_bel s) rawData))%nat
    /\ 0 <= sum_volunteerCount s <= Z.of_nat (length (recordsFor (sum_bel s) rawData)).
Proof.
  intros Hs. apply aggregate_elem in Hs as [Hne Hs].
  destruct (recordsFor (sum_bel s) rawData) as [|r0 records] eqn:E; [done|].
  destruct (summarize_latest (getFullYear now) (getMonth now) (getMonth now / 3)
              (sum_bel s) r0 records)
    as (m & _ & Hin & Hlatest & _ & Hname & Hdate & Hevent).
  rewrite <- Hs in Hname, Hdate, Hevent.
  exists m. split; [done|]. split; [done|]. split; [done|]. split; [done|]. split; [done|].
  destruct (fold_tally (getFullYear now) (getMonth now) (getMonth now / 3) (r0 :: records)
              {| uniqueEvents := ∅; monthEvents := ∅; quarterEvents := ∅; volunteerCount := 0 |})
    as (Hu & _ & _ & Hv).
  cbv zeta in Hu, Hv. cbn [uniqueEvents volunteerCount] in Hu, Hv.
  rewrite (right_id_L ∅ (∪)) in Hu. rewrite Z.add_0_l in Hv.
  rewrite Hs. unfold summarize, tally. rewrite Hu, Hv.
  cbn [sum_totalUniqueEvents sum_volunteerCount].
  split.
  - split.
    + cbn [map]. rewrite list_to_set_cons, size_union_alt, size_singleton. lia.
    + etrans; [apply size_list_to_set_le|]. by rewrite length_map.
  - pose proof (filter_length_le (volunteeredIn (getFullYear now)) (r0 :: records)). lia.
Qed.


(** ** Aggregation: one row per key *)

Lemma pushRecord_fst key record grouped :
  map fst (pushRecord key record grouped)
  = if decide (key ∈ map fst grouped) then map fst grouped
    else (map fst grouped ++ [key])%list.
Proof.
  induction grouped as [|[k records] rest IH]; simpl.
  - destruct (decide (key ∈ [])) as [H|_]; [by apply elem_of_nil in H|done].
  - destruct (decide (k = key)) as [->|Hne]; simpl.
    + destruct (decide (key ∈ key :: map fst rest)) as [_|H]; [done|].
      exfalso. apply H. apply elem_of_cons. by left.
    + rewrite IH. destruct (decide (key ∈ map fst rest)) as [Hin|Hnin].
      * destruct (decide (key ∈ k :: map fst rest)) as [_|H]; [done|].
        exfalso. apply H. apply elem_of_cons. by right.
      * destruct (decide (key ∈ k :: map fst rest)) as [H|_]; [|done].
        apply elem_of_cons in H as [?|?]; congruence.
Qed.

Lemma fold_groupRow_fst rawData : forall grouped,
  map fst (fold_left groupRow rawData grouped)
  = fold_left (fun seen k => if decide (k ∈ seen) then seen else seen ++ [k])%list
      (omap groupKey rawData) (map fst grouped).
Proof.
  induction rawData as [|row rawData IH]; intros grouped; simpl; [done|].
  rewrite IH. unfold groupRow, groupKey at 2.
  destruct (recordOfRow row) as [[key record]|]; simpl; [|done].
  by rewrite pushRecord_fst.
Qed.

Lemma pushRecord_length key record grouped :
  (length (pushRecord key record grouped) <= S (length grouped))%nat.
Proof.
  induction grouped as [|[k rs] grouped IH]; simpl; [lia|].
  destruct (decide (k = key)); simpl; lia.
Qed.

Lemma fold_groupRow_length rawData : forall grouped,
  (length (fold_left groupRow rawData grouped) <= length grouped + length rawData)%nat.
Proof.
  induction rawData as [|row rawData IH]; intros grouped; simpl; [lia|].
  etrans; [apply IH|].
  assert (length (groupRow grouped row) <= S (length grouped))%nat; [|lia].
  unfold groupRow. destruct (recordOfRow row) as [[key record]|]; [|lia].
  apply pushRecord_length.
Qed.

(** X11. There is one summary row for each key that has a surviving row,
    and no other; the rows come in the order in which the keys first occur
    in the input, and each is the row found under its key. *)
Theorem one_summary_per_key now rawData :
  map sum_bel (aggregate now rawData) = firstKeys (omap groupKey rawData)
  /\ NoDup (map sum_bel (aggregate now rawData))
  /\ (forall k,
        k ∈ map sum_bel (aggregate now rawData) <->
        exists row r, row ∈ rawData /\ recordOfRow row = Some (k, r))
  /\ (forall s, s ∈ aggregate now rawData -> summaryFor (sum_bel s) (aggregate now rawData) = Some s)
  /\ (length (aggregate now rawData) <= length rawData)%nat.
Proof.
  assert (Hkeys : map sum_bel (aggregate now rawData) = map fst (groupRows rawData)).
  { unfold aggregate. rewrite map_map. apply map_ext. by intros [k records]. }
  assert (Hnd : NoDup (map fst (groupRows rawData))).
  { apply fold_groupRow_NoDup. constructor. }
  split; [|split; [|split; [|split]]].
  - rewrite Hkeys. unfold groupRows. by rewrite fold_groupRow_fst.
  - by rewrite Hkeys.
  - intros k. rewrite Hkeys. split.
    + intros ([k' records] & <- & Hin)%list_elem_of_In%in_map_iff. simpl.
      apply list_elem_of_In, groupRows_elem in Hin as [-> Hne].
      destruct (recordsFor k' rawData) as [|r rest] eqn:E; [done|].
      assert (Hr : r ∈ recordsFor k' rawData) by (rewrite E; apply elem_of_cons; by left).
      apply recordsFor_elem in Hr as (row & Hrow & Hrec). eauto.
    + intros (row & r & Hrow & Hrec).
      assert (Hr : r ∈ recordsFor k rawData) by (apply recordsFor_elem; eauto).
      pose proof (groupRows_lookup rawData k) as Hlook.
      destruct (recordsFor k rawData) as [|r0 rest]; [by apply elem_of_nil in Hr|].
      clear Hr. revert Hlook. generalize (groupRows rawData). intros grouped.
      induction grouped as [|[k' rs] grouped IH]; simpl; [done|].
      destruct (decide (k' = k)) as [->|Hne]; intros Hlook.
      * apply elem_of_cons. by left.
      * apply elem_of_cons. right. by apply IH.
  - intros s Hs. pose proof (aggregate_elem _ _ _ Hs) as [Hne Heq].
    rewrite aggregate_lookup. destruct (recordsFor (sum_bel s) rawData); [done|].
    by rewrite <- Heq.
  - unfold aggregate. rewrite length_map.
    exact (fold_groupRow_length rawData []).
Qed.


(** ** The last event name *)

Lemma beforeHyphen_app s x : beforeHyphen (s ++ "-" ++ x) = beforeHyphen s.
Proof.
  induction s as [|c s IH].
  - reflexivity.
  - change (String c s ++ "-" ++ x) with (String c (s ++ "-" ++ x)). simpl.
    destruct (Ascii.eqb c "-"); [done|]. by rewrite IH.
Qed.

Lemma beforeHyphen_noHyphen s : noHyphen s = true -> beforeHyphen s = s.
Proof.
  unfold noHyphen. induction s as [|c s IH]; simpl; [done|].
  intros [Hc Hs]%andb_prop. apply negb_true_iff in Hc. rewrite Hc. by rewrite IH.
Qed.

Lemma noHyphen_beforeHyphen s : noHyphen (beforeHyphen s) = true.
Proof.
  unfold noHyphen. induction s as [|c s IH]; simpl; [done|].
  destruct (Ascii.eqb c "-") eqn:E; [done|]. simpl. by rewrite E.
Qed.

(** X12. The last event name of a summary row is the part of the event key
    before its first hyphen: "sunday service", in lower case, for a Sunday
    service whatever its name was; for another event its name when the
    name has no hyphen, and only the part before the first hyphen when it
    has one; "UnknownEvent" when the name is not a string. *)
Theorem lastEventName_cases eventName eventId date :
  noHyphen (beforeHyphen (eventKeyOf eventName eventId date)) = true
  /\ (forall s,
        eventName = VStr s -> containsIgnoringCase s "sunday service" ->
        beforeHyphen (eventKeyOf eventName eventId date) = "sunday service")
  /\ (forall s,
        eventName = VStr s -> ~ containsIgnoringCase s "sunday service" ->
        beforeHyphen (eventKeyOf eventName eventId date) = beforeHyphen s
        /\ (noHyphen s = true -> beforeHyphen (eventKeyOf eventName eventId date) = s)
        /\ (forall a b,
              s = a ++ "-" ++ b -> noHyphen a = true ->
              beforeHyphen (eventKeyOf eventName eventId date) = a))
  /\ (isString eventName = false ->
      beforeHyphen (eventKeyOf eventName eventId date) = "UnknownEvent").
Proof.
  split; [apply noHyphen_beforeHyphen|]. split; [|split].
  - intros s -> Hs. apply testSundayService_spec in Hs. unfold eventKeyOf. rewrite Hs.
    reflexivity.
  - intros s -> Hs.
    assert (Hkey : beforeHyphen (eventKeyOf (VStr s) eventId date) = beforeHyphen s).
    { unfold eventKeyOf. destruct (testSundayService s) eqn:E.
      - by apply testSundayService_spec in E.
      - apply beforeHyphen_app. }
    split; [done|]. split.
    + intros Hno. by rewrite Hkey, beforeHyphen_noHyphen.
    + intros a b -> Ha. by rewrite Hkey, beforeHyphen_app, beforeHyphen_noHyphen.
  - intros Hstr. unfold eventKeyOf. destruct eventName; try done; apply beforeHyphen_app.
Qed.

(** ** From the formatted rows to the groups *)

Lemma toString_idValue z :
  0 <= z < 10 ^ 21 -> toString (idValue z) = decimalString z.
Proof.
  intros Hz. unfold idValue, toString, numberToString.
  assert (H1 : isIntegerQ (inject_Z z) = true) by (apply isIntegerQ_spec; by exists z).
  assert (H2 : Qle_bool (Qabs (inject_Z z)) (inject_Z (10 ^ 21 - 1)) = true).
  { apply Qle_bool_iff. change (Qabs (inject_Z z)) with (inject_Z (Z.abs z)).
    rewrite <- Zle_Qle. lia. }
  by rewrite H1, H2, Qfloor_Z.
Qed.

Lemma decimalString_inj z z' :
  0 <= z -> 0 <= z' -> decimalString z = decimalString z' -> z = z'.
Proof.
  intros Hz Hz' Heq.
  destruct (decimalString_digits z Hz) as [_ <-].
  destruct (decimalString_digits z' Hz') as [_ <-]. by rewrite Heq.
Qed.

Lemma recordOfRow_none row :
  (11 <= length row)%nat -> (recordOfRow row = None <-> parseTimestamp (cell row 10) = None).
Proof.
  intros Hlen. unfold recordOfRow. apply Nat.ltb_ge in Hlen. rewrite Hlen.
  by destruct (parseTimestamp (cell row 10)).
Qed.


(** X14. A row of the service shape, with fewer than 11 columns, is
    formatted as a "Sunday Service" without role, phone or form sheet, its
    timestamp taken from column E; when it survives it counts under the key
    of its local day and never as volunteering. *)
Theorem service_row_record id row fr :
  (length row < 11)%nat -> formatRow id row = Some fr ->
  fr = [idValue id; cell row 1; VStr "Sunday Service"; VStr "Service"; cell row 2; cell row 3;
        cell row 6; VStr ""; VStr ""; VStr ""; cell row 4]
  /\ (8 <= length row)%nat
  /\ forall k r,
       recordOfRow fr = Some (k, r) ->
       parseTimestamp (cell row 4) = Some (rec_date r)
       /\ rec_eventKey r = "sunday service-" ++ toDateString (rec_date r)
       /\ rec_isSundayService r = true
       /\ rec_isVolunteer r = false.
Proof.
  intros Hlen. unfold formatRow.
  assert ((11 <=? length row)%nat = false) as -> by (apply Nat.leb_gt; lia).
  rewrite andb_false_l.
  destruct (8 <=? length row)%nat eqn:H8; [|by rewrite andb_false_l].
  apply Nat.leb_le in H8. rewrite andb_true_l.
  destruct (negb (isUndefined (cell row 4))); [|done].
  intros [= <-]. split; [done|]. split; [done|].
  intros k r Hrec. apply recordOfRow_fields in Hrec
    as (_ & _ & Hdate & _ & Hkey & _ & _ & _ & Hvol & Hsun).
  split; [exact Hdate|]. split; [exact Hkey|]. split; [exact Hsun|exact Hvol].
Qed.


(** ** The activity levels written to the sheet *)

Lemma activityLevel_labels rawValueE rawValueK label :
  activityLevel rawValueE rawValueK = Ok label ->
  label = "" \/ label = "Core" \/ label = "Active" \/ label = "Inactive".
Proof.
  unfold activityLevel.
  destruct (effectivelyBlankOrInvalid rawValueE _) as [e| |]; [|done|done].
  destruct (effectivelyBlankOrInvalid rawValueK _) as [k| |]; [|done|done].
  simpl. destruct (e && k); [intros [= <-]; by left|].
  destruct (geNumber _ 12); [intros [= <-]; right; by left|].
  destruct (geNumber _ 3); intros [= <-]; right; right; [by left|by right].
Qed.

Lemma effectivelyBlankOrInvalid_result raw num :
  (exists b, effectivelyBlankOrInvalid raw num = Ok b)
  \/ effectivelyBlankOrInvalid raw num = Thrown "TypeError".
Proof.
  destruct raw as [| |b|n|s|t]; simpl; eauto. destruct s; eauto.
Qed.

Lemma addNumber_comm a b : addNumber a b = addNumber b a.
Proof.
  destruct a as [x| | |], b as [y| | |]; try reflexivity.
  simpl. f_equal. unfold Qplus. f_equal; [lia|apply Pos.mul_comm].
Qed.

(** X15. On two columns read from the same rows of the sheet the loop does
    not throw and writes one cell for each row, in row order: the label of
    the row's two cells, which is the empty text, "Core", "Active" or
    "Inactive". *)
Theorem activityLevels_written valuesE valuesK :
  length valuesE = length valuesK ->
  Forall (fun row => sheetValue (cell row 0)) valuesE ->
  Forall (fun row => sheetValue (cell row 0)) valuesK ->
  exists out,
    activityLevels valuesE valuesK = Ok out
    /\ length out = length valuesE
    /\ (forall (i : nat) rowE rowK,
          valuesE !! i = Some rowE -> valuesK !! i = Some rowK ->
          exists label,
            out !! i = Some [VStr label]
            /\ activityLevel (cell rowE 0) (cell rowK 0) = Ok label
            /\ (label = "" \/ label = "Core" \/ label = "Active" \/ label = "Inactive")).
Proof.
  intros Hlen HE HK.
  destruct (activityLevels_rows valuesE valuesK Hlen HE HK) as (labels & Hrun & Hlabels & Hrows).
  exists (map (fun label => [VStr label]) labels).
  split; [done|]. split; [by rewrite length_map|].
  intros i rowE rowK Hi Hk.
  destruct (labels !! i) as [label|] eqn:Hl.
  - exists label. split; [by rewrite list_lookup_fmap, Hl|].
    pose proof (Hrows i rowE rowK label Hi Hk Hl) as Hlabel.
    split; [done|]. by eapply activityLevel_labels.
  - apply lookup_ge_None in Hl. apply lookup_lt_Some in Hi. lia.
Qed.

(** X16. The label does not depend on which of the two cells holds which
    value: exchanging columns E and K gives the same result, for all values,
    also those the row function throws on. *)
Theorem activityLevel_symmetric rawValueE rawValueK :
  activityLevel rawValueE rawValueK = activityLevel rawValueK rawValueE.
Proof.
  unfold activityLevel.
  rewrite (addNumber_comm (if isNaN (toNumber rawValueE) then _ else _)).
  destruct (effectivelyBlankOrInvalid_result rawValueE (toNumber rawValueE)) as [[e ->]| ->];
    destruct (effectivelyBlankOrInvalid_result rawValueK (toNumber rawValueK)) as [[k ->]| ->];
    simpl; try reflexivity.
  by rewrite (andb_comm e k).
Qed.

Lemma activityLevel_as_number raw q other :
  toNumber raw = Fin q ->
  effectivelyBlankOrInvalid raw (Fin q) = Ok false ->
  activityLevel raw other = activityLevel (VNum (Fin q)) other.
Proof.
  intros Hnum Hblank. unfold activityLevel. rewrite Hnum. simpl toNumber.
  rewrite Hblank.
  assert (effectivelyBlankOrInvalid (VNum (Fin q)) (Fin q) = Ok false) as ->; [|done].
  simpl. by rewrite andb_false_r.
Qed.

(** X17. Cells that hold no number: text of white space only counts as the
    number 0 and not as a blank cell, so with an empty cell beside it the
    label is "Inactive", not the empty text; [true] counts as 1 and [false]
    as 0; a date counts as its time value in milliseconds, so beside an
    empty cell every date from 12 ms after the epoch on is "Core". *)
Theorem activityLevel_other_cells other :
  (forall s,
     s <> "" -> allChars isWhiteSpace s = true ->
     activityLevel (VStr s) other = activityLevel (VNum (Fin 0)) other
     /\ activityLevel (VStr s) (VStr "") = Ok "Inactive")
  /\ (forall b : bool,
        activityLevel (VBool b) other
        = activityLevel (VNum (Fin (if b then 1 else 0))) other)
  /\ (forall t,
        activityLevel (VDate (Some t)) other = activityLevel (VNum (Fin (inject_Z t))) other
        /\ (12 <= t -> activityLevel (VDate (Some t)) (VStr "") = Ok "Core")).
Proof.
  assert (Hws : forall s k,
            s <> "" -> allChars isWhiteSpace s = true ->
            activityLevel (VStr s) k = activityLevel (VNum (Fin 0)) k).
  { intros s k Hs Hall. apply activityLevel_as_number.
    - simpl. apply stringToNumber_blank. by apply trim_spaces.
    - destruct s as [|c s]; [done|]. unfold effectivelyBlankOrInvalid.
      change (toString (VStr (String c s))) with (String c s).
      rewrite trim_spaces by done. by rewrite bool_decide_eq_true_2. }
  assert (Hdate : forall t k,
            activityLevel (VDate (Some t)) k = activityLevel (VNum (Fin (inject_Z t))) k).
  { intros t k. apply activityLevel_as_number; [done|].
    simpl. by rewrite andb_false_r. }
  split; [|split].
  - intros s Hs Hall. split; [by apply Hws|]. by rewrite Hws.
  - intros b. apply activityLevel_as_number; destruct b; try done; simpl;
      by rewrite andb_false_r.
  - intros t. split; [apply Hdate|]. intros Ht. rewrite Hdate.
    unfold activityLevel. simpl.
    rewrite andb_false_r. simpl.
    assert (Qle_bool (inject_Z 12) (inject_Z t + 0) = true) as ->; [|done].
    apply Qle_bool_iff. rewrite Qplus_0_r. rewrite <- Zle_Qle. lia.
Qed.


(** ** The rows of the "Attendance Stats" sheet *)

Lemma append_empty_r s : s ++ "" = s.
Proof. induction s as [|c s IH]; [done|]. exact (f_equal (String c) IH). Qed.

Lemma splitSpaces_word b w s :
  allChars (fun c => negb (isWhiteSpace c)) w = true -> (b = false \/ w <> "") ->
  splitSpaces b (w ++ s)
  = let '(piece, pieces) := splitSpaces false s in (w ++ piece, pieces).
Proof.
  revert b. induction w as [|c w IH]; intros b Hall Hb.
  - destruct Hb as [->|Hb]; [|done]. change ("" ++ s) with s.
    by destruct (splitSpaces false s).
  - change (String c w ++ s) with (String c (w ++ s)). simpl in Hall |- *.
    apply andb_prop in Hall as [Hc Hw]. apply negb_true_iff in Hc. rewrite Hc.
    rewrite (IH false Hw) by (by left). by destruct (splitSpaces false s).
Qed.

Lemma splitSpaces_run g s :
  allChars isWhiteSpace g = true -> splitSpaces true (g ++ s) = splitSpaces true s.
Proof.
  induction g as [|c g IH]; [done|].
  change (String c g ++ s) with (String c (g ++ s)). simpl.
  intros [Hc Hg]%andb_prop. rewrite Hc. by apply IH.
Qed.

Lemma splitSpaces_gap g s :
  gapText g ->
  splitSpaces false (g ++ s)
  = ("", let '(piece, pieces) := splitSpaces true s in piece :: pieces).
Proof.
  intros [Hne Hall]. destruct g as [|c g]; [done|].
  change (String c g ++ s) with (String c (g ++ s)). simpl in Hall |- *.
  apply andb_prop in Hall as [Hc Hg]. rewrite Hc. by rewrite splitSpaces_run.
Qed.

Lemma splitSpaces_spaced rest :
  Forall (fun gw => gapText gw.1 /\ wordText gw.2) rest ->
  splitSpaces false (spaced rest) = ("", map snd rest).
Proof.
  induction rest as [|[g w] rest IH]; [done|].
  intros [[Hg [Hne Hw]] Hrest]%Forall_cons. simpl in *.
  rewrite (splitSpaces_gap g _ Hg), (splitSpaces_word true w _ Hw) by (by right).
  rewrite (IH Hrest). by rewrite append_empty_r.
Qed.

Lemma split_words w0 rest :
  wordText w0 -> Forall (fun gw => gapText gw.1 /\ wordText gw.2) rest ->
  split (w0 ++ spaced rest) = w0 :: map snd rest.
Proof.
  intros [_ Hw] Hrest. unfold split.
  rewrite (splitSpaces_word false w0 _ Hw) by (by left).
  rewrite (splitSpaces_spaced rest Hrest). by rewrite append_empty_r.
Qed.

Lemma splitSpaces_pieces b s :
  Forall (fun piece => allChars (fun c => negb (isWhiteSpace c)) piece = true)
    ((splitSpaces b s).1 :: (splitSpaces b s).2).
Proof.
  revert b. induction s as [|c s IH]; intros b; simpl.
  - by repeat constructor.
  - destruct (isWhiteSpace c) eqn:Hc.
    + destruct b; [apply IH|]. simpl. constructor; [done|].
      specialize (IH true). by destruct (splitSpaces true s).
    + specialize (IH false). destruct (splitSpaces false s) as [piece pieces]. simpl in *.
      apply Forall_cons in IH as [Hp Hps]. constructor; [|done]. simpl. by rewrite Hc, Hp.
Qed.

Lemma endsWithSpace_app s t : t <> "" -> endsWithSpace (s ++ t) = endsWithSpace t.
Proof.
  intros Ht. induction s as [|c s IH]; [done|].
  change (String c s ++ t) with (String c (s ++ t)). simpl.
  destruct (s ++ t) eqn:E; [|exact IH].
  destruct s; [|done]. by simpl in E.
Qed.

Lemma endsWithSpace_word w : wordText w -> endsWithSpace w = false.
Proof.
  intros [Hne Hall]. induction w as [|c w IH]; [done|]. simpl in Hall |- *.
  apply andb_prop in Hall as [Hc Hw]. destruct w as [|d w].
  - by apply negb_true_iff.
  - by apply IH.
Qed.

Lemma word_app_nonempty w s : wordText w -> w ++ s <> "".
Proof. intros [Hne _]. by destruct w. Qed.

Lemma endsWithSpace_words rest : forall w0,
  wordText w0 -> Forall (fun gw => gapText gw.1 /\ wordText gw.2) rest ->
  endsWithSpace (w0 ++ spaced rest) = false.
Proof.
  induction rest as [|[g w] rest IH]; intros w0 Hw0 Hrest.
  - simpl. rewrite append_empty_r. by apply endsWithSpace_word.
  - apply Forall_cons in Hrest as [[_ Hw] Hrest]. simpl in *.
    rewrite endsWithSpace_app.
    + rewrite endsWithSpace_app by exact (word_app_nonempty w _ Hw). by apply IH.
    + intros E. destruct g; [|done]. simpl in E. exact (word_app_nonempty w _ Hw E).
Qed.

Lemma trim_words pre w0 rest post :
  wordText w0 -> Forall (fun gw => gapText gw.1 /\ wordText gw.2) rest ->
  allChars isWhiteSpace pre = true -> allChars isWhiteSpace post = true ->
  trim (pre ++ (w0 ++ spaced rest) ++ post) = w0 ++ spaced rest.
Proof.
  intros Hw0 Hrest Hpre Hpost. rewrite trim_padded by done. apply trim_fixed.
  - destruct Hw0 as [Hne Hall]. destruct w0 as [|c w0]; [done|]. simpl in *.
    apply andb_prop in Hall as [Hc _]. by apply negb_true_iff.
  - by apply endsWithSpace_words.
Qed.

(** X18. The first and last name written beside a full name: the first name
    never contains white space; a name that is falsy or white space only
    gives two empty names; for a name of words with gaps of white space
    between them and white space around them, the first name is the first
    word and the last name the other words joined by single spaces. *)
Theorem name_parts fullName :
  allChars (fun c => negb (isWhiteSpace c)) (firstNameOf (namePartsOf fullName)) = true
  /\ (toBoolean fullName = false \/ trim (toString fullName) = "" ->
      firstNameOf (namePartsOf fullName) = "" /\ lastNameOf (namePartsOf fullName) = "")
  /\ (forall pre w0 rest post,
        fullName = VStr (pre ++ (w0 ++ spaced rest) ++ post) ->
        wordText w0 -> Forall (fun gw => gapText gw.1 /\ wordText gw.2) rest ->
        allChars isWhiteSpace pre = true -> allChars isWhiteSpace post = true ->
        namePartsOf fullName = w0 :: map snd rest
        /\ firstNameOf (namePartsOf fullName) = w0
        /\ lastNameOf (namePartsOf fullName) = join " " (map snd rest)).
Proof.
  split; [|split].
  - unfold namePartsOf. destruct (toBoolean fullName); [|done]. unfold split.
    pose proof (splitSpaces_pieces false (trim (toString fullName))) as H.
    destruct (splitSpaces false _) as [piece pieces]. simpl in *.
    by apply Forall_cons in H as [H _].
  - unfold namePartsOf. intros [-> | ->]; [done|]. by destruct (toBoolean fullName).
  - intros pre w0 rest post -> Hw0 Hrest Hpre Hpost.
    assert (Hparts : namePartsOf (VStr (pre ++ (w0 ++ spaced rest) ++ post))
                     = w0 :: map snd rest).
    { unfold namePartsOf. simpl toString. rewrite trim_words by done.
      rewrite split_words by done.
      assert (toBoolean (VStr (pre ++ (w0 ++ spaced rest) ++ post)) = true) as ->; [|done].
      simpl. apply negb_true_iff, bool_decide_eq_false_2. intros E.
      assert (Htrim : trim (pre ++ (w0 ++ spaced rest) ++ post) = "") by (by rewrite E).
      rewrite trim_words in Htrim by done. by apply word_app_nonempty in Htrim. }
    rewrite Hparts. split; [done|]. split; [done|].
    unfold lastNameOf. simpl. by destruct rest.
Qed.

Lemma calculateAttendanceStats_elem now data summaries s :
  calculateAttendanceStats now data = Ok summaries -> s ∈ summaries ->
  exists rawData, matchOrAssignBelCodes data = Ok rawData /\ s ∈ aggregate now rawData.
Proof.
  unfold calculateAttendanceStats.
  destruct (matchOrAssignBelCodes data) as [rawData| |]; [|done|done]. simpl.
  destruct rawData as [|row rawData]; intros [= <-] Hs; [by apply elem_of_nil in Hs|].
  by exists (row :: rawData).
Qed.

(** X19. When there are summary rows and the sheet exists, one row of 10
    columns is written for each summary row, in the same order: the key,
    the full name, its first and last name, the three counts, the last date
    formatted by the host, the last event name and the total.  The last
    date of a summary row is always a valid date, so the branch that writes
    it as text and logs a warning is never taken.  Nothing is written when
    there is no summary row or no sheet. *)
Theorem stats_rows_written formatDate now data summaries :
  calculateAttendanceStats now data = Ok summaries ->
  (summaries = [] -> forall sheet, updateAttendanceStatsSheet formatDate now data sheet = Ok None)
  /\ updateAttendanceStatsSheet formatDate now data false = Ok None
  /\ (summaries <> [] ->
      exists out,
        updateAttendanceStatsSheet formatDate now data true = Ok (Some out)
        /\ length out = length summaries
        /\ forall (i : nat) s,
             summaries !! i = Some s ->
             exists t,
               sum_lastDate s = VDate (Some t)
               /\ out !! i
                  = Some [VStr (sum_bel s); sum_fullName s;
                          VStr (firstNameOf (namePartsOf (sum_fullName s)));
                          VStr (lastNameOf (namePartsOf (sum_fullName s)));
                          idValue (Z.of_nat (sum_quarterEvents s));
                          idValue (Z.of_nat (sum_monthEvents s));
                          idValue (sum_volunteerCount s);
                          VStr (formatDate t);
                          VStr (sum_lastEventName s);
                          idValue (Z.of_nat (sum_totalUniqueEvents s))]).
Proof.
  intros Hstats. unfold updateAttendanceStatsSheet. rewrite Hstats. simpl.
  split; [by intros ->|]. split; [by destruct summaries|].
  intros Hne. exists (map (fun s => outputRow formatDate (summaryArray s)) summaries).
  split; [by destruct summaries|]. split; [by rewrite length_map|].
  intros i s Hi.
  destruct (calculateAttendanceStats_elem now data summaries s Hstats)
    as (rawData & _ & Hs); [by eapply list_elem_of_lookup_2|].
  apply aggregate_elem in Hs as [Hrec Hs].
  destruct (recordsFor (sum_bel s) rawData) as [|r0 records] eqn:E; [done|].
  destruct (summarize_latest (getFullYear now) (getMonth now) (getMonth now / 3)
              (sum_bel s) r0 records) as (m & _ & _ & _ & _ & _ & Hdate & _).
  rewrite <- Hs in Hdate. exists (rec_date m). split; [done|].
  rewrite list_lookup_fmap, Hi. simpl. unfold outputRow, summaryArray. simpl.
  by rewrite Hdate.
Qed.


(** ** The Config menu *)

Lemma takeIdChars_chars s : allChars isIdChar (takeIdChars s) = true.
Proof.
  induction s as [|c s IH]; simpl; [done|].
  destruct (isIdChar c) eqn:Hc; [|done]. simpl. by rewrite Hc.
Qed.

Lemma takeIdChars_app id rest :
  allChars isIdChar id = true -> stopsId rest = true -> takeIdChars (id ++ rest) = id.
Proof.
  intros Hid Hrest. induction id as [|c id IH].
  - change ("" ++ rest) with rest. destruct rest as [|c rest]; [done|]. simpl in *.
    apply negb_true_iff in Hrest. by rewrite Hrest.
  - change (String c id ++ rest) with (String c (id ++ rest)). simpl in *.
    apply andb_prop in Hid as [Hc Hid]. rewrite Hc. by rewrite IH.
Qed.

Lemma stripPrefix_app p s : stripPrefix p (p ++ s) = Some s.
Proof.
  induction p as [|a p IH]; [done|].
  change (String a p ++ s) with (String a (p ++ s)). simpl.
  by rewrite Ascii.eqb_refl.
Qed.

Lemma stripPrefix_startsWith p s : startsWith p s = false -> stripPrefix p s = None.
Proof.
  revert s. induction p as [|a p IH]; intros [|b s]; simpl; try done.
  destruct (Ascii.eqb a b); [apply IH|done].
Qed.

Lemma captureAfter_valid literal s id :
  captureAfter literal s = Some id -> isBareId id = true.
Proof.
  unfold captureAfter. destruct (stripPrefix literal s) as [rest|]; [|done].
  destruct (decide (takeIdChars rest = "")) as [|Hne]; [done|]. intros [= <-].
  unfold isBareId. rewrite takeIdChars_chars.
  by rewrite bool_decide_eq_false_2.
Qed.

Lemma matchIdAfter_valid literal s id :
  matchIdAfter literal s = Some id -> isBareId id = true.
Proof.
  induction s as [|c s IH]; simpl.
  - destruct (captureAfter literal "") eqn:E; [|done].
    intros [= <-]. by eapply captureAfter_valid.
  - destruct (captureAfter literal (String c s)) eqn:E; [|exact IH].
    intros [= <-]. by eapply captureAfter_valid.
Qed.

Lemma isIdChar_not_slash : isIdChar "/" = false.
Proof. reflexivity. Qed.

Lemma matchIdAfter_bare a literal s :
  isIdChar a = false -> allChars isIdChar s = true ->
  matchIdAfter (String a literal) s = None.
Proof.
  intros Ha. induction s as [|c s IH]; [done|]. simpl.
  intros [Hc Hs]%andb_prop. unfold captureAfter. simpl.
  destruct (Ascii.eqb a c) eqn:E; [|by apply IH].
  apply Ascii.eqb_eq in E as ->. congruence.
Qed.

Lemma extractSpreadsheetId_bare id :
  isBareId id = true -> extractSpreadsheetId id = Some id.
Proof.
  intros Hid. unfold extractSpreadsheetId.
  pose proof Hid as [_ Hall]%andb_prop.
  rewrite (matchIdAfter_bare "/" "d/" id isIdChar_not_slash Hall). by rewrite Hid.
Qed.

Lemma extractSpreadsheetId_valid input id :
  extractSpreadsheetId input = Some id -> isBareId id = true.
Proof.
  unfold extractSpreadsheetId.
  destruct (matchIdAfter "/d/" input) as [id'|] eqn:E.
  - intros [= <-]. by eapply matchIdAfter_valid.
  - destruct (isBareId input) eqn:Hb; [|done]. by intros [= <-].
Qed.

(** X20. What [extractSpreadsheetId] returns is never the input's
    surroundings: it is a non-empty text of letters, digits, hyphens and
    underscores, and extracting from it again gives it back; a text that is
    such an id already is returned as it is.  The dialog that uses it
    stores nothing else: after it the property is what it was, or an id of
    this form; pressing Cancel changes nothing. *)
Theorem extractSpreadsheetId_result :
  (forall input id,
     extractSpreadsheetId input = Some id ->
     id <> "" /\ allChars isIdChar id = true /\ extractSpreadsheetId id = Some id)
  /\ (forall id,
        id <> "" -> allChars isIdChar id = true -> extractSpreadsheetId id = Some id)
  /\ (forall ok responseText property,
        let after := (showDirectoryDialog ok responseText property).1 in
        (ok = false -> after = property)
        /\ (after = property
            \/ exists id,
                 after = Some id /\ id <> "" /\ allChars isIdChar id = true
                 /\ extractSpreadsheetId (trim responseText) = Some id)).
Proof.
  split; [|split].
  - intros input id H. pose proof (extractSpreadsheetId_valid _ _ H) as Hid.
    pose proof Hid as [Hne Hall]%andb_prop.
    apply negb_true_iff, bool_decide_eq_false in Hne.
    split; [done|]. split; [done|]. by apply extractSpreadsheetId_bare.
  - intros id Hne Hall. apply extractSpreadsheetId_bare. unfold isBareId.
    by rewrite Hall, bool_decide_eq_false_2.
  - intros ok responseText property. unfold showDirectoryDialog.
    split; [by intros ->|]. destruct ok; simpl; [|by left].
    destruct (extractSpreadsheetId (trim responseText)) as [id|] eqn:E; [|by left].
    destruct (decide (id = "")) as [|Hne]; [by left|]. right. exists id.
    pose proof (extractSpreadsheetId_valid _ _ E) as [_ Hall]%andb_prop. done.
Qed.

Lemma matchIdAfter_first literal pre : forall id rest,
  indexOf literal (pre ++ literal ++ id ++ rest) = Some (String.length pre) ->
  id <> "" -> allChars isIdChar id = true -> stopsId rest = true ->
  matchIdAfter literal (pre ++ literal ++ id ++ rest) = Some id.
Proof.
  assert (Hhere : forall id rest,
            id <> "" -> allChars isIdChar id = true -> stopsId rest = true ->
            captureAfter literal (literal ++ id ++ rest) = Some id).
  { intros id rest Hne Hall Hrest. unfold captureAfter.
    rewrite stripPrefix_app, takeIdChars_app by done.
    by destruct (decide (id = "")). }
  induction pre as [|c pre IH]; intros id rest Hidx Hne Hall Hrest.
  - change ("" ++ literal ++ id ++ rest) with (literal ++ id ++ rest).
    destruct (literal ++ id ++ rest) eqn:E; simpl; rewrite <- E, Hhere; done.
  - change (String c pre ++ literal ++ id ++ rest)
      with (String c (pre ++ literal ++ id ++ rest)) in *.
    simpl in Hidx |- *.
    destruct (startsWith literal (String c (pre ++ literal ++ id ++ rest))) eqn:Hs.
    { simpl in Hidx. done. }
    unfold captureAfter. rewrite (stripPrefix_startsWith _ _ Hs).
    apply IH; try done.
    destruct (indexOf literal (pre ++ literal ++ id ++ rest)) as [n|]; [|done].
    simpl in Hidx. injection Hidx as ->. done.
Qed.

Lemma matchIdAfter_suffix literal pre s id :
  captureAfter literal s = Some id -> matchIdAfter literal (pre ++ s) <> None.
Proof.
  intros Hs. induction pre as [|c pre IH].
  - change ("" ++ s) with s. destruct s; simpl; by rewrite Hs.
  - change (String c pre ++ s) with (String c (pre ++ s)). simpl.
    by destruct (captureAfter literal (String c (pre ++ s))).
Qed.

Lemma stripPrefix_spec p s rest : stripPrefix p s = Some rest -> s = p ++ rest.
Proof.
  revert s. induction p as [|a p IH]; intros [|b s]; simpl; try done.
  - by intros [= <-].
  - by intros [= <-].
  - destruct (Ascii.eqb a b) eqn:E; [|done]. apply Ascii.eqb_eq in E as ->.
    intros H%IH. by rewrite H.
Qed.

Lemma matchIdAfter_spreadsheets s :
  matchIdAfter "/spreadsheets/d/" s <> None -> matchIdAfter "/d/" s <> None.
Proof.
  induction s as [|c s IH]; [done|]. simpl.
  destruct (captureAfter "/spreadsheets/d/" (String c s)) as [id|] eqn:E.
  - intros _. unfold captureAfter in E.
    destruct (stripPrefix "/spreadsheets/d/" (String c s)) as [rest|] eqn:Hp; [|done].
    apply stripPrefix_spec in Hp.
    assert (Hd : captureAfter "/d/" ("/d/" ++ rest) = Some id).
    { unfold captureAfter. by rewrite stripPrefix_app. }
    pose proof (matchIdAfter_suffix "/d/" "/spreadsheets" _ _ Hd) as H.
    change ("/spreadsheets" ++ "/d/" ++ rest) with ("/spreadsheets/d/" ++ rest) in H.
    rewrite <- Hp in H. exact H.
  - intros H%IH. by destruct (captureAfter "/d/" (String c s)).
Qed.

(** X21. A URL gives back the id it was built from: when the first "/d/"
    of the text is followed by an id, and the id by the end of the text or
    a character that an id cannot hold, [extractSpreadsheetId] returns this
    id; so does [extractSpreadsheetIdFromUrl] for the first
    "/spreadsheets/d/".  Every text the second function finds an id in, the
    first finds one in too. *)
Theorem spreadsheet_url_round_trip pre id rest :
  id <> "" -> allChars isIdChar id = true -> stopsId rest = true ->
  (indexOf "/d/" (pre ++ "/d/" ++ id ++ rest) = Some (String.length pre) ->
   extractSpreadsheetId (pre ++ "/d/" ++ id ++ rest) = Some id)
  /\ (indexOf "/spreadsheets/d/" (pre ++ "/spreadsheets/d/" ++ id ++ rest) = Some (String.length pre) ->
      extractSpreadsheetIdFromUrl (pre ++ "/spreadsheets/d/" ++ id ++ rest) = Some id)
  /\ (forall url,
        extractSpreadsheetIdFromUrl url <> None -> extractSpreadsheetId url <> None).
Proof.
  intros Hne Hall Hrest. split; [|split].
  - intros Hidx. unfold extractSpreadsheetId.
    by rewrite (matchIdAfter_first "/d/" pre id rest).
  - intros Hidx. unfold extractSpreadsheetIdFromUrl.
    by rewrite (matchIdAfter_first "/spreadsheets/d/" pre id rest).
  - intros url H. unfold extractSpreadsheetIdFromUrl in H.
    apply matchIdAfter_spreadsheets in H. unfold extractSpreadsheetId.
    by destruct (matchIdAfter "/d/" url).
Qed.

(** X22. The dialog of the registration script: Cancel and an empty entry
    leave the property as it was; an entry that holds
    "docs.google.com/spreadsheets/d/" stores the id found after
    "/spreadsheets/d/", or nothing when there is none; every other entry is
    stored as it is, trimmed, whatever it holds. *)
Theorem showDirectoryDialogUrl_cases ok responseText property :
  (ok = false -> (showDirectoryDialogUrl ok responseText property).1 = property)
  /\ (trim responseText = "" ->
      (showDirectoryDialogUrl ok responseText property).1 = property)
  /\ (ok = true -> includes (trim responseText) "docs.google.com/spreadsheets/d/" = true ->
      match extractSpreadsheetIdFromUrl (trim responseText) with
      | Some id =>
          (showDirectoryDialogUrl ok responseText property).1 = Some id
          /\ id <> "" /\ allChars isIdChar id = true
      | None => (showDirectoryDialogUrl ok responseText property).1 = property
      end)
  /\ (ok = true -> includes (trim responseText) "docs.google.com/spreadsheets/d/" = false ->
      trim responseText <> "" ->
      (showDirectoryDialogUrl ok responseText property).1 = Some (trim responseText)).
Proof.
  unfold showDirectoryDialogUrl. split; [by intros ->|]. split; [|split].
  - intros ->. destruct ok; [|done]. simpl. done.
  - intros -> ->. simpl.
    destruct (extractSpreadsheetIdFromUrl (trim responseText)) as [id|] eqn:E; [|done].
    pose proof (matchIdAfter_valid _ _ _ E) as [Hne Hall]%andb_prop.
    pose proof Hne as Hne'. apply negb_true_iff, bool_decide_eq_false in Hne'.
    destruct (decide (id = "")); [done|]. by rewrite Hne.
  - intros -> -> Hne. simpl.
    by rewrite !bool_decide_eq_false_2.
Qed.


(** ** The Sunday registration script: the highest id *)

Lemma higherId_ge highestId row : highestId <= higherId highestId row.
Proof.
  unfold higherId. destruct (parseInt _) as [id|]; [|lia].
  destruct (highestId <? id) eqn:E; [apply Z.ltb_lt in E|]; lia.
Qed.

Lemma highestIdFrom_ge ids : forall highestId, highestId <= highestIdFrom highestId ids.
Proof.
  unfold highestIdFrom. induction ids as [|row ids IH]; intros h; simpl; [lia|].
  pose proof (higherId_ge h row). specialize (IH (higherId h row)). lia.
Qed.

Lemma highestIdFrom_bound ids : forall highestId row id,
  row ∈ ids -> parseInt (toString (cell row 0)) = Some id ->
  id <= highestIdFrom highestId ids.
Proof.
  unfold highestIdFrom. induction ids as [|r ids IH]; intros h row id Hin Hid.
  { by apply elem_of_nil in Hin. }
  simpl. apply elem_of_cons in Hin as [->|Hin]; [|by eapply IH].
  pose proof (highestIdFrom_ge ids (higherId h r)) as Hge. unfold highestIdFrom in Hge.
  assert (id <= higherId h r); [|lia].
  unfold higherId. rewrite Hid. destruct (h <? id) eqn:E; [lia|].
  apply Z.ltb_ge in E. lia.
Qed.

Lemma highestIdFrom_attained ids : forall highestId,
  highestIdFrom highestId ids = highestId
  \/ exists row,
       row ∈ ids
       /\ parseInt (toString (cell row 0)) = Some (highestIdFrom highestId ids).
Proof.
  unfold highestIdFrom. induction ids as [|r ids IH]; intros h; simpl; [by left|].
  destruct (IH (higherId h r)) as [Heq|(row & Hin & Hrow)].
  - rewrite Heq. unfold higherId.
    destruct (parseInt (toString (cell r 0))) as [id|] eqn:Hid; [|by left].
    destruct (h <? id); [|by left].
    right. exists r. split; [apply elem_of_cons; by left|done].
  - right. exists row. split; [apply elem_of_cons; by right|done].
Qed.

Lemma localSheetHighest_ge ss highestId sheetName :
  highestId <= localSheetHighest ss highestId sheetName.
Proof.
  unfold localSheetHighest. destruct (ss sheetName) as [sheet|]; [|lia].
  destruct (1 <=? length (sheetRows sheet))%nat; [|lia].
  destruct (startDataRow sheetName sheet <=? length (sheetRows sheet))%nat; [|lia].
  apply highestIdFrom_ge.
Qed.

Lemma localSheetHighest_bound ss highestId sheetName sheet row id :
  ss sheetName = Some sheet -> row ∈ searchedRows sheetName sheet ->
  parseInt (toString (cell row 0)) = Some id ->
  id <= localSheetHighest ss highestId sheetName.
Proof.
  intros Hsheet Hrow Hid. unfold localSheetHighest. rewrite Hsheet.
  unfold searchedRows in Hrow.
  assert (Hlen : (startDataRow sheetName sheet - 1 < length (sheetRows sheet))%nat).
  { destruct (decide (startDataRow sheetName sheet - 1 < length (sheetRows sheet))%nat);
      [done|].
    rewrite drop_ge in Hrow by lia. by apply elem_of_nil in Hrow. }
  assert ((1 <=? length (sheetRows sheet))%nat = true) as -> by (apply Nat.leb_le; lia).
  assert (1 <= startDataRow sheetName sheet)%nat.
  { unfold startDataRow. repeat (destruct (_ && _)); lia. }
  assert ((startDataRow sheetName sheet <=? length (sheetRows sheet))%nat = true) as ->
    by (apply Nat.leb_le; lia).
  by eapply highestIdFrom_bound.
Qed.

Lemma fold_localSheetHighest_ge ss names : forall highestId,
  highestId <= fold_left (localSheetHighest ss) names highestId.
Proof.
  induction names as [|name names IH]; intros h; simpl; [lia|].
  pose proof (localSheetHighest_ge ss h name). specialize (IH (localSheetHighest ss h name)).
  lia.
Qed.

Lemma findHighestIdInLocalSheets_bound ss names sheetName sheet row id :
  sheetName ∈ names -> ss sheetName = Some sheet -> row ∈ searchedRows sheetName sheet ->
  parseInt (toString (cell row 0)) = Some id ->
  id <= findHighestIdInLocalSheets ss names.
Proof.
  unfold findHighestIdInLocalSheets. generalize 0.
  induction names as [|name names IH]; intros h Hname Hsheet Hrow Hid.
  { by apply elem_of_nil in Hname. }
  simpl. apply elem_of_cons in Hname as [<-|Hname]; [|by eapply IH].
  pose proof (fold_localSheetHighest_ge ss names (localSheetHighest ss h sheetName)).
  pose proof (localSheetHighest_bound ss h sheetName sheet row id Hsheet Hrow Hid). lia.
Qed.

Lemma localSheetHighest_attained ss highestId sheetName :
  localSheetHighest ss highestId sheetName = highestId
  \/ exists sheet row,
       ss sheetName = Some sheet /\ row ∈ searchedRows sheetName sheet
       /\ parseInt (toString (cell row 0))
          = Some (localSheetHighest ss highestId sheetName).
Proof.
  unfold localSheetHighest. destruct (ss sheetName) as [sheet|] eqn:Hsheet; [|by left].
  destruct (1 <=? length (sheetRows sheet))%nat; [|by left].
  destruct (startDataRow sheetName sheet <=? length (sheetRows sheet))%nat; [|by left].
  destruct (highestIdFrom_attained
              (drop (startDataRow sheetName sheet - 1) (sheetRows sheet)) highestId)
    as [->|(row & Hin & Hrow)]; [by left|].
  right. by exists sheet, row.
Qed.

Lemma findHighestIdInLocalSheets_attained ss names :
  findHighestIdInLocalSheets ss names = 0
  \/ exists sheetName sheet row,
       sheetName ∈ names /\ ss sheetName = Some sheet /\ row ∈ searchedRows sheetName sheet
       /\ parseInt (toString (cell row 0)) = Some (findHighestIdInLocalSheets ss names).
Proof.
  unfold findHighestIdInLocalSheets.
  assert (H : forall h,
            fold_left (localSheetHighest ss) names h = h
            \/ exists sheetName sheet row,
                 sheetName ∈ names /\ ss sheetName = Some sheet
                 /\ row ∈ searchedRows sheetName sheet
                 /\ parseInt (toString (cell row 0))
                    = Some (fold_left (localSheetHighest ss) names h)); [|apply H].
  induction names as [|name names IH]; intros h; simpl; [by left|].
  destruct (IH (localSheetHighest ss h name)) as [->|(n & sheet & row & Hn & Hs & Hr & Hp)].
  - destruct (localSheetHighest_attained ss h name) as [->|(sheet & row & Hs & Hr & Hp)];
      [by left|].
    right. exists name, sheet, row. split; [apply elem_of_cons; by left|done].
  - right. exists n, sheet, row. split; [apply elem_of_cons; by right|done].
Qed.

(** X23. The highest id of the Directory and of the local sheets: it is
    not negative and at least every id that [parseInt] reads in column A of
    a row that is searched (the rows below the first in the Directory; in
    a local sheet the rows from the start row on); it is 0, which it also
    is without a Directory, or the id of one of these rows. *)
Theorem highest_id_bounds ss sheetNamesArray directoryValues :
  findHighestIdInDirectory None = 0
  /\ 0 <= findHighestIdInDirectory (Some directoryValues)
  /\ (forall row id,
        row ∈ drop 1 directoryValues -> parseInt (toString (cell row 0)) = Some id ->
        id <= findHighestIdInDirectory (Some directoryValues))
  /\ (findHighestIdInDirectory (Some directoryValues) = 0
      \/ exists row,
           row ∈ drop 1 directoryValues
           /\ parseInt (toString (cell row 0))
              = Some (findHighestIdInDirectory (Some directoryValues)))
  /\ 0 <= findHighestIdInLocalSheets ss sheetNamesArray
  /\ (forall sheetName sheet row id,
        sheetName ∈ sheetNamesArray -> ss sheetName = Some sheet ->
        row ∈ searchedRows sheetName sheet ->
        parseInt (toString (cell row 0)) = Some id ->
        id <= findHighestIdInLocalSheets ss sheetNamesArray)
  /\ (findHighestIdInLocalSheets ss sheetNamesArray = 0
      \/ exists sheetName sheet row,
           sheetName ∈ sheetNamesArray /\ ss sheetName = Some sheet
           /\ row ∈ searchedRows sheetName sheet
           /\ parseInt (toString (cell row 0))
              = Some (findHighestIdInLocalSheets ss sheetNamesArray)).
Proof.
  split; [done|].
  assert (Hdir : findHighestIdInDirectory (Some directoryValues)
                 = highestIdFrom 0 (drop 1 directoryValues)).
  { unfold findHighestIdInDirectory.
    destruct (2 <=? length directoryValues)%nat eqn:E; [done|].
    apply Nat.leb_gt in E. by rewrite drop_ge by lia. }
  rewrite Hdir.
  split; [apply highestIdFrom_ge|].
  split; [intros row id; apply highestIdFrom_bound|].
  split; [apply highestIdFrom_attained|].
  split; [apply fold_localSheetHighest_ge|].
  split; [apply findHighestIdInLocalSheets_bound|].
  apply findHighestIdInLocalSheets_attained.
Qed.


(** ** The Sunday registration script: a person added by hand *)

Lemma takeDigits_app d post :
  allChars isDigit d = true -> allChars isWhiteSpace post = true ->
  takeDigits (d ++ post) = d.
Proof.
  intros Hd Hpost. induction d as [|c d IH].
  - change ("" ++ post) with post. destruct post as [|c post]; [done|]. simpl in *.
    apply andb_prop in Hpost as [Hc _].
    destruct (isDigit c) eqn:E; [|done]. apply isDigit_not_space in E. congruence.
  - change (String c d ++ post) with (String c (d ++ post)). simpl in *.
    apply andb_prop in Hd as [Hc Hd]. rewrite Hc. by rewrite IH.
Qed.

Lemma isDigit_not_x c : isDigit c = true -> Ascii.eqb c "x" || Ascii.eqb c "X" = false.
Proof. each_char c; vm_compute; congruence. Qed.

Lemma isWhiteSpace_not_x c :
  isWhiteSpace c = true -> Ascii.eqb c "x" || Ascii.eqb c "X" = false.
Proof. each_char c; vm_compute; congruence. Qed.

(** A numeral with white space around it is read as its value. *)
Lemma parseInt_padded pre d post :
  allChars isWhiteSpace pre = true -> matchesDigits d = true ->
  allChars isWhiteSpace post = true ->
  parseInt (pre ++ d ++ post) = Some (decimalValue d).
Proof.
  intros Hpre Hd Hpost. destruct d as [|c r]; [discriminate|].
  unfold matchesDigits in Hd. pose proof Hd as [Hc Hr]%andb_prop.
  unfold parseInt. rewrite trimStart_spaces_app by done.
  change (String c r ++ post) with (String c (r ++ post)).
  assert (Hs : trimStart (String c (r ++ post)) = String c (r ++ post)).
  { simpl. by rewrite (isDigit_not_space c Hc). }
  rewrite Hs.
  assert (Hsign :
    match String c (r ++ post) with
    | String "-" r0 => (-1, r0)
    | String "+" r0 => (1, r0)
    | _ => (1, String c (r ++ post))
    end = (1, String c (r ++ post))).
  { destruct (isDigit_not_sign c Hc) as [Hm Hp].
    destruct c as [[] [] [] [] [] [] [] []]; try reflexivity; congruence. }
  rewrite Hsign.
  assert (Htake : takeDigits (String c (r ++ post)) = String c r).
  { change (String c (r ++ post)) with (String c r ++ post). by apply takeDigits_app. }
  assert (Hx : match r ++ post with
               | String x _ => Ascii.eqb x "x" || Ascii.eqb x "X" = false
               | EmptyString => True
               end).
  { destruct r as [|x r].
    - change ("" ++ post) with post. destruct post as [|x post]; [done|].
      simpl in Hpost. apply andb_prop in Hpost as [Hx _]. by apply isWhiteSpace_not_x.
    - change (String x r ++ post) with (String x (r ++ post)).
      simpl in Hr. apply andb_prop in Hr as [Hx _]. by apply isDigit_not_x. }
  assert (Hdec :
    match takeDigits (String c (r ++ post)) with
    | EmptyString => None
    | ds => Some (1 * digitsValue 0 ds)
    end = Some (decimalValue (String c r))).
  { rewrite Htake, digitsValue_decimal. f_equal. lia. }
  destruct (r ++ post) as [|x t] eqn:E.
  - destruct c as [[] [] [] [] [] [] [] []]; exact Hdec.
  - destruct c as [[] [] [] [] [] [] [] []]; try exact Hdec.
    rewrite Hx. exact Hdec.
Qed.

Lemma parseInt_trimmed_id v z :
  0 <= z -> trim (textOf v) = decimalString z -> parseInt (toString v) = Some z.
Proof.
  intros Hz Htrim. destruct (decimalString_digits z Hz) as [Hdig Hval].
  unfold textOf in Htrim. destruct (toBoolean v).
  - destruct (trim_spec (toString v)) as (pre & post & Hs & Hpre & Hpost & _).
    rewrite Hs, Htrim. rewrite parseInt_padded by done. by rewrite Hval.
  - rewrite trim_empty in Htrim. rewrite <- Htrim in Hdig. done.
Qed.

Lemma currentHighestOverallId_bounds ss directory regRows :
  findHighestIdInDirectory directory <= currentHighestOverallId ss directory regRows
  /\ findHighestIdInLocalSheets ss LOCAL_ID_SHEETS
     <= currentHighestOverallId ss directory regRows
  /\ forall row id,
       row ∈ drop 5 regRows -> parseInt (toString (cell row 0)) = Some id ->
       id <= currentHighestOverallId ss directory regRows.
Proof.
  unfold currentHighestOverallId.
  set (h := Z.max _ _).
  assert (findHighestIdInDirectory directory <= h) by (subst h; apply Z.le_max_l).
  assert (findHighestIdInLocalSheets ss LOCAL_ID_SHEETS <= h) by (subst h; apply Z.le_max_r).
  destruct (6 <=? length regRows)%nat eqn:E.
  - pose proof (highestIdFrom_ge (drop 5 regRows) h).
    split; [lia|]. split; [lia|]. intros row id. apply highestIdFrom_bound.
  - apply Nat.leb_gt in E. split; [lia|]. split; [lia|].
    intros row id Hrow. rewrite drop_ge in Hrow by lia. by apply elem_of_nil in Hrow.
Qed.

Lemma highest_directory_nonneg directory :
  0 <= findHighestIdInDirectory directory
  /\ forall directoryValues row id,
       directory = Some directoryValues -> row ∈ drop 1 directoryValues ->
       parseInt (toString (cell row 0)) = Some id ->
       id <= findHighestIdInDirectory directory.
Proof.
  destruct directory as [directoryValues|]; [|split; [done|by intros]].
  assert (Hdir : findHighestIdInDirectory (Some directoryValues)
                 = highestIdFrom 0 (drop 1 directoryValues)).
  { unfold findHighestIdInDirectory.
    destruct (2 <=? length directoryValues)%nat eqn:E; [done|].
    apply Nat.leb_gt in E. by rewrite drop_ge by lia. }
  rewrite Hdir. split; [apply highestIdFrom_ge|].
  intros dv row id [= <-]. apply highestIdFrom_bound.
Qed.



(** ** The Sunday registration script: the member list *)

Lemma countGenerated_snoc sources e :
  countGenerated (sources ++ [e])
  = (countGenerated sources + if isGenerated e then 1 else 0)%nat.
Proof. induction sources as [|x sources IH]; simpl; [lia|]. rewrite IH. lia. Qed.

Lemma generatedNames_snoc sources e :
  generatedNames (sources ++ [e])
  = (generatedNames sources ++ (if isGenerated e then [e.1] else []))%list.
Proof.
  induction sources as [|x sources IH]; simpl; [by destruct (isGenerated e)|].
  rewrite IH. by destruct (isGenerated x).
Qed.

Lemma decimalString_nonempty z : 0 <= z -> decimalString z <> "".
Proof.
  intros Hz E. destruct (decimalString_digits z Hz) as [H _]. by rewrite E in H.
Qed.

Lemma registrationRow_cases toUpperCase today eventMap serviceMap st statsRow :
  let name := trim (textOf (cell statsRow 1)) in
  let firstName := trim (textOf (cell statsRow 2)) in
  let lastName := trim (textOf (cell statsRow 3)) in
  let k := toUpperCase name in
  let st' := registrationRow toUpperCase today eventMap serviceMap st statsRow in
  (st' = st /\ (name = "" \/ includeMember today statsRow = false))
  \/ (name <> "" /\ includeMember today statsRow = true
      /\ ((exists id first last source,
             source <> FromThisRun /\ isGenerated (k, source) = false
             /\ knownId (directoryMap st) eventMap serviceMap k = Some id
             /\ st' = pushMember st source k id name first last)
          \/ (knownId (directoryMap st) eventMap serviceMap k = None
              /\ exists e,
                   processedNewPersonsInThisRun st !! k = Some e
                   /\ st' = pushMember st FromThisRun k (entry_id e) name
                              (entry_firstName e) (entry_lastName e))
          \/ (knownId (directoryMap st) eventMap serviceMap k = None
              /\ processedNewPersonsInThisRun st !! k = None
              /\ st'
                 = let personId := toString (idValue (nextGeneratedId st + 1)) in
                   let entry :=
                     {| entry_id := personId; entry_email := "";
                        entry_firstName := firstName; entry_lastName := lastName |} in
                   pushMember
                     {| directoryMap := <[k := entry]> (directoryMap st);
                        processedNewPersonsInThisRun :=
                          <[k := entry]> (processedNewPersonsInThisRun st);
                        nextGeneratedId := nextGeneratedId st + 1;
                        activeMembersData := activeMembersData st;
                        idSources := idSources st |}
                     Generated k personId name firstName lastName))).
Proof.
  intros name firstName lastName k st'. subst st'. unfold registrationRow.
  fold name firstName lastName k.
  destruct (bool_decide (name = "")) eqn:Hname.
  { left. apply bool_decide_eq_true in Hname. split; [done|by left]. }
  apply bool_decide_eq_false in Hname.
  destruct (includeMember today statsRow) eqn:Hinc; simpl negb; cbv iota.
  2: { left. split; [done|by right]. }
  right. split; [done|]. split; [done|]. unfold knownId.
  destruct (directoryMap st !! k) as [e|] eqn:Hd; simpl.
  - destruct (bool_decide (entry_id e = "")) eqn:He.
    + destruct (eventMap !! k) as [i|] eqn:Hev; simpl.
      * destruct (bool_decide (i = "")) eqn:Hi.
        -- destruct (serviceMap !! k) as [j|] eqn:Hsv; simpl.
           ++ destruct (bool_decide (j = "")) eqn:Hj.
              ** destruct (processedNewPersonsInThisRun st !! k) as [p|] eqn:Hp.
                 --- right; left. split; [done|]. by exists p.
                 --- right; right. done.
              ** left. by exists j, firstName, lastName, FromSundayService.
           ++ destruct (processedNewPersonsInThisRun st !! k) as [p|] eqn:Hp.
              ** right; left. split; [done|]. by exists p.
              ** right; right. done.
        -- left. by exists i, firstName, lastName, FromEventAttendance.
      * destruct (serviceMap !! k) as [j|] eqn:Hsv; simpl.
        -- destruct (bool_decide (j = "")) eqn:Hj.
           ++ destruct (processedNewPersonsInThisRun st !! k) as [p|] eqn:Hp.
              ** right; left. split; [done|]. by exists p.
              ** right; right. done.
           ++ left. by exists j, firstName, lastName, FromSundayService.
        -- destruct (processedNewPersonsInThisRun st !! k) as [p|] eqn:Hp.
           ++ right; left. split; [done|]. by exists p.
           ++ right; right. done.
    + left. exists (entry_id e), (orText (entry_firstName e) firstName),
        (orText (entry_lastName e) lastName), FromDirectory. done.
  - destruct (eventMap !! k) as [i|] eqn:Hev; simpl.
    + destruct (bool_decide (i = "")) eqn:Hi.
      * destruct (serviceMap !! k) as [j|] eqn:Hsv; simpl.
        -- destruct (bool_decide (j = "")) eqn:Hj.
           ++ destruct (processedNewPersonsInThisRun st !! k) as [p|] eqn:Hp.
              ** right; left. split; [done|]. by exists p.
              ** right; right. done.
           ++ left. by exists j, firstName, lastName, FromSundayService.
        -- destruct (processedNewPersonsInThisRun st !! k) as [p|] eqn:Hp.
           ++ right; left. split; [done|]. by exists p.
           ++ right; right. done.
      * left. by exists i, firstName, lastName, FromEventAttendance.
    + destruct (serviceMap !! k) as [j|] eqn:Hsv; simpl.
      * destruct (bool_decide (j = "")) eqn:Hj.
        -- destruct (processedNewPersonsInThisRun st !! k) as [p|] eqn:Hp.
           ++ right; left. split; [done|]. by exists p.
           ++ right; right. done.
        -- left. by exists j, firstName, lastName, FromSundayService.
      * destruct (processedNewPersonsInThisRun st !! k) as [p|] eqn:Hp.
        -- right; left. split; [done|]. by exists p.
        -- right; right. done.
Qed.

Lemma pushMember_fields st source k id name first last :
  directoryMap (pushMember st source k id name first last) = directoryMap st
  /\ processedNewPersonsInThisRun (pushMember st source k id name first last)
     = processedNewPersonsInThisRun st
  /\ nextGeneratedId (pushMember st source k id name first last) = nextGeneratedId st
  /\ activeMembersData (pushMember st source k id name first last)
     = (activeMembersData st
        ++ [[VStr id; VStr name; VStr first; VStr last; VBool false]])%list
  /\ idSources (pushMember st source k id name first last)
     = (idSources st ++ [(k, source)])%list.
Proof. done. Qed.

(** Pushing a member whose id the maps know keeps the invariant. *)
Lemma RegInv_push toUpperCase eventMap serviceMap base st source id name first last :
  RegInv toUpperCase eventMap serviceMap base st ->
  knownId (directoryMap st) eventMap serviceMap (toUpperCase name) = Some id ->
  name <> "" -> trim name = name -> source <> FromThisRun ->
  isGenerated (toUpperCase name, source) = false ->
  RegInv toUpperCase eventMap serviceMap base
    (pushMember st source (toUpperCase name) id name first last).
Proof.
  intros [I1 I2 I3 I4 I5 I6 I7 I8] Hknown Hname Htrim Hsrc Hg.
  split; simpl.
  - rewrite !length_app. simpl. lia.
  - exact I2.
  - intros i k src row Hi Hrow.
    destruct (decide (i < length (idSources st))%nat) as [Hlt|Hge].
    + rewrite lookup_app_l in Hi by done. rewrite lookup_app_l in Hrow by lia.
      by eapply I3.
    + rewrite lookup_app_r in Hi by lia. rewrite lookup_app_r in Hrow by lia.
      rewrite I1 in Hrow.
      destruct (i - length (idSources st))%nat; [|done]. simpl in Hi, Hrow.
      injection Hi as <- <-. injection Hrow as <-.
      by exists id, name, first, last.
  - intros k [Hin|Hin%list_elem_of_singleton]%elem_of_app; [by eapply I4|].
    injection Hin as _ <-. done.
  - rewrite countGenerated_snoc, Hg, I5. lia.
  - intros i k row Hi Hrow.
    destruct (decide (i < length (idSources st))%nat) as [Hlt|Hge].
    + rewrite lookup_app_l in Hi by done. rewrite lookup_app_l in Hrow by lia.
      rewrite take_app_le by lia. by eapply I6.
    + rewrite lookup_app_r in Hi by lia.
      destruct (i - length (idSources st))%nat; [|done]. simpl in Hi.
      injection Hi as _ Hs. by rewrite Hs in Hg.
  - rewrite generatedNames_snoc, Hg, app_nil_r. exact I7.
  - rewrite generatedNames_snoc, Hg, app_nil_r. exact I8.
Qed.

Lemma knownId_insert_ne D eventMap serviceMap k k' e :
  k <> k' -> knownId (<[k := e]> D) eventMap serviceMap k' = knownId D eventMap serviceMap k'.
Proof. intros Hne. unfold knownId. by rewrite lookup_insert_ne. Qed.

Lemma knownId_insert D eventMap serviceMap k e :
  entry_id e <> "" -> knownId (<[k := e]> D) eventMap serviceMap k = Some (entry_id e).
Proof.
  intros Hne. unfold knownId. rewrite lookup_insert_eq. simpl.
  by rewrite bool_decide_eq_false_2.
Qed.

(** A row of the loop keeps the invariant, as long as the ids stay below
    10^21. *)
Lemma registrationRow_inv toUpperCase today eventMap serviceMap base st statsRow :
  0 <= base -> nextGeneratedId st + 1 < 10 ^ 21 ->
  RegInv toUpperCase eventMap serviceMap base st ->
  RegInv toUpperCase eventMap serviceMap base
    (registrationRow toUpperCase today eventMap serviceMap st statsRow)
  /\ nextGeneratedId st
     <= nextGeneratedId (registrationRow toUpperCase today eventMap serviceMap st statsRow)
     <= nextGeneratedId st + 1.
Proof.
  intros Hbase Hbound Hinv.
  destruct (registrationRow_cases toUpperCase today eventMap serviceMap st statsRow)
    as [[-> _]|(Hname & _ & [(id & first & last & source & Hsrc & Hgen & Hknown & ->)
                            |[(Hknown & e & Hp & ->)|(Hknown & Hp & ->)]])].
  - split; [done|lia].
  - split; [|simpl; lia]. apply RegInv_push; try done. apply trim_idemp.
  - destruct Hinv as [_ I2 _ _ _ _ _ _]. destruct (I2 _ _ Hp) as [Hd He].
    unfold knownId in Hknown. rewrite Hd in Hknown. simpl in Hknown.
    by rewrite bool_decide_eq_false_2 in Hknown.
  - split; [|simpl; lia].
    set (name := trim (textOf (cell statsRow 1))) in *.
    set (k := toUpperCase name) in *.
    set (next := nextGeneratedId st + 1).
    destruct Hinv as [I1 I2 I3 I4 I5 I6 I7 I8].
    assert (Hnext : 1 <= next < 10 ^ 21) by (subst next; rewrite I5; lia).
    assert (Hid : toString (idValue next) <> "").
    { rewrite toString_idValue by lia. apply decimalString_nonempty. lia. }
    cbv zeta. split; simpl.
    + rewrite !length_app. simpl. lia.
    + intros k' e. destruct (decide (k = k')) as [<-|Hne].
      * rewrite !lookup_insert_eq. by intros [= <-].
      * rewrite !lookup_insert_ne by done. apply I2.
    + intros i k' src row Hi Hrow.
      destruct (decide (i < length (idSources st))%nat) as [Hlt|Hge].
      * rewrite lookup_app_l in Hi by done. rewrite lookup_app_l in Hrow by lia.
        destruct (I3 i k' src row Hi Hrow) as (id & nm & f & l & Hk & Hr & Hn & Ht & Hkey).
        exists id, nm, f, l. split; [|done].
        rewrite knownId_insert_ne; [done|]. intros <-. congruence.
      * rewrite lookup_app_r in Hi by lia. rewrite lookup_app_r in Hrow by lia.
        rewrite I1 in Hrow.
        destruct (i - length (idSources st))%nat; [|done]. simpl in Hi, Hrow.
        injection Hi as <- <-. injection Hrow as <-.
        eexists _, name, _, _. split; [by rewrite knownId_insert|].
        split; [done|]. split; [done|]. split; [apply trim_idemp|done].
    + intros k' [Hin|Hin%list_elem_of_singleton]%elem_of_app; [by eapply I4|done].
    + rewrite countGenerated_snoc. simpl. subst next. rewrite I5. lia.
    + intros i k' row Hi Hrow.
      destruct (decide (i < length (idSources st))%nat) as [Hlt|Hge].
      * rewrite lookup_app_l in Hi by done. rewrite lookup_app_l in Hrow by lia.
        rewrite take_app_le by lia. by eapply I6.
      * rewrite lookup_app_r in Hi by lia. rewrite lookup_app_r in Hrow by lia.
        rewrite I1 in Hrow.
        destruct (i - length (idSources st))%nat eqn:Ei; [|done]. simpl in Hi, Hrow.
        injection Hrow as <-.
        rewrite take_ge by (rewrite length_app; simpl; lia).
        rewrite countGenerated_snoc. simpl.
        change (cell [VStr ?a; _; _; _; _] 0) with (VStr a).
        replace (base + Z.of_nat (countGenerated (idSources st) + 1)) with next
          by (subst next; rewrite I5; lia).
        reflexivity.
    + rewrite generatedNames_snoc. simpl.
      intros k' [Hin|Hin%list_elem_of_singleton]%elem_of_app.
      * rewrite knownId_insert_ne; [by apply I7|].
        intros <-. by apply I7 in Hin.
      * subst k'. by rewrite knownId_insert.
    + rewrite generatedNames_snoc. simpl. apply NoDup_app. split; [done|].
      split; [|apply NoDup_singleton].
      intros k' Hin ->%list_elem_of_singleton. by apply I7 in Hin.
Qed.

Lemma registrationRows_inv toUpperCase today eventMap serviceMap base statsRows : forall st,
  0 <= base -> nextGeneratedId st + Z.of_nat (length statsRows) < 10 ^ 21 ->
  RegInv toUpperCase eventMap serviceMap base st ->
  RegInv toUpperCase eventMap serviceMap base
    (fold_left (registrationRow toUpperCase today eventMap serviceMap) statsRows st)
  /\ nextGeneratedId
       (fold_left (registrationRow toUpperCase today eventMap serviceMap) statsRows st)
     <= nextGeneratedId st + Z.of_nat (length statsRows).
Proof.
  induction statsRows as [|row statsRows IH]; intros st Hbase Hbound Hinv; simpl;
    [split; [done|lia]|].
  simpl in Hbound.
  destruct (registrationRow_inv toUpperCase today eventMap serviceMap base st row)
    as [Hinv' Hnext]; [done|lia|done|].
  destruct (IH (registrationRow toUpperCase today eventMap serviceMap st row))
    as [Hfinal Hle]; [done|lia|done|].
  split; [done|lia].
Qed.

Lemma countGenerated_take n sources :
  (countGenerated (take n sources) <= countGenerated sources)%nat.
Proof.
  revert n. induction sources as [|e sources IH]; intros [|n]; simpl; try lia.
  specialize (IH n). lia.
Qed.

Lemma knownId_nonempty D eventMap serviceMap k id :
  knownId D eventMap serviceMap k = Some id -> id <> "".
Proof.
  assert (H : forall o i, nonEmptyId o = Some i -> i <> "").
  { intros [j|] i; simpl; [|done]. destruct (bool_decide (j = "")) eqn:E; [done|].
    intros [= <-]. by apply bool_decide_eq_false in E. }
  unfold knownId. destruct (nonEmptyId (entry_id <$> D !! k)) as [i|] eqn:E1.
  { intros [= <-]. by eapply H. }
  destruct (nonEmptyId (eventMap !! k)) as [i|] eqn:E2.
  { intros [= <-]. by eapply H. }
  apply H.
Qed.

Lemma initialRegistration_inv toUpperCase eventMap serviceMap ss directory :
  let st := initialRegistration toUpperCase ss directory in
  0 <= nextGeneratedId st
  /\ RegInv toUpperCase eventMap serviceMap (nextGeneratedId st) st.
Proof.
  intros st. split.
  - subst st. unfold initialRegistration. simpl.
    destruct (findHighestIdInDirectory directory =? 0) eqn:E.
    + apply fold_localSheetHighest_ge.
    + apply highest_directory_nonneg.
  - split; simpl; try done.
    + intros k Hk. by apply elem_of_nil in Hk.
    + lia.
    + intros k Hk. by apply elem_of_nil in Hk.
    + apply NoDup_nil. done.
Qed.



(** ** The Sunday registration script: the Directory map and the check boxes *)

Lemma directoryDataRow_other toUpperCase c1 c2 c3 m row k :
  ~ filedUnder toUpperCase k row ->
  directoryDataRow toUpperCase c1 c2 c3 m row !! k = m !! k.
Proof.
  intros Hn. unfold directoryDataRow.
  destruct (bool_decide (trim (textOf (cell row 0)) = "")) eqn:E1; [done|].
  destruct (bool_decide (trim (textOf (cell row 1)) = "")) eqn:E2; [done|]. simpl.
  apply bool_decide_eq_false in E1, E2.
  rewrite lookup_insert_ne; [done|]. intros Hk. by apply Hn.
Qed.

Lemma directoryDataRow_filed toUpperCase c1 c2 c3 m row k :
  filedUnder toUpperCase k row ->
  directoryDataRow toUpperCase c1 c2 c3 m row !! k
  = Some {| entry_id := trim (textOf (cell row 0));
            entry_email := entryCell c1 row;
            entry_firstName := entryCell c2 row;
            entry_lastName := entryCell c3 row |}.
Proof.
  intros (Hid & Hname & <-). unfold directoryDataRow.
  rewrite !bool_decide_eq_false_2 by done. simpl. by rewrite lookup_insert_eq.
Qed.

Lemma fold_directoryDataRow_other toUpperCase c1 c2 c3 rows k : forall m,
  Forall (fun row => ~ filedUnder toUpperCase k row) rows ->
  fold_left (directoryDataRow toUpperCase c1 c2 c3) rows m !! k = m !! k.
Proof.
  induction rows as [|row rows IH]; intros m Hrows; [done|].
  apply Forall_cons in Hrows as [Hrow Hrows]. simpl.
  rewrite IH by done. by apply directoryDataRow_other.
Qed.

Lemma getDirectoryDataMap_rows toUpperCase header rows :
  let headers := map (fun h => toLowerCase (trim (textOf h))) header in
  getDirectoryDataMap toUpperCase (Some (header :: rows))
  = fold_left
      (directoryDataRow toUpperCase (headerIndex headers "email")
         (match headerIndex headers "first name" with
          | Some i => Some i
          | None => headerIndex headers "firstname"
          end)
         (match headerIndex headers "last name" with
          | Some i => Some i
          | None => headerIndex headers "lastname"
          end))
      rows ∅.
Proof.
  intros headers. unfold getDirectoryDataMap. destruct rows as [|row rows]; [done|].
  assert ((1 <? length (header :: row :: rows))%nat = true) as ->; [|done].
  apply Nat.ltb_lt. simpl. lia.
Qed.

(** X26. In the Directory map of the registration script the last row of a
    name wins: a name in upper case is mapped to the trimmed id, e-mail and
    first and last name of the last row below the header that has an id and
    this name, and to nothing when there is no such row or no Directory.
    The header row is never an entry. *)
Theorem directory_map_last_row_wins toUpperCase header rows k :
  getDirectoryDataMap toUpperCase None !! k = None
  /\ (Forall (fun row => ~ filedUnder toUpperCase k row) rows ->
      getDirectoryDataMap toUpperCase (Some (header :: rows)) !! k = None)
  /\ (forall before row after,
        rows = (before ++ row :: after)%list -> filedUnder toUpperCase k row ->
        Forall (fun r => ~ filedUnder toUpperCase k r) after ->
        exists e,
          getDirectoryDataMap toUpperCase (Some (header :: rows)) !! k = Some e
          /\ entry_id e = trim (textOf (cell row 0))
          /\ entry_id e <> ""
          /\ let headers := map (fun h => toLowerCase (trim (textOf h))) header in
             entry_email e = entryCell (headerIndex headers "email") row
             /\ entry_firstName e
                = entryCell
                    (match headerIndex headers "first name" with
                     | Some i => Some i
                     | None => headerIndex headers "firstname"
                     end) row
             /\ entry_lastName e
                = entryCell
                    (match headerIndex headers "last name" with
                     | Some i => Some i
                     | None => headerIndex headers "lastname"
                     end) row).
Proof.
  split; [done|]. rewrite getDirectoryDataMap_rows. split.
  - intros Hrows. by rewrite fold_directoryDataRow_other.
  - intros before row after -> Hrow Hafter.
    rewrite fold_left_app. simpl fold_left.
    rewrite fold_directoryDataRow_other by done.
    rewrite (directoryDataRow_filed _ _ _ _ _ _ _ Hrow).
    eexists. split; [done|]. simpl. split; [done|]. split; [apply Hrow|].
    done.
Qed.

Lemma lastNamedRow_spec nameValues : forall i n,
  (n <= i)%nat ->
  let r := lastNamedRow i n nameValues in
  (r <= i + length nameValues)%nat
  /\ (r = n <-> Forall (fun row => trim (textOf (cell row 0)) = "") nameValues)
  /\ (r <> n ->
      exists j row,
        r = S (i + j) /\ nameValues !! j = Some row /\ trim (textOf (cell row 0)) <> ""
        /\ Forall (fun row => trim (textOf (cell row 0)) = "") (drop (S j) nameValues)).
Proof.
  induction nameValues as [|row nameValues IH]; intros i n Hn; simpl.
  { split; [lia|]. split; [done|]. done. }
  destruct (bool_decide (trim (textOf (cell row 0)) = "")) eqn:E; simpl.
  - apply bool_decide_eq_true in E.
    destruct (IH (S i) n) as (H1 & H2 & H3); [lia|].
    split; [lia|]. split.
    + rewrite H2. split; [by constructor|]. by intros [_ H]%Forall_cons.
    + intros Hne. destruct (H3 Hne) as (j & r & Hr & Hj & Hnamed & Hrest).
      exists (S j), r. split; [lia|]. done.
  - apply bool_decide_eq_false in E.
    destruct (IH (S i) (S i)) as (H1 & H2 & H3); [lia|].
    split; [lia|].
    destruct (decide (lastNamedRow (S i) (S i) nameValues = S i)) as [Heq|Hne].
    + rewrite Heq. split.
      * split; [lia|]. by intros [H _]%Forall_cons.
      * intros _. exists 0%nat, row. split; [lia|]. split; [done|]. split; [done|].
        simpl. by apply H2.
    + destruct (H3 Hne) as (j & r & Hr & Hj & Hnamed & Hrest).
      split.
      * split; [lia|]. by intros [H _]%Forall_cons.
      * intros _. exists (S j), r. split; [lia|]. done.
Qed.

(** X27. The number of rows that get a check box is the position of the
    last row with a name: no row when no row has a name, and otherwise all
    rows down to the last one whose name is not blank, the rows without a
    name between them too, and none of the blank rows after it. *)
Theorem check_box_rows nameValues :
  (rowsWithActualNames nameValues <= length nameValues)%nat
  /\ (rowsWithActualNames nameValues = 0%nat
      <-> Forall (fun row => trim (textOf (cell row 0)) = "") nameValues)
  /\ (rowsWithActualNames nameValues <> 0%nat ->
      exists row,
        nameValues !! (rowsWithActualNames nameValues - 1)%nat = Some row
        /\ trim (textOf (cell row 0)) <> ""
        /\ Forall (fun row => trim (textOf (cell row 0)) = "")
             (drop (rowsWithActualNames nameValues) nameValues)).
Proof.
  unfold rowsWithActualNames.
  destruct (lastNamedRow_spec nameValues 0 0) as (H1 & H2 & H3); [lia|].
  split; [done|]. split; [done|].
  intros Hne. destruct (H3 Hne) as (j & row & Hr & Hj & Hnamed & Hrest).
  exists row. rewrite Hr. simpl. rewrite Nat.sub_0_r. done.
Qed.


(** ** The Sunday registration script: submitting the attendance *)

Lemma attendanceEntry_spec toUpperCase formatServiceDate serviceDate directoryMap now row entry :
  attendanceEntry toUpperCase formatServiceDate serviceDate directoryMap now row = Some entry ->
  cell row 4 = VBool true /\ toBoolean (cell row 1) = true
  /\ trim (toString (cell row 1)) <> ""
  /\ exists email,
       entry = [cell row 0; cell row 1; orEmpty (cell row 2); orEmpty (cell row 3);
                VStr (formatServiceDate serviceDate); VStr "No"; VStr email; VStr "";
                VDate (Some now)].
Proof.
  unfold attendanceEntry.
  destruct (cell row 4) as [| |[|]| | |]; try done. simpl.
  destruct (toBoolean (cell row 1)); [|done]. simpl.
  destruct (bool_decide (trim (toString (cell row 1)) = "")) eqn:E; [done|].
  apply bool_decide_eq_false in E. simpl. intros [= <-].
  split; [done|]. split; [done|]. split; [done|]. by eexists.
Qed.

Lemma attendanceEntry_checked toUpperCase formatServiceDate serviceDate directoryMap now row :
  cell row 4 = VBool true -> toBoolean (cell row 1) = true ->
  trim (toString (cell row 1)) <> "" ->
  exists entry,
    attendanceEntry toUpperCase formatServiceDate serviceDate directoryMap now row = Some entry.
Proof.
  intros H4 H1 Hname. unfold attendanceEntry. rewrite H4, H1. simpl.
  rewrite bool_decide_eq_false_2 by done. simpl. by eexists.
Qed.

Lemma attendanceEntriesFrom_elem toUpperCase formatServiceDate clock serviceDate directoryMap
    regData : forall i entry,
  entry ∈ attendanceEntriesFrom toUpperCase formatServiceDate clock serviceDate directoryMap
            i regData
  <-> exists (j : nat) row,
        regData !! j = Some row
        /\ attendanceEntry toUpperCase formatServiceDate serviceDate directoryMap
             (clock (i + j)%nat) row = Some entry.
Proof.
  induction regData as [|row regData IH]; intros i entry; simpl.
  { split; [by intros H%elem_of_nil|]. by intros (j & r & H & _). }
  destruct (attendanceEntry toUpperCase formatServiceDate serviceDate directoryMap
              (clock i) row) as [e|] eqn:E.
  - rewrite elem_of_cons, IH. split.
    + intros [->|(j & r & Hj & He)].
      * exists 0%nat, row. by rewrite Nat.add_0_r.
      * exists (S j), r. split; [done|]. by rewrite Nat.add_succ_r.
    + intros ([|j] & r & Hj & He); simpl in Hj.
      * injection Hj as <-. rewrite Nat.add_0_r, E in He. left. by injection He.
      * right. exists j, r. split; [done|]. by rewrite Nat.add_succ_r in He.
  - rewrite IH. split.
    + intros (j & r & Hj & He). exists (S j), r. split; [done|]. by rewrite Nat.add_succ_r.
    + intros ([|j] & r & Hj & He); simpl in Hj.
      * injection Hj as <-. rewrite Nat.add_0_r, E in He. done.
      * exists j, r. split; [done|]. by rewrite Nat.add_succ_r in He.
Qed.

Lemma attendanceEntriesFrom_length toUpperCase formatServiceDate clock serviceDate directoryMap
    regData : forall i,
  (length (attendanceEntriesFrom toUpperCase formatServiceDate clock serviceDate directoryMap
             i regData)
   <= length regData)%nat.
Proof.
  induction regData as [|row regData IH]; intros i; simpl; [lia|].
  specialize (IH (S i)). destruct (attendanceEntry _ _ _ _ _ _); simpl; lia.
Qed.

Lemma toLowerCase_nonempty s : s <> "" -> toLowerCase s <> "".
Proof. by destruct s. Qed.

Lemma truthy_normalize_named v :
  toBoolean v = true -> trim (toString v) <> "" -> truthy (normalize v) <> None.
Proof.
  intros Hv Hname. destruct v; try done; simpl;
    (destruct (decide (toLowerCase _ = "")) as [E|]; [|done];
     by apply toLowerCase_nonempty in E).
Qed.

(** X28. What [submitRegistrationAttendance] appends to "Service
    Attendance": one row of 9 columns for each row of the registration list
    that is checked and has a name, in the order of the list, and nothing
    for the other rows; the row carries the id and the name of the list and
    the service date as the host formats it.  [matchOrAssignBelCodes] reads
    every such row as a row of the service shape: the name counts, and the
    row is formatted as a "Sunday Service" with the formatted service date
    as its timestamp, never skipped for its structure. *)
Theorem submitted_rows_are_service_rows toUpperCase formatServiceDate clock serviceDateValue
    serviceSheet directory regRows attendanceEntries :
  submitRegistrationAttendance toUpperCase formatServiceDate clock serviceDateValue
    serviceSheet directory regRows = Submitted attendanceEntries ->
  exists serviceDate,
    serviceDateValue = VDate (Some serviceDate) /\ serviceSheet = true
    /\ attendanceEntries <> []
    /\ (length attendanceEntries <= length regRows - 5)%nat
    /\ (forall entry,
          entry ∈ attendanceEntries ->
          exists (j : nat) row,
            drop 5 regRows !! j = Some row /\ cell row 4 = VBool true
            /\ length entry = 9%nat
            /\ cell entry 0 = cell row 0 /\ cell entry 1 = cell row 1
            /\ cell entry 4 = VStr (formatServiceDate serviceDate)
            /\ cell entry 8 = VDate (Some (clock j))
            /\ truthy (normalize (cell entry 1)) <> None
            /\ forall id,
                 formatRow id entry
                 = Some [idValue id; cell row 1; VStr "Sunday Service"; VStr "Service";
                         orEmpty (cell row 2); orEmpty (cell row 3); cell entry 6;
                         VStr ""; VStr ""; VStr ""; VStr (formatServiceDate serviceDate)])
    /\ (forall (j : nat) row,
          drop 5 regRows !! j = Some row -> cell row 4 = VBool true ->
          toBoolean (cell row 1) = true -> trim (toString (cell row 1)) <> "" ->
          exists entry,
            entry ∈ attendanceEntries
            /\ cell entry 0 = cell row 0 /\ cell entry 1 = cell row 1).
Proof.
  unfold submitRegistrationAttendance.
  destruct serviceDateValue as [| | | | |[serviceDate|]]; try done.
  destruct serviceSheet; [|done]. simpl negb. cbv iota.
  destruct (length regRows <? 6)%nat; [done|].
  set (m := getDirectoryDataMap toUpperCase directory).
  destruct (attendanceEntriesFrom toUpperCase formatServiceDate clock serviceDate m 0
              (drop 5 regRows)) as [|e0 es] eqn:E; [done|].
  intros [= <-]. exists serviceDate. split; [done|]. split; [done|]. split; [done|].
  split.
  { rewrite <- E, <- length_drop. apply attendanceEntriesFrom_length. }
  split.
  - intros entry Hin. rewrite <- E in Hin.
    apply attendanceEntriesFrom_elem in Hin as (j & row & Hj & He). simpl in He.
    apply attendanceEntry_spec in He as (H4 & H1 & Hname & email & ->).
    exists j, row. split; [done|]. split; [done|]. split; [done|].
    split; [done|]. split; [done|]. split; [done|]. split; [done|].
    split; [by apply truthy_normalize_named|]. done.
  - intros j row Hj H4 H1 Hname.
    destruct (attendanceEntry_checked toUpperCase formatServiceDate serviceDate m
                (clock j) row H4 H1 Hname) as [entry He].
    exists entry. split.
    + rewrite <- E. apply attendanceEntriesFrom_elem. by exists j, row.
    + by apply attendanceEntry_spec in He as (_ & _ & _ & email & ->).
Qed.

End Host.

(** * Evaluation on sample sheets

    The Directory knows Jane Doe as 1042 and has a row with an id and no
    name; Event Attendance has a new person, and Jane Doe again under
    another id; Service Attendance has Jane Doe without an id and a third
    person whose id is not numeric and whose timestamp is no date. *)

Definition sampleHeader : list value := [VStr "A"; VStr "B"; VStr "C"].

Definition sampleStamp : value := VDate (Some 1736035200000).

Definition sampleData : SheetsData :=
  {| dData :=
       [sampleHeader;
        [sampleStamp; VStr "1042"; VStr "Jane Doe"];
        [sampleStamp; VNum (Fin 9000); VStr "  "]];
     eData :=
       [sampleHeader;
        [VStr ""; VStr "New Person"; VStr "Picnic"; VStr "P1"; VStr "New"; VStr "Person";
         VStr "n@x.org"; VStr "555"; VStr "Form"; VStr "Volunteer"; sampleStamp];
        [VNum (Fin 7); VStr " JANE DOE"; VStr "Youth Sunday Service"; VStr "Y1"; VStr "Jane";
         VStr "Doe"; VStr "j@x.org"; VStr "556"; VStr "Form"; VStr "Guest"; VStr "2025-01-05"]];
     sData :=
       [sampleHeader;
        [VStr ""; VStr "Jane Doe"; VStr "Jane"; VStr "Doe"; sampleStamp; VStr "Present";
         VStr "j@x.org"; VStr ""];
        [VStr "BEL12"; VStr "Ann Other"; VStr "Ann"; VStr "Other"; VStr "soon"; VStr "Present";
         VStr "a@x.org"; VStr ""]] |}.

Definition sampleRun : Result Run :=
  runAssignment sampleFractionToString sampleDateToString sampleData.

Definition sampleRows : list (list value) :=
  match matchOrAssignBelCodes sampleFractionToString sampleDateToString (Some sampleData) with
  | Ok rows => rows
  | _ => []
  end.

(** The state of the sample run after the first attendance row. *)
Definition sampleReached : Run :=
  match
    assignRows sampleFractionToString sampleDateToString
      (highestFoundNum
         (allUsedCodes (initialRun sampleFractionToString sampleDateToString sampleData)))
      (initialRun sampleFractionToString sampleDateToString sampleData)
      (firstn 1 (attendanceDataRaw sampleData))
  with
  | Ok st => st
  | _ => initialRun sampleFractionToString sampleDateToString sampleData
  end.

Definition sampleAggregate (rawData : list (list value)) : list Summary :=
  aggregate sampleFractionToString sampleDateToString sampleDateParse sampleLocalTZA
    1736035200000 rawData.

(** The ids in column A of the formatted rows: the new person gets 1043,
    Jane Doe keeps the Directory's 1042 in both sheets, the third person
    gets 1044. *)
Example sample_ids :
  map (fun row => cell row 0) sampleRows
  = [idValue 1043; idValue 1042; idValue 1042; idValue 1044].
Proof. vm_compute. reflexivity. Qed.

(** The used-id set holds the id that lost against the Directory's, and not
    the id of the Directory row without a name. *)
Example sample_used_ids :
  elements (snd (collectIds sampleFractionToString sampleDateToString sampleData)) = [7; 1042].
Proof. vm_compute. reflexivity. Qed.

(** The row without a date is left out.  Jane Doe's two rows, a "Youth
    Sunday Service" and the Sunday service of the same day, have the same
    key and count as one event. *)
Example sample_summary :
  map (fun s => (sum_bel s, sum_totalUniqueEvents s, sum_lastEventName s))
    (sampleAggregate sampleRows)
  = [("1043", 1%nat, "Picnic"); ("1042", 1%nat, "sunday service")].
Proof. vm_compute. reflexivity. Qed.


Lemma collectIds_first_seen_wins_witness :
  7 ∈ snd (collectIds sampleFractionToString sampleDateToString sampleData)
  /\ fst (collectIds sampleFractionToString sampleDateToString sampleData) !! "jane doe"
     = Some 1042.
Proof.
  destruct (collectIds_first_seen_wins sampleFractionToString sampleDateToString sampleData)
    as (_ & Hused & Hmap & _).
  split.
  - apply (Hused "jane doe" (VNum (Fin 7)) 7); [|reflexivity].
    apply list_elem_of_In. vm_compute. right. right. left. reflexivity.
  - rewrite Hmap. reflexivity.
Defined.



Lemma totalUniqueEvents_bounds_witness :
  forallb (fun s => (sum_quarterEvents s <=? sum_totalUniqueEvents s)%nat
                    && (sum_monthEvents s <=? sum_totalUniqueEvents s)%nat)
    (sampleAggregate sampleRows) = true.
Proof.
  apply forallb_forall. intros s Hs. apply list_elem_of_In in Hs.
  destruct (proj1 (totalUniqueEvents_bounds sampleFractionToString sampleDateToString
                     sampleDateParse sampleLocalTZA 1736035200000) sampleRows s Hs) as [Hq Hm].
  apply andb_true_iff. split; by apply Nat.leb_le.
Defined.

Lemma invalid_timestamp_rows_excluded_witness :
  summaryFor "1044" (sampleAggregate sampleRows) = None.
Proof.
  refine (proj2 (proj2 (proj2 (invalid_timestamp_rows_excluded sampleFractionToString
            sampleDateToString sampleDateParse sampleLocalTZA 1736035200000 sampleRows)))
            "1044" _).
  intros row r Hrow.
  assert (Hall : forallb (fun row =>
            negb (bool_decide
                    (fst <$> recordOfRow sampleFractionToString sampleDateToString
                               sampleDateParse sampleLocalTZA row = Some "1044")))
            sampleRows = true).
  { vm_compute. reflexivity. }
  rewrite forallb_forall in Hall. apply list_elem_of_In in Hrow. specialize (Hall row Hrow).
  intros E. rewrite E in Hall. simpl in Hall. discriminate Hall.
Defined.


Lemma eventKey_cases_witness :
  eventKeyOf sampleLocalTZA (VStr "Youth Sunday Service") (VStr "Y1") 1736035200000
  = "sunday service-Sun Jan 05 2025".
Proof.
  refine (proj1 (eventKey_cases sampleLocalTZA (VStr "Youth Sunday Service") (VStr "Y1")
                   1736035200000) "Youth Sunday Service" eq_refl _).
  exists "Youth ", "Sunday Service", "". split; reflexivity.
Defined.

(** C6, as stated, fails: an event whose name is not the literal "Sunday
    Service" but contains it gets the key of the day, not a key made of its
    name and id. *)
Lemma eventKey_literal_counterexample :
  VStr "Youth Sunday Service" <> VStr "Sunday Service"
  /\ eventKeyOf sampleLocalTZA (VStr "Youth Sunday Service") (VStr "Y1") 1736035200000
     = "sunday service-" ++ toDateString sampleLocalTZA 1736035200000
  /\ eventKeyOf sampleLocalTZA (VStr "Youth Sunday Service") (VStr "Y1") 1736035200000
     <> "Youth Sunday Service" ++ "Y1"
  /\ eventKeyOf sampleLocalTZA (VStr "Youth Sunday Service") (VStr "Y1") 1736035200000
     <> "Youth Sunday Service" ++ "-" ++ "Y1".
Proof. repeat split; vm_compute; congruence. Qed.


Lemma normalize_spec_witness :
  normalize sampleFractionToString sampleDateToString (VStr "  Jane DOE ") = Some "jane doe"
  /\ truthy (normalize sampleFractionToString sampleDateToString VNull) = None.
Proof.
  destruct (normalize_spec sampleFractionToString sampleDateToString)
    as (Hstr & _ & _ & _ & _ & Hnone & _).
  split; [exact (Hstr "  Jane DOE ")|]. apply Hnone. by left.
Defined.

(** * Evaluation of the further properties *)

(** Upper case of the letters a to z, the other characters unchanged. *)
Definition sampleToUpperCase (s : string) : string :=
  (fix upper (s : string) : string :=
     match s with
     | EmptyString => EmptyString
     | String c r =>
         String (if ((97 <=? code c) && (code c <=? 122))%N then ascii_of_N (code c - 32) else c)
           (upper r)
     end) s.

Definition sampleServiceRow : list value :=
  [VStr ""; VStr "Jane Doe"; VStr "Jane"; VStr "Doe"; sampleStamp; VStr "Present";
   VStr "j@x.org"; VStr ""].

Definition sampleServiceFormatted : list value :=
  [idValue 1042; VStr "Jane Doe"; VStr "Sunday Service"; VStr "Service"; VStr "Jane";
   VStr "Doe"; VStr "j@x.org"; VStr ""; VStr ""; VStr ""; sampleStamp].

Definition sampleValuesE : list (list value) := [[VNum (Fin 10)]; [VStr ""]; [VStr " "]].
Definition sampleValuesK : list (list value) := [[VNum (Fin 5)]; [VStr "abc"]; [VStr ""]].

(** A Directory with ids in column A, a registration sheet with one member
    below its five heading rows, and no other local sheet. *)
Definition sampleDirectory : option (list (list value)) :=
  Some [[VStr "ID"; VStr "Full Name"; VStr "Email"];
        [VNum (Fin 1042); VStr "Jane Doe"; VStr "j@x.org"];
        [VStr " 17 "; VStr "John Roe"; VStr "r@x.org"];
        [VStr "18"; VStr "jane doe"; VStr "jd@x.org"]].

Definition sampleRegistrationRows : list (list value) :=
  [[VStr "SUNDAY SERVICE REGISTRATION"]; [VStr "Service Date:"; sampleStamp];
   [VStr "Instructions"]; [VStr "Refresh List"]; [VStr "ID"; VStr "Full Name"];
   [VStr "1042"; VStr "Jane Doe"; VStr "Jane"; VStr "Doe"; VBool true];
   [VStr "2000"; VStr "John Roe"; VStr "John"; VStr "Roe"; VBool false]].

Definition sampleWorkbook : Workbook :=
  fun sheetName =>
    if bool_decide (sheetName = "Sunday Registration") then
      Some {| sheetRows := sampleRegistrationRows; displayA1 := ""; displayB1 := "" |}
    else None.

Definition sampleAddedRow : list value :=
  [VStr "2001"; VStr "New  Person"; VStr "New"; VStr "Person"; VBool false].

Definition sampleStatsData : list (list value) :=
  [[VStr "BEL"; VStr "Full Name"];
   [VStr "1042"; VStr "Jane Doe"; VStr "Jane"; VStr "Doe"; VNum (Fin 1); VNum (Fin 1);
    VNum (Fin 0); sampleStamp; VStr "sunday service"; VNum (Fin 1); VStr "Core"];
   [VStr "1043"; VStr "New Person"; VStr "New"; VStr "Person"; VNum (Fin 1); VNum (Fin 1);
    VNum (Fin 1); sampleStamp; VStr "Picnic"; VNum (Fin 1); VNum (Fin 2)];
   [VStr "1043"; VStr " new person"; VStr ""; VStr ""; VNum (Fin 1); VNum (Fin 1);
    VNum (Fin 1); sampleStamp; VStr "Picnic"; VNum (Fin 1); VStr "Active"];
   [VStr "1044"; VStr "Old Member"; VStr "Old"; VStr "Member"; VNum (Fin 0); VNum (Fin 0);
    VNum (Fin 0); VStr ""; VStr ""; VNum (Fin 0); VStr "Inactive"]].

Definition sampleRegistration : Registration :=
  match
    populateRegistrationList sampleFractionToString sampleDateToString sampleDateParse
      sampleToUpperCase 1736035200000 sampleWorkbook sampleDirectory sampleStatsData
  with
  | Some st => st
  | None => initialRegistration sampleFractionToString sampleDateToString sampleToUpperCase
              sampleWorkbook sampleDirectory
  end.

Definition sampleEntries : list (list value) :=
  [[VStr "1042"; VStr "Jane Doe"; VStr "Jane"; VStr "Doe"; VStr "1736035200000"; VStr "No";
    VStr "jd@x.org"; VStr ""; VDate (Some 1736035200000)]].

(** The member list of the sample: Jane Doe has the id of the last
    Directory row of her name, the new person gets the id after the highest
    of the Directory in both rows, the inactive member is left out. *)
Example sample_registration :
  activeMembersData sampleRegistration
  = [[VStr "18"; VStr "Jane Doe"; VStr "Jane"; VStr "Doe"; VBool false];
     [VStr "1043"; VStr "New Person"; VStr "New"; VStr "Person"; VBool false];
     [VStr "1043"; VStr "new person"; VStr "New"; VStr "Person"; VBool false]]
  /\ map snd (idSources sampleRegistration) = [FromDirectory; Generated; FromDirectory].
Proof. vm_compute. split; reflexivity. Qed.


Lemma monthEvents_le_quarterEvents_witness :
  forallb (fun s => (sum_monthEvents s <=? sum_quarterEvents s)%nat)
    (sampleAggregate sampleRows) = true.
Proof.
  apply forallb_forall. intros s Hs. apply list_elem_of_In in Hs. apply Nat.leb_le.
  exact (monthEvents_le_quarterEvents sampleFractionToString sampleDateToString
           sampleDateParse sampleLocalTZA 1736035200000 sampleRows s Hs).
Defined.

Lemma summary_of_surviving_rows_witness :
  forallb (fun s => (1 <=? sum_totalUniqueEvents s)%nat && (0 <=? sum_volunteerCount s))
    (sampleAggregate sampleRows) = true.
Proof.
  apply forallb_forall. intros s Hs. apply list_elem_of_In in Hs.
  destruct (summary_of_surviving_rows sampleFractionToString sampleDateToString
              sampleDateParse sampleLocalTZA 1736035200000 sampleRows s Hs)
    as (r & _ & _ & _ & _ & _ & [H1 _] & [H2 _]).
  apply andb_true_iff. split; [by apply Nat.leb_le|by apply Z.leb_le].
Defined.

Lemma service_row_record_witness :
  sampleServiceFormatted
  = [idValue 1042; cell sampleServiceRow 1; VStr "Sunday Service"; VStr "Service";
     cell sampleServiceRow 2; cell sampleServiceRow 3; cell sampleServiceRow 6;
     VStr ""; VStr ""; VStr ""; cell sampleServiceRow 4]
  /\ (8 <= length sampleServiceRow)%nat.
Proof.
  destruct (service_row_record sampleFractionToString sampleDateToString sampleDateParse
              sampleLocalTZA 1042 sampleServiceRow sampleServiceFormatted)
    as (H1 & H2 & _); [simpl; lia|reflexivity|].
  split; [exact H1|exact H2].
Defined.

Lemma activityLevels_written_witness :
  exists out,
    activityLevels sampleFractionToString sampleDateToString sampleValuesE sampleValuesK
    = Ok out
    /\ length out = length sampleValuesE.
Proof.
  destruct (activityLevels_written sampleFractionToString sampleDateToString
              sampleValuesE sampleValuesK) as (out & H1 & H2 & _).
  - reflexivity.
  - repeat constructor.
  - repeat constructor.
  - exists out. split; [exact H1|exact H2].
Defined.

Lemma stats_rows_written_witness :
  updateAttendanceStatsSheet sampleFractionToString sampleDateToString sampleDateParse
    sampleLocalTZA sampleDateToString 1736035200000 (Some sampleData) false = Ok None
  /\ exists out,
       updateAttendanceStatsSheet sampleFractionToString sampleDateToString sampleDateParse
         sampleLocalTZA sampleDateToString 1736035200000 (Some sampleData) true
       = Ok (Some out)
       /\ length out = length (sampleAggregate sampleRows).
Proof.
  destruct (stats_rows_written sampleFractionToString sampleDateToString sampleDateParse
              sampleLocalTZA sampleDateToString 1736035200000 (Some sampleData)
              (sampleAggregate sampleRows)) as (_ & H2 & H3).
  - vm_compute. reflexivity.
  - split; [exact H2|].
    destruct H3 as (out & Hout & Hlen & _).
    + intros E. apply (f_equal (@length Summary)) in E. vm_compute in E. discriminate E.
    + exists out. split; [exact Hout|exact Hlen].
Defined.

Lemma spreadsheet_url_round_trip_witness :
  extractSpreadsheetId "https://docs.google.com/spreadsheets/d/1AbC-d_9/edit#gid=0"
  = Some "1AbC-d_9"
  /\ extractSpreadsheetIdFromUrl "https://docs.google.com/spreadsheets/d/1AbC-d_9/edit#gid=0"
     = Some "1AbC-d_9".
Proof.
  split.
  - refine (proj1 (spreadsheet_url_round_trip "https://docs.google.com/spreadsheets"
                     "1AbC-d_9" "/edit#gid=0" _ eq_refl eq_refl) eq_refl).
    discriminate.
  - refine (proj1 (proj2 (spreadsheet_url_round_trip "https://docs.google.com"
                            "1AbC-d_9" "/edit#gid=0" _ eq_refl eq_refl)) eq_refl).
    discriminate.
Defined.



Lemma submitted_rows_are_service_rows_witness :
  exists serviceDate,
    sampleStamp = VDate (Some serviceDate) /\ sampleEntries <> []
    /\ (length sampleEntries <= length sampleRegistrationRows - 5)%nat.
Proof.
  destruct (submitted_rows_are_service_rows sampleFractionToString sampleDateToString
              sampleToUpperCase sampleDateToString (fun _ => 1736035200000) sampleStamp true
              sampleDirectory sampleRegistrationRows sampleEntries)
    as (serviceDate & H1 & _ & H3 & H4 & _).
  - vm_compute. reflexivity.
  - exists serviceDate. split; [exact H1|]. split; [exact H3|exact H4].
Defined.
